(** * Excel data extractor: the upload, preview and export pipeline of
    [src/app/page.tsx], embedded in Rocq.

    The page keeps five pieces of React state (the loaded sheets, the active
    sheet index, the file shown in the header, the last upload error and the
    search term) and derives the preview rows and the two downloads from
    them.  The embedding follows the source function by function:

    - [JsString]: the string methods the page calls ([toLowerCase], [trim],
      [endsWith], [includes]);
    - [JsObject]: plain objects as ordered own-property lists, with the
      assignment [record[key] = value];
    - [buildSheetData], [isValidFileType], [handleFile], [filteredRows],
      [downloadAsJson], [downloadAsCsv]: the functions of the page;
    - [JSON] and [XLSX]: the built-in and library calls the downloads go
      through.

    A JavaScript string is represented by the bytes of its UTF-8 encoding,
    which is also what a string literal of this file holds.  Searching,
    comparing and cutting well-formed texts gives the same result on the
    bytes as on the UTF-16 code units; the two methods that look at
    characters, [toLowerCase] and [trim], decode them. *)

From Stdlib Require Import String Ascii List ZArith NArith Lia Bool Arith.
From Stdlib Require Import DecimalString DecimalN DecimalNat.
Import ListNotations.
Local Open Scope list_scope.
Local Open Scope string_scope.

Set Implicit Arguments.

(* ===================================================================== *)
(** ** JavaScript strings *)
(* ===================================================================== *)

Module JsString.

(** *** Characters *)

Definition byte_value (c : ascii) : N := N_of_ascii c.

(** [String.fromCodePoint(n)]: the UTF-8 bytes of a code point. *)
Definition utf8 (n : N) : string :=
  (if n <? 0x80 then String (ascii_of_N n) ""
   else if n <? 0x800 then
     String (ascii_of_N (0xC0 + n / 0x40))
       (String (ascii_of_N (0x80 + n mod 0x40)) "")
   else if n <? 0x10000 then
     String (ascii_of_N (0xE0 + n / 0x1000))
       (String (ascii_of_N (0x80 + (n / 0x40) mod 0x40))
          (String (ascii_of_N (0x80 + n mod 0x40)) ""))
   else
     String (ascii_of_N (0xF0 + n / 0x40000))
       (String (ascii_of_N (0x80 + (n / 0x1000) mod 0x40))
          (String (ascii_of_N (0x80 + (n / 0x40) mod 0x40))
             (String (ascii_of_N (0x80 + n mod 0x40)) ""))))%N.

(** The bytes 10xxxxxx, which continue a character. *)
Definition is_continuation (c : ascii) : bool :=
  ((0x80 <=? byte_value c) && (byte_value c <? 0xC0))%N.

(** The number of continuation bytes a leading byte announces. *)
Definition trail (c : ascii) : nat :=
  if (byte_value c <? 0xC0)%N then 0
  else if (byte_value c <? 0xE0)%N then 1
  else if (byte_value c <? 0xF0)%N then 2
  else if (byte_value c <? 0xF8)%N then 3
  else 0.

(** The first [k] bytes of [s] when they are continuation bytes, and the
    rest. *)
Fixpoint continuation (k : nat) (s : string) : option (string * string) :=
  match k with
  | O => Some (EmptyString, s)
  | S k' =>
      match s with
      | String b r =>
          if is_continuation b then
            match continuation k' r with
            | Some (t, r') => Some (String b t, r')
            | None => None
            end
          else None
      | EmptyString => None
      end
  end.

(** The characters of a text, each as its bytes; a byte that starts no
    character of a well-formed text stands alone.  The fuel is the number
    of bytes left. *)
Fixpoint chars_from (fuel : nat) (s : string) : list string :=
  match fuel, s with
  | S fuel', String a r =>
      match continuation (trail a) r with
      | Some (t, r') => String a t :: chars_from fuel' r'
      | None => String a EmptyString :: chars_from fuel' r
      end
  | _, _ => []
  end.

Definition chars (s : string) : list string :=
  chars_from (String.length s) s.

(** [ch.codePointAt(0)] of one character. *)
Definition code_point (ch : string) : option N :=
  match ch with
  | String a EmptyString =>
      if (byte_value a <? 0x80)%N then Some (byte_value a) else None
  | String a (String b EmptyString) =>
      Some ((byte_value a - 0xC0) * 0x40 + (byte_value b - 0x80))%N
  | String a (String b (String c EmptyString)) =>
      Some ((byte_value a - 0xE0) * 0x1000 + (byte_value b - 0x80) * 0x40
            + (byte_value c - 0x80))%N
  | String a (String b (String c (String d EmptyString))) =>
      Some ((byte_value a - 0xF0) * 0x40000 + (byte_value b - 0x80) * 0x1000
            + (byte_value c - 0x80) * 0x40 + (byte_value d - 0x80))%N
  | _ => None
  end.

(** *** Case *)

(** The upper-case letters, A to Z. *)
Definition is_upper (c : ascii) : bool :=
  let n := nat_of_ascii c in ((65 <=? n) && (n <=? 90))%nat.

Definition lower_char (c : ascii) : ascii :=
  if is_upper c then ascii_of_nat (nat_of_ascii c + 32) else c.

(** The lower-case mappings of the Unicode Character Database (version
    14.0) beyond ASCII, in runs: the code points [first], [first + step],
    ... up to [last] map to [target], [target + step], ... *)
Definition lowercase_runs : list (N * N * N * N) :=
  [(0xC0, 0xD6, 1, 0xE0); (0xD8, 0xDE, 1, 0xF8); (0x100, 0x12E, 2, 0x101);
   (0x132, 0x136, 2, 0x133); (0x139, 0x147, 2, 0x13A);
   (0x14A, 0x176, 2, 0x14B); (0x178, 0x178, 1, 0xFF);
   (0x179, 0x17D, 2, 0x17A); (0x181, 0x181, 1, 0x253);
   (0x182, 0x184, 2, 0x183); (0x186, 0x186, 1, 0x254);
   (0x187, 0x187, 1, 0x188); (0x189, 0x18A, 1, 0x256);
   (0x18B, 0x18B, 1, 0x18C); (0x18E, 0x18E, 1, 0x1DD);
   (0x18F, 0x18F, 1, 0x259); (0x190, 0x190, 1, 0x25B);
   (0x191, 0x191, 1, 0x192); (0x193, 0x193, 1, 0x260);
   (0x194, 0x194, 1, 0x263); (0x196, 0x196, 1, 0x269);
   (0x197, 0x197, 1, 0x268); (0x198, 0x198, 1, 0x199);
   (0x19C, 0x19C, 1, 0x26F); (0x19D, 0x19D, 1, 0x272);
   (0x19F, 0x19F, 1, 0x275); (0x1A0, 0x1A4, 2, 0x1A1);
   (0x1A6, 0x1A6, 1, 0x280); (0x1A7, 0x1A7, 1, 0x1A8);
   (0x1A9, 0x1A9, 1, 0x283); (0x1AC, 0x1AC, 1, 0x1AD);
   (0x1AE, 0x1AE, 1, 0x288); (0x1AF, 0x1AF, 1, 0x1B0);
   (0x1B1, 0x1B2, 1, 0x28A); (0x1B3, 0x1B5, 2, 0x1B4);
   (0x1B7, 0x1B7, 1, 0x292); (0x1B8, 0x1B8, 1, 0x1B9);
   (0x1BC, 0x1BC, 1, 0x1BD); (0x1C4, 0x1C4, 1, 0x1C6);
   (0x1C5, 0x1C5, 1, 0x1C6); (0x1C7, 0x1C7, 1, 0x1C9);
   (0x1C8, 0x1C8, 1, 0x1C9); (0x1CA, 0x1CA, 1, 0x1CC);
   (0x1CB, 0x1DB, 2, 0x1CC); (0x1DE, 0x1EE, 2, 0x1DF);
   (0x1F1, 0x1F1, 1, 0x1F3); (0x1F2, 0x1F4, 2, 0x1F3);
   (0x1F6, 0x1F6, 1, 0x195); (0x1F7, 0x1F7, 1, 0x1BF);
   (0x1F8, 0x21E, 2, 0x1F9); (0x220, 0x220, 1, 0x19E);
   (0x222, 0x232, 2, 0x223); (0x23A, 0x23A, 1, 0x2C65);
   (0x23B, 0x23B, 1, 0x23C); (0x23D, 0x23D, 1, 0x19A);
   (0x23E, 0x23E, 1, 0x2C66); (0x241, 0x241, 1, 0x242);
   (0x243, 0x243, 1, 0x180); (0x244, 0x244, 1, 0x289);
   (0x245, 0x245, 1, 0x28C); (0x246, 0x24E, 2, 0x247);
   (0x370, 0x372, 2, 0x371); (0x376, 0x376, 1, 0x377);
   (0x37F, 0x37F, 1, 0x3F3); (0x386, 0x386, 1, 0x3AC);
   (0x388, 0x38A, 1, 0x3AD); (0x38C, 0x38C, 1, 0x3CC);
   (0x38E, 0x38F, 1, 0x3CD); (0x391, 0x3A1, 1, 0x3B1);
   (0x3A3, 0x3AB, 1, 0x3C3); (0x3CF, 0x3CF, 1, 0x3D7);
   (0x3D8, 0x3EE, 2, 0x3D9); (0x3F4, 0x3F4, 1, 0x3B8);
   (0x3F7, 0x3F7, 1, 0x3F8); (0x3F9, 0x3F9, 1, 0x3F2);
   (0x3FA, 0x3FA, 1, 0x3FB); (0x3FD, 0x3FF, 1, 0x37B);
   (0x400, 0x40F, 1, 0x450); (0x410, 0x42F, 1, 0x430);
   (0x460, 0x480, 2, 0x461); (0x48A, 0x4BE, 2, 0x48B);
   (0x4C0, 0x4C0, 1, 0x4CF); (0x4C1, 0x4CD, 2, 0x4C2);
   (0x4D0, 0x52E, 2, 0x4D1); (0x531, 0x556, 1, 0x561);
   (0x10A0, 0x10C5, 1, 0x2D00); (0x10C7, 0x10C7, 1, 0x2D27);
   (0x10CD, 0x10CD, 1, 0x2D2D); (0x13A0, 0x13EF, 1, 0xAB70);
   (0x13F0, 0x13F5, 1, 0x13F8); (0x1C90, 0x1CBA, 1, 0x10D0);
   (0x1CBD, 0x1CBF, 1, 0x10FD); (0x1E00, 0x1E94, 2, 0x1E01);
   (0x1E9E, 0x1E9E, 1, 0xDF); (0x1EA0, 0x1EFE, 2, 0x1EA1);
   (0x1F08, 0x1F0F, 1, 0x1F00); (0x1F18, 0x1F1D, 1, 0x1F10);
   (0x1F28, 0x1F2F, 1, 0x1F20); (0x1F38, 0x1F3F, 1, 0x1F30);
   (0x1F48, 0x1F4D, 1, 0x1F40); (0x1F59, 0x1F5F, 2, 0x1F51);
   (0x1F68, 0x1F6F, 1, 0x1F60); (0x1F88, 0x1F8F, 1, 0x1F80);
   (0x1F98, 0x1F9F, 1, 0x1F90); (0x1FA8, 0x1FAF, 1, 0x1FA0);
   (0x1FB8, 0x1FB9, 1, 0x1FB0); (0x1FBA, 0x1FBB, 1, 0x1F70);
   (0x1FBC, 0x1FBC, 1, 0x1FB3); (0x1FC8, 0x1FCB, 1, 0x1F72);
   (0x1FCC, 0x1FCC, 1, 0x1FC3); (0x1FD8, 0x1FD9, 1, 0x1FD0);
   (0x1FDA, 0x1FDB, 1, 0x1F76); (0x1FE8, 0x1FE9, 1, 0x1FE0);
   (0x1FEA, 0x1FEB, 1, 0x1F7A); (0x1FEC, 0x1FEC, 1, 0x1FE5);
   (0x1FF8, 0x1FF9, 1, 0x1F78); (0x1FFA, 0x1FFB, 1, 0x1F7C);
   (0x1FFC, 0x1FFC, 1, 0x1FF3); (0x2126, 0x2126, 1, 0x3C9);
   (0x212A, 0x212A, 1, 0x6B); (0x212B, 0x212B, 1, 0xE5);
   (0x2132, 0x2132, 1, 0x214E); (0x2160, 0x216F, 1, 0x2170);
   (0x2183, 0x2183, 1, 0x2184); (0x24B6, 0x24CF, 1, 0x24D0);
   (0x2C00, 0x2C2F, 1, 0x2C30); (0x2C60, 0x2C60, 1, 0x2C61);
   (0x2C62, 0x2C62, 1, 0x26B); (0x2C63, 0x2C63, 1, 0x1D7D);
   (0x2C64, 0x2C64, 1, 0x27D); (0x2C67, 0x2C6B, 2, 0x2C68);
   (0x2C6D, 0x2C6D, 1, 0x251); (0x2C6E, 0x2C6E, 1, 0x271);
   (0x2C6F, 0x2C6F, 1, 0x250); (0x2C70, 0x2C70, 1, 0x252);
   (0x2C72, 0x2C72, 1, 0x2C73); (0x2C75, 0x2C75, 1, 0x2C76);
   (0x2C7E, 0x2C7F, 1, 0x23F); (0x2C80, 0x2CE2, 2, 0x2C81);
   (0x2CEB, 0x2CED, 2, 0x2CEC); (0x2CF2, 0x2CF2, 1, 0x2CF3);
   (0xA640, 0xA66C, 2, 0xA641); (0xA680, 0xA69A, 2, 0xA681);
   (0xA722, 0xA72E, 2, 0xA723); (0xA732, 0xA76E, 2, 0xA733);
   (0xA779, 0xA77B, 2, 0xA77A); (0xA77D, 0xA77D, 1, 0x1D79);
   (0xA77E, 0xA786, 2, 0xA77F); (0xA78B, 0xA78B, 1, 0xA78C);
   (0xA78D, 0xA78D, 1, 0x265); (0xA790, 0xA792, 2, 0xA791);
   (0xA796, 0xA7A8, 2, 0xA797); (0xA7AA, 0xA7AA, 1, 0x266);
   (0xA7AB, 0xA7AB, 1, 0x25C); (0xA7AC, 0xA7AC, 1, 0x261);
   (0xA7AD, 0xA7AD, 1, 0x26C); (0xA7AE, 0xA7AE, 1, 0x26A);
   (0xA7B0, 0xA7B0, 1, 0x29E); (0xA7B1, 0xA7B1, 1, 0x287);
   (0xA7B2, 0xA7B2, 1, 0x29D); (0xA7B3, 0xA7B3, 1, 0xAB53);
   (0xA7B4, 0xA7C2, 2, 0xA7B5); (0xA7C4, 0xA7C4, 1, 0xA794);
   (0xA7C5, 0xA7C5, 1, 0x282); (0xA7C6, 0xA7C6, 1, 0x1D8E);
   (0xA7C7, 0xA7C9, 2, 0xA7C8); (0xA7D0, 0xA7D0, 1, 0xA7D1);
   (0xA7D6, 0xA7D8, 2, 0xA7D7); (0xA7F5, 0xA7F5, 1, 0xA7F6);
   (0xFF21, 0xFF3A, 1, 0xFF41); (0x10400, 0x10427, 1, 0x10428);
   (0x104B0, 0x104D3, 1, 0x104D8); (0x10570, 0x1057A, 1, 0x10597);
   (0x1057C, 0x1058A, 1, 0x105A3); (0x1058C, 0x10592, 1, 0x105B3);
   (0x10594, 0x10595, 1, 0x105BB); (0x10C80, 0x10CB2, 1, 0x10CC0);
   (0x118A0, 0x118BF, 1, 0x118C0); (0x16E40, 0x16E5F, 1, 0x16E60);
   (0x1E900, 0x1E921, 1, 0x1E922)]%N.

(** The one mapping of SpecialCasing that gives two code points: the
    dotted capital I. *)
Definition lowercase_special : list (N * list N) :=
  [(0x130, [0x69; 0x307])]%N.

(** The code points with the properties Cased and Case_Ignorable. *)
Definition Cased_ranges : list (N * N) :=
  [(0x41, 0x5A); (0x61, 0x7A); (0xAA, 0xAA); (0xB5, 0xB5); (0xBA, 0xBA);
   (0xC0, 0xD6); (0xD8, 0xF6); (0xF8, 0x1BA); (0x1BC, 0x1BF); (0x1C4, 0x293);
   (0x295, 0x2B8); (0x2C0, 0x2C1); (0x2E0, 0x2E4); (0x345, 0x345);
   (0x370, 0x373); (0x376, 0x377); (0x37A, 0x37D); (0x37F, 0x37F);
   (0x386, 0x386); (0x388, 0x38A); (0x38C, 0x38C); (0x38E, 0x3A1);
   (0x3A3, 0x3F5); (0x3F7, 0x481); (0x48A, 0x52F); (0x531, 0x556);
   (0x560, 0x588); (0x10A0, 0x10C5); (0x10C7, 0x10C7); (0x10CD, 0x10CD);
   (0x10D0, 0x10FA); (0x10FD, 0x10FF); (0x13A0, 0x13F5); (0x13F8, 0x13FD);
   (0x1C80, 0x1C88); (0x1C90, 0x1CBA); (0x1CBD, 0x1CBF); (0x1D00, 0x1DBF);
   (0x1E00, 0x1F15); (0x1F18, 0x1F1D); (0x1F20, 0x1F45); (0x1F48, 0x1F4D);
   (0x1F50, 0x1F57); (0x1F59, 0x1F59); (0x1F5B, 0x1F5B); (0x1F5D, 0x1F5D);
   (0x1F5F, 0x1F7D); (0x1F80, 0x1FB4); (0x1FB6, 0x1FBC); (0x1FBE, 0x1FBE);
   (0x1FC2, 0x1FC4); (0x1FC6, 0x1FCC); (0x1FD0, 0x1FD3); (0x1FD6, 0x1FDB);
   (0x1FE0, 0x1FEC); (0x1FF2, 0x1FF4); (0x1FF6, 0x1FFC); (0x2071, 0x2071);
   (0x207F, 0x207F); (0x2090, 0x209C); (0x2102, 0x2102); (0x2107, 0x2107);
   (0x210A, 0x2113); (0x2115, 0x2115); (0x2119, 0x211D); (0x2124, 0x2124);
   (0x2126, 0x2126); (0x2128, 0x2128); (0x212A, 0x212D); (0x212F, 0x2134);
   (0x2139, 0x2139); (0x213C, 0x213F); (0x2145, 0x2149); (0x214E, 0x214E);
   (0x2160, 0x217F); (0x2183, 0x2184); (0x24B6, 0x24E9); (0x2C00, 0x2CE4);
   (0x2CEB, 0x2CEE); (0x2CF2, 0x2CF3); (0x2D00, 0x2D25); (0x2D27, 0x2D27);
   (0x2D2D, 0x2D2D); (0xA640, 0xA66D); (0xA680, 0xA69D); (0xA722, 0xA787);
   (0xA78B, 0xA78E); (0xA790, 0xA7CA); (0xA7D0, 0xA7D1); (0xA7D3, 0xA7D3);
   (0xA7D5, 0xA7D9); (0xA7F5, 0xA7F6); (0xA7F8, 0xA7FA); (0xAB30, 0xAB5A);
   (0xAB5C, 0xAB68); (0xAB70, 0xABBF); (0xFB00, 0xFB06); (0xFB13, 0xFB17);
   (0xFF21, 0xFF3A); (0xFF41, 0xFF5A); (0x10400, 0x1044F);
   (0x104B0, 0x104D3); (0x104D8, 0x104FB); (0x10570, 0x1057A);
   (0x1057C, 0x1058A); (0x1058C, 0x10592); (0x10594, 0x10595);
   (0x10597, 0x105A1); (0x105A3, 0x105B1); (0x105B3, 0x105B9);
   (0x105BB, 0x105BC); (0x10780, 0x10780); (0x10783, 0x10785);
   (0x10787, 0x107B0); (0x107B2, 0x107BA); (0x10C80, 0x10CB2);
   (0x10CC0, 0x10CF2); (0x118A0, 0x118DF); (0x16E40, 0x16E7F);
   (0x1D400, 0x1D454); (0x1D456, 0x1D49C); (0x1D49E, 0x1D49F);
   (0x1D4A2, 0x1D4A2); (0x1D4A5, 0x1D4A6); (0x1D4A9, 0x1D4AC);
   (0x1D4AE, 0x1D4B9); (0x1D4BB, 0x1D4BB); (0x1D4BD, 0x1D4C3);
   (0x1D4C5, 0x1D505); (0x1D507, 0x1D50A); (0x1D50D, 0x1D514);
   (0x1D516, 0x1D51C); (0x1D51E, 0x1D539); (0x1D53B, 0x1D53E);
   (0x1D540, 0x1D544); (0x1D546, 0x1D546); (0x1D54A, 0x1D550);
   (0x1D552, 0x1D6A5); (0x1D6A8, 0x1D6C0); (0x1D6C2, 0x1D6DA);
   (0x1D6DC, 0x1D6FA); (0x1D6FC, 0x1D714); (0x1D716, 0x1D734);
   (0x1D736, 0x1D74E); (0x1D750, 0x1D76E); (0x1D770, 0x1D788);
   (0x1D78A, 0x1D7A8); (0x1D7AA, 0x1D7C2); (0x1D7C4, 0x1D7CB);
   (0x1DF00, 0x1DF09); (0x1DF0B, 0x1DF1E); (0x1E900, 0x1E943);
   (0x1F130, 0x1F149); (0x1F150, 0x1F169); (0x1F170, 0x1F189)]%N.

Definition Case_Ignorable_ranges : list (N * N) :=
  [(0x27, 0x27); (0x2E, 0x2E); (0x3A, 0x3A); (0x5E, 0x5E); (0x60, 0x60);
   (0xA8, 0xA8); (0xAD, 0xAD); (0xAF, 0xAF); (0xB4, 0xB4); (0xB7, 0xB8);
   (0x2B0, 0x36F); (0x374, 0x375); (0x37A, 0x37A); (0x384, 0x385);
   (0x387, 0x387); (0x483, 0x489); (0x559, 0x559); (0x55F, 0x55F);
   (0x591, 0x5BD); (0x5BF, 0x5BF); (0x5C1, 0x5C2); (0x5C4, 0x5C5);
   (0x5C7, 0x5C7); (0x5F4, 0x5F4); (0x600, 0x605); (0x610, 0x61A);
   (0x61C, 0x61C); (0x640, 0x640); (0x64B, 0x65F); (0x670, 0x670);
   (0x6D6, 0x6DD); (0x6DF, 0x6E8); (0x6EA, 0x6ED); (0x70F, 0x70F);
   (0x711, 0x711); (0x730, 0x74A); (0x7A6, 0x7B0); (0x7EB, 0x7F5);
   (0x7FA, 0x7FA); (0x7FD, 0x7FD); (0x816, 0x82D); (0x859, 0x85B);
   (0x888, 0x888); (0x890, 0x891); (0x898, 0x89F); (0x8C9, 0x902);
   (0x93A, 0x93A); (0x93C, 0x93C); (0x941, 0x948); (0x94D, 0x94D);
   (0x951, 0x957); (0x962, 0x963); (0x971, 0x971); (0x981, 0x981);
   (0x9BC, 0x9BC); (0x9C1, 0x9C4); (0x9CD, 0x9CD); (0x9E2, 0x9E3);
   (0x9FE, 0x9FE); (0xA01, 0xA02); (0xA3C, 0xA3C); (0xA41, 0xA42);
   (0xA47, 0xA48); (0xA4B, 0xA4D); (0xA51, 0xA51); (0xA70, 0xA71);
   (0xA75, 0xA75); (0xA81, 0xA82); (0xABC, 0xABC); (0xAC1, 0xAC5);
   (0xAC7, 0xAC8); (0xACD, 0xACD); (0xAE2, 0xAE3); (0xAFA, 0xAFF);
   (0xB01, 0xB01); (0xB3C, 0xB3C); (0xB3F, 0xB3F); (0xB41, 0xB44);
   (0xB4D, 0xB4D); (0xB55, 0xB56); (0xB62, 0xB63); (0xB82, 0xB82);
   (0xBC0, 0xBC0); (0xBCD, 0xBCD); (0xC00, 0xC00); (0xC04, 0xC04);
   (0xC3C, 0xC3C); (0xC3E, 0xC40); (0xC46, 0xC48); (0xC4A, 0xC4D);
   (0xC55, 0xC56); (0xC62, 0xC63); (0xC81, 0xC81); (0xCBC, 0xCBC);
   (0xCBF, 0xCBF); (0xCC6, 0xCC6); (0xCCC, 0xCCD); (0xCE2, 0xCE3);
   (0xD00, 0xD01); (0xD3B, 0xD3C); (0xD41, 0xD44); (0xD4D, 0xD4D);
   (0xD62, 0xD63); (0xD81, 0xD81); (0xDCA, 0xDCA); (0xDD2, 0xDD4);
   (0xDD6, 0xDD6); (0xE31, 0xE31); (0xE34, 0xE3A); (0xE46, 0xE4E);
   (0xEB1, 0xEB1); (0xEB4, 0xEBC); (0xEC6, 0xEC6); (0xEC8, 0xECD);
   (0xF18, 0xF19); (0xF35, 0xF35); (0xF37, 0xF37); (0xF39, 0xF39);
   (0xF71, 0xF7E); (0xF80, 0xF84); (0xF86, 0xF87); (0xF8D, 0xF97);
   (0xF99, 0xFBC); (0xFC6, 0xFC6); (0x102D, 0x1030); (0x1032, 0x1037);
   (0x1039, 0x103A); (0x103D, 0x103E); (0x1058, 0x1059); (0x105E, 0x1060);
   (0x1071, 0x1074); (0x1082, 0x1082); (0x1085, 0x1086); (0x108D, 0x108D);
   (0x109D, 0x109D); (0x10FC, 0x10FC); (0x135D, 0x135F); (0x1712, 0x1714);
   (0x1732, 0x1733); (0x1752, 0x1753); (0x1772, 0x1773); (0x17B4, 0x17B5);
   (0x17B7, 0x17BD); (0x17C6, 0x17C6); (0x17C9, 0x17D3); (0x17D7, 0x17D7);
   (0x17DD, 0x17DD); (0x180B, 0x180F); (0x1843, 0x1843); (0x1885, 0x1886);
   (0x18A9, 0x18A9); (0x1920, 0x1922); (0x1927, 0x1928); (0x1932, 0x1932);
   (0x1939, 0x193B); (0x1A17, 0x1A18); (0x1A1B, 0x1A1B); (0x1A56, 0x1A56);
   (0x1A58, 0x1A5E); (0x1A60, 0x1A60); (0x1A62, 0x1A62); (0x1A65, 0x1A6C);
   (0x1A73, 0x1A7C); (0x1A7F, 0x1A7F); (0x1AA7, 0x1AA7); (0x1AB0, 0x1ACE);
   (0x1B00, 0x1B03); (0x1B34, 0x1B34); (0x1B36, 0x1B3A); (0x1B3C, 0x1B3C);
   (0x1B42, 0x1B42); (0x1B6B, 0x1B73); (0x1B80, 0x1B81); (0x1BA2, 0x1BA5);
   (0x1BA8, 0x1BA9); (0x1BAB, 0x1BAD); (0x1BE6, 0x1BE6); (0x1BE8, 0x1BE9);
   (0x1BED, 0x1BED); (0x1BEF, 0x1BF1); (0x1C2C, 0x1C33); (0x1C36, 0x1C37);
   (0x1C78, 0x1C7D); (0x1CD0, 0x1CD2); (0x1CD4, 0x1CE0); (0x1CE2, 0x1CE8);
   (0x1CED, 0x1CED); (0x1CF4, 0x1CF4); (0x1CF8, 0x1CF9); (0x1D2C, 0x1D6A);
   (0x1D78, 0x1D78); (0x1D9B, 0x1DFF); (0x1FBD, 0x1FBD); (0x1FBF, 0x1FC1);
   (0x1FCD, 0x1FCF); (0x1FDD, 0x1FDF); (0x1FED, 0x1FEF); (0x1FFD, 0x1FFE);
   (0x200B, 0x200F); (0x2018, 0x2019); (0x2024, 0x2024); (0x2027, 0x2027);
   (0x202A, 0x202E); (0x2060, 0x2064); (0x2066, 0x206F); (0x2071, 0x2071);
   (0x207F, 0x207F); (0x2090, 0x209C); (0x20D0, 0x20F0); (0x2C7C, 0x2C7D);
   (0x2CEF, 0x2CF1); (0x2D6F, 0x2D6F); (0x2D7F, 0x2D7F); (0x2DE0, 0x2DFF);
   (0x2E2F, 0x2E2F); (0x3005, 0x3005); (0x302A, 0x302D); (0x3031, 0x3035);
   (0x303B, 0x303B); (0x3099, 0x309E); (0x30FC, 0x30FE); (0xA015, 0xA015);
   (0xA4F8, 0xA4FD); (0xA60C, 0xA60C); (0xA66F, 0xA672); (0xA674, 0xA67D);
   (0xA67F, 0xA67F); (0xA69C, 0xA69F); (0xA6F0, 0xA6F1); (0xA700, 0xA721);
   (0xA770, 0xA770); (0xA788, 0xA78A); (0xA7F2, 0xA7F4); (0xA7F8, 0xA7F9);
   (0xA802, 0xA802); (0xA806, 0xA806); (0xA80B, 0xA80B); (0xA825, 0xA826);
   (0xA82C, 0xA82C); (0xA8C4, 0xA8C5); (0xA8E0, 0xA8F1); (0xA8FF, 0xA8FF);
   (0xA926, 0xA92D); (0xA947, 0xA951); (0xA980, 0xA982); (0xA9B3, 0xA9B3);
   (0xA9B6, 0xA9B9); (0xA9BC, 0xA9BD); (0xA9CF, 0xA9CF); (0xA9E5, 0xA9E6);
   (0xAA29, 0xAA2E); (0xAA31, 0xAA32); (0xAA35, 0xAA36); (0xAA43, 0xAA43);
   (0xAA4C, 0xAA4C); (0xAA70, 0xAA70); (0xAA7C, 0xAA7C); (0xAAB0, 0xAAB0);
   (0xAAB2, 0xAAB4); (0xAAB7, 0xAAB8); (0xAABE, 0xAABF); (0xAAC1, 0xAAC1);
   (0xAADD, 0xAADD); (0xAAEC, 0xAAED); (0xAAF3, 0xAAF4); (0xAAF6, 0xAAF6);
   (0xAB5B, 0xAB5F); (0xAB69, 0xAB6B); (0xABE5, 0xABE5); (0xABE8, 0xABE8);
   (0xABED, 0xABED); (0xFB1E, 0xFB1E); (0xFBB2, 0xFBC2); (0xFE00, 0xFE0F);
   (0xFE13, 0xFE13); (0xFE20, 0xFE2F); (0xFE52, 0xFE52); (0xFE55, 0xFE55);
   (0xFEFF, 0xFEFF); (0xFF07, 0xFF07); (0xFF0E, 0xFF0E); (0xFF1A, 0xFF1A);
   (0xFF3E, 0xFF3E); (0xFF40, 0xFF40); (0xFF70, 0xFF70); (0xFF9E, 0xFF9F);
   (0xFFE3, 0xFFE3); (0xFFF9, 0xFFFB); (0x101FD, 0x101FD);
   (0x102E0, 0x102E0); (0x10376, 0x1037A); (0x10780, 0x10785);
   (0x10787, 0x107B0); (0x107B2, 0x107BA); (0x10A01, 0x10A03);
   (0x10A05, 0x10A06); (0x10A0C, 0x10A0F); (0x10A38, 0x10A3A);
   (0x10A3F, 0x10A3F); (0x10AE5, 0x10AE6); (0x10D24, 0x10D27);
   (0x10EAB, 0x10EAC); (0x10F46, 0x10F50); (0x10F82, 0x10F85);
   (0x11001, 0x11001); (0x11038, 0x11046); (0x11070, 0x11070);
   (0x11073, 0x11074); (0x1107F, 0x11081); (0x110B3, 0x110B6);
   (0x110B9, 0x110BA); (0x110BD, 0x110BD); (0x110C2, 0x110C2);
   (0x110CD, 0x110CD); (0x11100, 0x11102); (0x11127, 0x1112B);
   (0x1112D, 0x11134); (0x11173, 0x11173); (0x11180, 0x11181);
   (0x111B6, 0x111BE); (0x111C9, 0x111CC); (0x111CF, 0x111CF);
   (0x1122F, 0x11231); (0x11234, 0x11234); (0x11236, 0x11237);
   (0x1123E, 0x1123E); (0x112DF, 0x112DF); (0x112E3, 0x112EA);
   (0x11300, 0x11301); (0x1133B, 0x1133C); (0x11340, 0x11340);
   (0x11366, 0x1136C); (0x11370, 0x11374); (0x11438, 0x1143F);
   (0x11442, 0x11444); (0x11446, 0x11446); (0x1145E, 0x1145E);
   (0x114B3, 0x114B8); (0x114BA, 0x114BA); (0x114BF, 0x114C0);
   (0x114C2, 0x114C3); (0x115B2, 0x115B5); (0x115BC, 0x115BD);
   (0x115BF, 0x115C0); (0x115DC, 0x115DD); (0x11633, 0x1163A);
   (0x1163D, 0x1163D); (0x1163F, 0x11640); (0x116AB, 0x116AB);
   (0x116AD, 0x116AD); (0x116B0, 0x116B5); (0x116B7, 0x116B7);
   (0x1171D, 0x1171F); (0x11722, 0x11725); (0x11727, 0x1172B);
   (0x1182F, 0x11837); (0x11839, 0x1183A); (0x1193B, 0x1193C);
   (0x1193E, 0x1193E); (0x11943, 0x11943); (0x119D4, 0x119D7);
   (0x119DA, 0x119DB); (0x119E0, 0x119E0); (0x11A01, 0x11A0A);
   (0x11A33, 0x11A38); (0x11A3B, 0x11A3E); (0x11A47, 0x11A47);
   (0x11A51, 0x11A56); (0x11A59, 0x11A5B); (0x11A8A, 0x11A96);
   (0x11A98, 0x11A99); (0x11C30, 0x11C36); (0x11C38, 0x11C3D);
   (0x11C3F, 0x11C3F); (0x11C92, 0x11CA7); (0x11CAA, 0x11CB0);
   (0x11CB2, 0x11CB3); (0x11CB5, 0x11CB6); (0x11D31, 0x11D36);
   (0x11D3A, 0x11D3A); (0x11D3C, 0x11D3D); (0x11D3F, 0x11D45);
   (0x11D47, 0x11D47); (0x11D90, 0x11D91); (0x11D95, 0x11D95);
   (0x11D97, 0x11D97); (0x11EF3, 0x11EF4); (0x13430, 0x13438);
   (0x16AF0, 0x16AF4); (0x16B30, 0x16B36); (0x16B40, 0x16B43);
   (0x16F4F, 0x16F4F); (0x16F8F, 0x16F9F); (0x16FE0, 0x16FE1);
   (0x16FE3, 0x16FE4); (0x1AFF0, 0x1AFF3); (0x1AFF5, 0x1AFFB);
   (0x1AFFD, 0x1AFFE); (0x1BC9D, 0x1BC9E); (0x1BCA0, 0x1BCA3);
   (0x1CF00, 0x1CF2D); (0x1CF30, 0x1CF46); (0x1D167, 0x1D169);
   (0x1D173, 0x1D182); (0x1D185, 0x1D18B); (0x1D1AA, 0x1D1AD);
   (0x1D242, 0x1D244); (0x1DA00, 0x1DA36); (0x1DA3B, 0x1DA6C);
   (0x1DA75, 0x1DA75); (0x1DA84, 0x1DA84); (0x1DA9B, 0x1DA9F);
   (0x1DAA1, 0x1DAAF); (0x1E000, 0x1E006); (0x1E008, 0x1E018);
   (0x1E01B, 0x1E021); (0x1E023, 0x1E024); (0x1E026, 0x1E02A);
   (0x1E130, 0x1E13D); (0x1E2AE, 0x1E2AE); (0x1E2EC, 0x1E2EF);
   (0x1E8D0, 0x1E8D6); (0x1E944, 0x1E94B); (0x1F3FB, 0x1F3FF);
   (0xE0001, 0xE0001); (0xE0020, 0xE007F); (0xE0100, 0xE01EF)]%N.

Fixpoint lowercase_run (runs : list (N * N * N * N)) (n : N) : option N :=
  match runs with
  | [] => None
  | (first, last, step, target) :: runs' =>
      if ((first <=? n) && (n <=? last) && ((n - first) mod step =? 0))%N
      then Some (target + (n - first))%N
      else lowercase_run runs' n
  end.

(** The lower-case mapping of a code point that has one. *)
Definition lowercase (n : N) : option (list N) :=
  match find (fun e => (fst e =? n)%N) lowercase_special with
  | Some e => Some (snd e)
  | None =>
      match lowercase_run lowercase_runs n with
      | Some m => Some [m]
      | None => None
      end
  end.

Definition in_ranges (ranges : list (N * N)) (n : N) : bool :=
  existsb (fun r => ((fst r <=? n) && (n <=? snd r))%N) ranges.

Definition Cased (ch : string) : bool :=
  match code_point ch with
  | Some n => in_ranges Cased_ranges n
  | None => false
  end.

Definition Case_Ignorable (ch : string) : bool :=
  match code_point ch with
  | Some n => in_ranges Case_Ignorable_ranges n
  | None => false
  end.

Fixpoint utf8s (l : list N) : string :=
  match l with
  | [] => EmptyString
  | n :: l' => utf8 n ++ utf8s l'
  end.

(** One character in lower case, whatever surrounds it: the ASCII
    letters by [lower_char], the others by the tables. *)
Definition lower_one (ch : string) : string :=
  match ch with
  | String c EmptyString => String (lower_char c) EmptyString
  | _ =>
      match code_point ch with
      | Some n =>
          match lowercase n with
          | Some l => utf8s l
          | None => ch
          end
      | None => ch
      end
  end.

(** The capital sigma and its two lower-case forms. *)
Definition Sigma : string := Eval vm_compute in utf8 0x3A3.
Definition small_sigma : string := Eval vm_compute in utf8 0x3C3.
Definition final_sigma : string := Eval vm_compute in utf8 0x3C2.

(** A cased letter follows, case-ignorable characters skipped. *)
Fixpoint before_cased (rest : list string) : bool :=
  match rest with
  | [] => false
  | ch :: rest' => if Case_Ignorable ch then before_cased rest' else Cased ch
  end.

(** The characters in lower case, from left to right; [after_cased]
    tells whether a cased letter precedes, case-ignorable characters
    skipped.  A capital sigma in the Final_Sigma context (after a cased
    letter and not before one) becomes the final sigma. *)
Fixpoint lower_chars (after_cased : bool) (l : list string) : string :=
  match l with
  | [] => EmptyString
  | ch :: rest =>
      (if String.eqb ch Sigma then
         if after_cased && negb (before_cased rest)
         then final_sigma else small_sigma
       else lower_one ch)
      ++ lower_chars (if Case_Ignorable ch then after_cased else Cased ch) rest
  end.

(** [s.toLowerCase()] *)
Definition toLowerCase (s : string) : string :=
  lower_chars false (chars s).

(** *** White space *)

(** The code points of WhiteSpace and LineTerminator: TAB, LF, VT, FF,
    CR, SPACE, the no-break space, the other space separators, the line
    and paragraph separators and the byte order mark. *)
Definition white_space_code_points : list N :=
  [0x9; 0xA; 0xB; 0xC; 0xD; 0x20; 0xA0; 0x1680;
   0x2000; 0x2001; 0x2002; 0x2003; 0x2004; 0x2005; 0x2006; 0x2007;
   0x2008; 0x2009; 0x200A; 0x2028; 0x2029; 0x202F; 0x205F; 0x3000;
   0xFEFF]%N.

Definition white_space : list string :=
  Eval vm_compute in map utf8 white_space_code_points.

Definition is_space (spaces : list string) (w : string) : bool :=
  existsb (String.eqb w) spaces.

(** The text without the spaces it starts with; a space has one, two or
    three bytes. *)
Fixpoint strip (spaces : list string) (s : string) : string :=
  match s with
  | EmptyString => EmptyString
  | String a r =>
      if is_space spaces (String a EmptyString) then strip spaces r
      else
        match r with
        | EmptyString => s
        | String b r1 =>
            if is_space spaces (String a (String b EmptyString))
            then strip spaces r1
            else
              match r1 with
              | EmptyString => s
              | String c r2 =>
                  if is_space spaces
                       (String a (String b (String c EmptyString)))
                  then strip spaces r2
                  else s
              end
        end
  end.

Fixpoint reverse (s : string) : string :=
  match s with
  | EmptyString => EmptyString
  | String c r => reverse r ++ String c EmptyString
  end.

(** [s.trimStart()] *)
Definition trimStart (s : string) : string := strip white_space s.

(** [s.trimEnd()]: the same from the other end. *)
Definition trimEnd (s : string) : string :=
  reverse (strip (map reverse white_space) (reverse s)).

(** [s.trim()] *)
Definition trim (s : string) : string := trimEnd (trimStart s).


(** *** Searching *)

(** [s.startsWith(p)] *)
Fixpoint startsWith (s p : string) {struct p} : bool :=
  match p, s with
  | EmptyString, _ => true
  | String _ _, EmptyString => false
  | String a p', String b s' => Ascii.eqb a b && startsWith s' p'
  end.

(** [s.includes(t)] *)
Fixpoint includes (s t : string) : bool :=
  startsWith s t ||
  match s with
  | EmptyString => false
  | String _ s' => includes s' t
  end.

(** [s.endsWith(suffix)] *)
Fixpoint endsWith (s suffix : string) : bool :=
  String.eqb s suffix ||
  match s with
  | EmptyString => false
  | String _ s' => endsWith s' suffix
  end.

(** [parts.join(sep)] *)
Fixpoint join (sep : string) (parts : list string) : string :=
  match parts with
  | [] => EmptyString
  | [p] => p
  | p :: ps => p ++ sep ++ join sep ps
  end.

(** Decimal rendering of a non-negative integer, as in a template
    literal. *)
Definition of_nat (n : nat) : string :=
  NilZero.string_of_uint (Nat.to_uint n).

(** [Number.prototype.toString] on an integer. *)
Definition of_Z (z : Z) : string :=
  match z with
  | Z0 => "0"
  | Zpos p => NilZero.string_of_uint (N.to_uint (Npos p))
  | Zneg p => String "-" (NilZero.string_of_uint (N.to_uint (Npos p)))
  end.

(** Two strings equal up to the case of their letters A to Z. *)
Inductive ci_eq : string -> string -> Prop :=
| ci_eq_nil : ci_eq EmptyString EmptyString
| ci_eq_cons c d s t :
    lower_char c = lower_char d -> ci_eq s t ->
    ci_eq (String c s) (String d t).

(** [t] occurs in [s] as a substring, up to case. *)
Definition ci_substring (t s : string) : Prop :=
  exists pre mid post, s = pre ++ mid ++ post /\ ci_eq mid t.

(** [s] ends with [t], up to case. *)
Definition ci_suffix (t s : string) : Prop :=
  exists pre mid, s = pre ++ mid /\ ci_eq mid t.

End JsString.
Import JsString.

(* ===================================================================== *)
(** ** JavaScript values and plain objects *)
(* ===================================================================== *)

(** The values a decoded cell can hold.  The page types a cell as
    [string | number] and guards every use against [null] and [undefined]
    ([?.], [??]).  A number is an integer, printed in decimal as
    JavaScript prints the integers below 10^21; with [raw: false] the
    decoder hands cells over as formatted text, so the numbers are there
    for the declared type rather than for what a workbook produces. *)
Inductive value : Type :=
| VUndefined
| VNull
| VString (s : string)
| VNumber (n : Z).

(** [v?.toString()]: [None] stands for [undefined]. *)
Definition toString_opt (v : value) : option string :=
  match v with
  | VUndefined | VNull => None
  | VString s => Some s
  | VNumber n => Some (of_Z n)
  end.

(** [v ?? d] *)
Definition nullish (v d : value) : value :=
  match v with
  | VUndefined | VNull => d
  | _ => v
  end.

(** [array[index]]: reading past the end of an array gives [undefined]. *)
Definition array_get (row : list value) (index : nat) : value :=
  match nth_error row index with
  | Some v => v
  | None => VUndefined
  end.

Module JsObject.

(** An object literal [{}] and what assignments make of it: the own
    enumerable properties, in the order [Object.keys] lists them
    (canonical array indices in ascending order first, then the other
    keys in creation order). *)
Definition t : Type := list (string * value).

Definition empty : t := [].

(** The canonical array indices ["0"], ["1"], ... up to 2^32 - 2. *)
Definition array_index (k : string) : option N :=
  match NilZero.uint_of_string k with
  | Some d =>
      let n := N.of_uint d in
      if String.eqb (NilZero.string_of_uint (N.to_uint n)) k
         && (n <=? 4294967294)%N
      then Some n else None
  | None => None
  end.

Definition has (k : string) (o : t) : bool :=
  existsb (fun e => String.eqb (fst e) k) o.

Fixpoint update (k : string) (v : value) (o : t) : t :=
  match o with
  | [] => []
  | (k', v') :: o' =>
      if String.eqb k' k then (k', v) :: o' else (k', v') :: update k v o'
  end.

Fixpoint insert_index (n : N) (k : string) (v : value) (o : t) : t :=
  match o with
  | [] => [(k, v)]
  | (k', v') :: o' =>
      match array_index k' with
      | Some m =>
          if (m <? n)%N then (k', v') :: insert_index n k v o'
          else (k, v) :: o
      | None => (k, v) :: o
      end
  end.

(** Creating or overwriting an own data property. *)
Definition define (k : string) (v : value) (o : t) : t :=
  if has k o then update k v o
  else match array_index k with
       | Some n => insert_index n k v o
       | None => (o ++ [(k, v)])%list
       end.

(** The assignment [o[k] = v] on an object created by [{}].  The key
    ["__proto__"] is the accessor inherited from [Object.prototype]: its
    setter ignores a value that is not an object, and no own property is
    created. *)
Definition set (k : string) (v : value) (o : t) : t :=
  if String.eqb k "__proto__" then o else define k v o.

(** [Object.keys(o)] *)
Definition keys (o : t) : list string := map fst o.

(** [Object.values(o)] *)
Definition values (o : t) : list value := map snd o.

(** [o[k]] for an own property. *)
Definition get (k : string) (o : t) : value :=
  match find (fun e => String.eqb (fst e) k) o with
  | Some e => snd e
  | None => VUndefined
  end.

End JsObject.

(* ===================================================================== *)
(** ** Normalization: [buildSheetData] *)
(* ===================================================================== *)

(** [array.map((x, index) => f x index)] and
    [array.forEach((x, index) => ...)] threading an accumulator. *)
Fixpoint mapi_from {A B} (f : A -> nat -> B) (i : nat) (l : list A) : list B :=
  match l with
  | [] => []
  | x :: l' => f x i :: mapi_from f (S i) l'
  end.

Definition mapi {A B} (f : A -> nat -> B) (l : list A) : list B :=
  mapi_from f 0 l.

Fixpoint forEachi_from {A St} (f : St -> A -> nat -> St) (i : nat) (l : list A)
    (acc : St) : St :=
  match l with
  | [] => acc
  | x :: l' => forEachi_from f (S i) l' (f acc x i)
  end.

Definition forEachi {A St} (f : St -> A -> nat -> St) (l : list A) (acc : St) : St :=
  forEachi_from f 0 l acc.

Record SheetRows : Type := mkSheetRows {
  name : string;
  headers : list string;
  rows : list JsObject.t;
  rowCount : nat;
  columnCount : nat
}.

(** The rows [XLSX.utils.sheet_to_json(sheet, {header: 1, raw: false,
    defval: ""})] yields for a worksheet: arrays of cells, header row
    included. *)
Definition RawRows : Type := list (list value).

(** A decoded workbook: the sheet names in order and the sheet table;
    a worksheet is represented by its row-major decode. *)
Record WorkBook : Type := mkWorkBook {
  SheetNames : list string;
  Sheets : string -> option RawRows
}.

(** [sheet_to_json] on [workbook.Sheets[name]]; the library returns no
    rows for a missing sheet. *)
Definition sheet_to_json (sheet : option RawRows) : RawRows :=
  match sheet with
  | Some rawRows => rawRows
  | None => []
  end.

(** [`Column ${index + 1}`] *)
Definition column_label (index : nat) : string :=
  "Column " ++ of_nat (index + 1).

(** [cell?.toString()?.trim() || `Column ${index + 1}`] *)
Definition header_of (cell : value) (index : nat) : string :=
  match option_map trim (toString_opt cell) with
  | Some EmptyString | None => column_label index
  | Some s => s
  end.

(** The record of one data row:
    [headers.forEach((header, index) => { record[header] = row[index] ?? "" })] *)
Definition record_of (headers : list string) (row : list value) : JsObject.t :=
  forEachi
    (fun record header index =>
       JsObject.set header (nullish (array_get row index) (VString "")) record)
    headers JsObject.empty.

(** The callback of [workbook.SheetNames.map]: the sheet of one name,
    from its decoded rows. *)
Definition buildSheet (name : string) (rawRows : RawRows) : SheetRows :=
  match rawRows with
  | [] => mkSheetRows name [] [] 0 0
  | headerRow :: dataRows =>
      let headers := mapi header_of headerRow in
      let rows := map (record_of headers) dataRows in
      mkSheetRows name headers rows (length rows) (length headers)
  end.

Definition buildSheetData (workbook : WorkBook) : list SheetRows :=
  map (fun name => buildSheet name (sheet_to_json (Sheets workbook name)))
      (SheetNames workbook).

(* ===================================================================== *)
(** ** Ingestion: [isValidFileType], [readFileAsArrayBuffer], [handleFile] *)
(* ===================================================================== *)

Definition allowedExtensions : list string := [".xlsx"; ".xls"; ".csv"; ".ods"].

Definition maxRowsPreview : nat := 200.

Record File : Type := mkFile {
  file_name : string;
  file_size : N
}.

Definition ArrayBuffer : Type := list Byte.byte.

(** What a [catch (err)] clause can receive: an [Error] with its message, or
    any other thrown value. *)
Inductive thrown : Type :=
| ThrownError (message : string)
| ThrownOther.

(** The two collaborators of the upload: the browser's [FileReader]
    ([None]: the reader raised [onerror] or delivered no target) and the
    decoder [XLSX.read], which throws or returns a workbook. *)
Record Collaborators : Type := mkCollaborators {
  FileReader_read : File -> option ArrayBuffer;
  XLSX_read : ArrayBuffer -> thrown + WorkBook
}.

Record UploadError : Type := mkUploadError {
  title : string;
  detail : string
}.

(** The React state of [Home]. *)
Record UIState : Type := mkUIState {
  selectedSheets : list SheetRows;
  activeSheetIndex : nat;
  fileMeta : option File;
  error : option UploadError;
  searchTerm : string
}.

(** [useState] initial values. *)
Definition initialState : UIState := mkUIState [] 0 None None "".

Definition setSelectedSheets (x : list SheetRows) (st : UIState) : UIState :=
  mkUIState x (activeSheetIndex st) (fileMeta st) (error st) (searchTerm st).

Definition setActiveSheetIndex (x : nat) (st : UIState) : UIState :=
  mkUIState (selectedSheets st) x (fileMeta st) (error st) (searchTerm st).

Definition setFileMeta (x : option File) (st : UIState) : UIState :=
  mkUIState (selectedSheets st) (activeSheetIndex st) x (error st) (searchTerm st).

Definition setError (x : option UploadError) (st : UIState) : UIState :=
  mkUIState (selectedSheets st) (activeSheetIndex st) (fileMeta st) x (searchTerm st).

Definition setSearchTerm (x : string) (st : UIState) : UIState :=
  mkUIState (selectedSheets st) (activeSheetIndex st) (fileMeta st) (error st) x.

(** [allowedExtensions.some((extension) =>
       file.name.toLowerCase().endsWith(extension))] *)
Definition isValidFileType (file : File) : bool :=
  existsb (fun extension => endsWith (toLowerCase (file_name file)) extension)
          allowedExtensions.

(** The error of an upload whose extension is not allowed. *)
Definition InvalidFileType : UploadError :=
  mkUploadError "गलत फ़ाइल फॉर्मेट"
    ("कृपया इन फाइल फॉर्मेट्स में से एक चुनें: " ++ join ", " allowedExtensions).

(** The error of a workbook without sheets. *)
Definition EmptyDataError : UploadError :=
  mkUploadError "कोई डेटा नहीं मिला" "इस फ़ाइल में पढ़ने योग्य डेटा उपलब्ध नहीं है।".

(** The error built by the [catch] clause, for a failed read as for a
    failed parse. *)
Definition ReadOrParseError (err : thrown) : UploadError :=
  mkUploadError "पढ़ाई असफल"
    match err with
    | ThrownError message => message
    | ThrownOther => "फ़ाइल को प्रोसेस करते समय कोई समस्या आई।"
    end.

(** [readFileAsArrayBuffer]: the promise resolves with the buffer or
    rejects with an [Error]. *)
Definition readFileAsArrayBuffer (env : Collaborators) (file : File)
  : thrown + ArrayBuffer :=
  match FileReader_read env file with
  | Some buffer => inr buffer
  | None => inl (ThrownError "फ़ाइल पढ़ने में त्रुटि हुई।")
  end.

(** The calls [handleFile] makes to its collaborators, in order. *)
Inductive Call : Type :=
| CallRead (file : File)
| CallParse (buffer : ArrayBuffer).

(** The [catch] clause of [handleFile]. *)
Definition handleFile_catch (err : thrown) (st : UIState) : UIState :=
  setFileMeta None (setSelectedSheets [] (setError (Some (ReadOrParseError err)) st)).

(** [handleFile(fileList)]: the state after the handler has run to
    completion, and the collaborator calls it made.  [None] is a [null]
    file list. *)
Definition handleFile (env : Collaborators) (fileList : option (list File))
    (st : UIState) : UIState * list Call :=
  match fileList with
  | None | Some [] => (st, [])
  | Some (file :: _) =>
      if negb (isValidFileType file) then
        (setError (Some InvalidFileType) st, [])
      else
        match readFileAsArrayBuffer env file with
        | inl err => (handleFile_catch err st, [CallRead file])
        | inr buffer =>
            match XLSX_read env buffer with
            | inl err =>
                (handleFile_catch err st, [CallRead file; CallParse buffer])
            | inr workbook =>
                let sheets := buildSheetData workbook in
                match sheets with
                | [] =>
                    (setFileMeta None
                       (setSelectedSheets []
                          (setError (Some EmptyDataError) st)),
                     [CallRead file; CallParse buffer])
                | _ :: _ =>
                    (setError None
                       (setFileMeta (Some file)
                          (setActiveSheetIndex 0
                             (setSelectedSheets sheets st))),
                     [CallRead file; CallParse buffer])
                end
            end
        end
  end.

(* ===================================================================== *)
(** ** Preview: [currentSheet], [filteredRows] *)
(* ===================================================================== *)

(** [selectedSheets[activeSheetIndex]] *)
Definition currentSheet (st : UIState) : option SheetRows :=
  nth_error (selectedSheets st) (activeSheetIndex st).

(** [value?.toString().toLowerCase().includes(term)], as a condition. *)
Definition value_includes (term : string) (value : value) : bool :=
  match toString_opt value with
  | Some s => includes (toLowerCase s) term
  | None => false
  end.

(** [Object.values(row).some((value) => ...)] *)
Definition row_matches (term : string) (row : JsObject.t) : bool :=
  existsb (value_includes term) (JsObject.values row).

(** [array.slice(0, n)] *)
Definition slice0 {A} (n : nat) (l : list A) : list A := firstn n l.

Definition filteredRows (st : UIState) : list JsObject.t :=
  match currentSheet st with
  | None => []
  | Some sheet =>
      if String.eqb (searchTerm st) "" then slice0 maxRowsPreview (rows sheet)
      else
        let term := toLowerCase (searchTerm st) in
        slice0 maxRowsPreview (filter (row_matches term) (rows sheet))
  end.

(* ===================================================================== *)
(** ** The built-in [JSON] object *)
(* ===================================================================== *)

(** [JSON.stringify] follows the serialization of ECMA-262
    ([QuoteJSONString], [SerializeJSONObject], [SerializeJSONArray]) with
    the gap of two spaces that the third argument 2 asks for. *)
Module JSON.

Definition dquote : ascii := Eval cbv in ascii_of_nat 34.
Definition bslash : ascii := Eval cbv in ascii_of_nat 92.
Definition LF : ascii := Eval cbv in ascii_of_nat 10.

Definition hex_digit (n : nat) : ascii :=
  if (n <? 10)%nat then ascii_of_nat (48 + n) else ascii_of_nat (87 + n).

(** [QuoteJSONString], one character at a time. *)
Definition escape_char (c : ascii) : string :=
  if Ascii.eqb c dquote then String bslash (String dquote "")
  else if Ascii.eqb c bslash then String bslash (String bslash "")
  else if Ascii.eqb c "008" then "\b"
  else if Ascii.eqb c "009" then "\t"
  else if Ascii.eqb c "010" then "\n"
  else if Ascii.eqb c "012" then "\f"
  else if Ascii.eqb c "013" then "\r"
  else if (nat_of_ascii c <? 32)%nat then
    "\u00" ++ String (hex_digit (nat_of_ascii c / 16))
                (String (hex_digit (nat_of_ascii c mod 16)) "")
  else String c "".

Fixpoint escape (s : string) : string :=
  match s with
  | EmptyString => EmptyString
  | String c s' => escape_char c ++ escape s'
  end.

Definition quote (s : string) : string :=
  String dquote (escape s ++ String dquote "").

(** [SerializeJSONProperty] on a primitive: [None] for [undefined], which
    an object omits. *)
Definition stringify_value (v : value) : option string :=
  match v with
  | VUndefined => None
  | VNull => Some "null"
  | VString s => Some (quote s)
  | VNumber n => Some (of_Z n)
  end.

Definition stringify_member (e : string * value) : option string :=
  match stringify_value (snd e) with
  | Some text => Some (quote (fst e) ++ ": " ++ text)
  | None => None
  end.

Fixpoint filter_map {A B} (f : A -> option B) (l : list A) : list B :=
  match l with
  | [] => []
  | x :: l' =>
      match f x with
      | Some y => y :: filter_map f l'
      | None => filter_map f l'
      end
  end.

(** The bracketed, indented layout shared by [SerializeJSONObject] and
    [SerializeJSONArray]: [stepback] is the indentation of the enclosing
    level, [indent] the one of the items. *)
Definition layout (open close : string) (stepback indent : string)
    (partial : list string) : string :=
  match partial with
  | [] => open ++ close
  | _ :: _ =>
      open ++ String LF indent
        ++ join ("," ++ String LF indent) partial
        ++ String LF stepback ++ close
  end.

Definition stringify_object (stepback gap : string) (o : JsObject.t) : string :=
  layout "{" "}" stepback (stepback ++ gap) (filter_map stringify_member o).

(** [JSON.stringify(rows, null, 2)] on an array of plain objects. *)
Definition stringify (rows : list JsObject.t) : string :=
  let gap := "  " in
  layout "[" "]" "" gap (map (stringify_object gap gap) rows).

(** *** [JSON.parse] on arrays of flat objects.

    The parser reads the JSON grammar for white space, strings, integer
    literals, [null], objects of such members and a top-level array of
    such objects; [None] is a [SyntaxError] or a text outside this
    fragment. *)

Definition is_ws (c : ascii) : bool :=
  Ascii.eqb c " " || Ascii.eqb c "009" || Ascii.eqb c "010" || Ascii.eqb c "013".

Fixpoint skip_ws (s : string) : string :=
  match s with
  | EmptyString => EmptyString
  | String c s' => if is_ws c then skip_ws s' else s
  end.

Definition hex_value (c : ascii) : option nat :=
  let n := nat_of_ascii c in
  if ((48 <=? n) && (n <=? 57))%nat then Some (n - 48)
  else if ((97 <=? n) && (n <=? 102))%nat then Some (n - 87)
  else if ((65 <=? n) && (n <=? 70))%nat then Some (n - 55)
  else None.

(** The character of a four-digit escape, when it is an ASCII one. *)
Definition unicode_escape (h1 h2 h3 h4 : ascii) : option ascii :=
  match hex_value h1, hex_value h2, hex_value h3, hex_value h4 with
  | Some a, Some b, Some c, Some d =>
      if ((a =? 0) && (b =? 0) && (c <? 8))%nat
      then Some (ascii_of_nat (16 * c + d))
      else None
  | _, _, _, _ => None
  end.

Definition simple_escape (e : ascii) : option ascii :=
  if Ascii.eqb e dquote then Some dquote
  else if Ascii.eqb e bslash then Some bslash
  else if Ascii.eqb e "/" then Some "/"%char
  else if Ascii.eqb e "b" then Some "008"%char
  else if Ascii.eqb e "f" then Some "012"%char
  else if Ascii.eqb e "n" then Some "010"%char
  else if Ascii.eqb e "r" then Some "013"%char
  else if Ascii.eqb e "t" then Some "009"%char
  else None.

Definition cons_char (c : ascii) (r : option (string * string))
  : option (string * string) :=
  match r with
  | Some (s, rest) => Some (String c s, rest)
  | None => None
  end.

(** The characters of a string literal after its opening quote, and the
    text after its closing quote. *)
Fixpoint parse_chars (s : string) : option (string * string) :=
  match s with
  | EmptyString => None
  | String c s' =>
      if Ascii.eqb c dquote then Some (EmptyString, s')
      else if Ascii.eqb c bslash then
        match s' with
        | EmptyString => None
        | String e s'' =>
            if Ascii.eqb e "u" then
              match s'' with
              | String h1 (String h2 (String h3 (String h4 r))) =>
                  match unicode_escape h1 h2 h3 h4 with
                  | Some d => cons_char d (parse_chars r)
                  | None => None
                  end
              | _ => None
              end
            else
              match simple_escape e with
              | Some d => cons_char d (parse_chars s'')
              | None => None
              end
        end
      else if (nat_of_ascii c <? 32)%nat then None
      else cons_char c (parse_chars s')
  end.

Definition parse_string (s : string) : option (string * string) :=
  match s with
  | String c s' => if Ascii.eqb c dquote then parse_chars s' else None
  | EmptyString => None
  end.

Definition is_digit (c : ascii) : bool :=
  let n := nat_of_ascii c in ((48 <=? n) && (n <=? 57))%nat.

(** The longest prefix of digits, and the rest. *)
Fixpoint span_digits (s : string) : string * string :=
  match s with
  | EmptyString => (EmptyString, EmptyString)
  | String c s' =>
      if is_digit c then
        let (ds, rest) := span_digits s' in (String c ds, rest)
      else (EmptyString, s)
  end.

(** An unsigned integer literal: the digit 0, or digits that do not start
    with 0; a fraction or an exponent after it is outside the fragment. *)
Definition leading_zero (ds : string) : bool :=
  startsWith ds "0" && (1 <? String.length ds)%nat.

Definition starts_fraction (rest : string) : bool :=
  startsWith rest "." || startsWith rest "e" || startsWith rest "E".

Definition parse_nat_literal (s : string) : option (N * string) :=
  let (ds, rest) := span_digits s in
  if leading_zero ds || starts_fraction rest then None
  else
    match NilZero.uint_of_string ds with
    | Some d => Some (N.of_uint d, rest)
    | None => None
    end.

Definition parse_number (s : string) : option (value * string) :=
  match s with
  | EmptyString => None
  | String c s' =>
      if Ascii.eqb c "-" then
        match parse_nat_literal s' with
        | Some (n, rest) => Some (VNumber (- Z.of_N n), rest)
        | None => None
        end
      else
        match parse_nat_literal s with
        | Some (n, rest) => Some (VNumber (Z.of_N n), rest)
        | None => None
        end
  end.

(** [s.slice(n)] *)
Fixpoint drop (n : nat) (s : string) : string :=
  match n, s with
  | O, _ => s
  | S n', String _ s' => drop n' s'
  | S _, EmptyString => EmptyString
  end.

Definition parse_value (s : string) : option (value * string) :=
  if startsWith s "null" then Some (VNull, drop 4 s)
  else if startsWith s (String dquote "") then
    match parse_string s with
    | Some (str, rest) => Some (VString str, rest)
    | None => None
    end
  else parse_number s.

(** One [key : value] member, white space around its parts skipped. *)
Definition parse_member (s : string) : option ((string * value) * string) :=
  match parse_string (skip_ws s) with
  | Some (k, s1) =>
      match skip_ws s1 with
      | String ":" s2 =>
          match parse_value (skip_ws s2) with
          | Some (v, s3) => Some ((k, v), skip_ws s3)
          | None => None
          end
      | _ => None
      end
  | None => None
  end.

(** The members of an object after its first one is due, up to and
    including the closing brace.  Each member is created on the object
    as a data property, in order of appearance. *)
Fixpoint parse_members (fuel : nat) (s : string) (acc : JsObject.t)
  : option (JsObject.t * string) :=
  match fuel with
  | O => None
  | S fuel' =>
      match parse_member s with
      | Some ((k, v), s1) =>
          let acc' := JsObject.define k v acc in
          match s1 with
          | String "," s2 => parse_members fuel' s2 acc'
          | String "}" s2 => Some (acc', s2)
          | _ => None
          end
      | None => None
      end
  end.

Definition parse_object (s : string) : option (JsObject.t * string) :=
  match s with
  | String "{" s1 =>
      match skip_ws s1 with
      | String "}" s2 => Some (JsObject.empty, s2)
      | s2 => parse_members (String.length s2) s2 JsObject.empty
      end
  | _ => None
  end.

(** The elements of the array after its first one is due, up to and
    including the closing bracket. *)
Fixpoint parse_elements (fuel : nat) (s : string)
  : option (list JsObject.t * string) :=
  match fuel with
  | O => None
  | S fuel' =>
      match parse_object (skip_ws s) with
      | Some (o, s1) =>
          match skip_ws s1 with
          | String "," s2 =>
              match parse_elements fuel' s2 with
              | Some (os, rest) => Some (o :: os, rest)
              | None => None
              end
          | String "]" s2 => Some ([o], s2)
          | _ => None
          end
      | None => None
      end
  end.

(** [JSON.parse(text)] *)
Definition parse (text : string) : option (list JsObject.t) :=
  match skip_ws text with
  | String "[" s1 =>
      let result :=
        match skip_ws s1 with
        | String "]" s2 => Some ([], s2)
        | s2 => parse_elements (String.length s2) s2
        end in
      match result with
      | Some (os, rest) =>
          match skip_ws rest with
          | EmptyString => Some os
          | _ => None
          end
      | None => None
      end
  | _ => None
  end.

End JSON.

(** What a download hands to the browser: the [download] attribute of the
    link, the type of the blob and its text. *)
Record Download : Type := mkDownload {
  download_name : string;
  blob_type : string;
  blob_text : string
}.

Definition downloadAsJson (sheet : SheetRows) : Download :=
  let json := JSON.stringify (rows sheet) in
  mkDownload (name sheet ++ ".json") "application/json" json.

(* ===================================================================== *)
(** ** The spreadsheet library: [XLSX.utils.json_to_sheet], [sheet_to_csv] *)
(* ===================================================================== *)

(** The export side of the xlsx package, after its [sheet_add_json]
    (behind [json_to_sheet]), [sheet_to_csv] and [make_csv_row], for the
    default options the page calls them with. *)
Module XLSX.

(** Cell types the export creates: text, number, and the stub of a
    value that is neither. *)
Inductive cell_type : Type := T_s | T_n | T_z.

Record CellObject : Type := mkCell {
  cell_t : cell_type;
  cell_v : value
}.

(** A worksheet under construction: the cells by column and row, and the
    last column and row of its range, which starts at A1. *)
Record WorkSheet : Type := mkWorkSheet {
  cell_at : nat -> nat -> option CellObject;
  range_e_c : nat;
  range_e_r : nat
}.

Definition write_cell (C R : nat) (cell : CellObject)
    (cells : nat -> nat -> option CellObject) : nat -> nat -> option CellObject :=
  fun C' R' => if ((C' =? C) && (R' =? R))%nat then Some cell else cells C' R'.

(** [hdr.indexOf(k)]; [None] is -1. *)
Fixpoint indexOf (hdr : list string) (k : string) : option nat :=
  match hdr with
  | [] => None
  | h :: hdr' =>
      if String.eqb h k then Some 0
      else match indexOf hdr' k with
           | Some i => Some (S i)
           | None => None
           end
  end.

(** The cell made of a record value, by [typeof]. *)
Definition cell_of_value (v : value) : CellObject :=
  match v with
  | VNumber _ => mkCell T_n v
  | VString _ => mkCell T_s v
  | VUndefined | VNull => mkCell T_z v
  end.

(** One key of one record in [sheet_add_json]: the key takes the next
    free column unless a column already carries it, and the value is
    written to that column of row [R + 1]. *)
Definition add_key (R : nat) (JS : JsObject.t)
    (st : list string * (nat -> nat -> option CellObject)) (k : string)
  : list string * (nat -> nat -> option CellObject) :=
  let (hdr, cells) := st in
  let (C, hdr') :=
    match indexOf hdr k with
    | Some C => (C, hdr)
    | None => (length hdr, (hdr ++ [k])%list)
    end in
  (hdr', write_cell C (R + 1) (cell_of_value (JsObject.get k JS)) cells).

Definition add_record (st : list string * (nat -> nat -> option CellObject))
    (JS : JsObject.t) (R : nat)
  : list string * (nat -> nat -> option CellObject) :=
  fold_left (add_key R JS) (JsObject.keys JS) st.

(** The header row, written last: [hdr[C]] as text in row 0. *)
Definition write_headers (hdr : list string)
    (cells : nat -> nat -> option CellObject) : nat -> nat -> option CellObject :=
  forEachi (fun cells h C => write_cell C 0 (mkCell T_s (VString h)) cells)
           hdr cells.

(** [XLSX.utils.json_to_sheet(js)], with the default options (a header
    row, sparse cells, origin A1).  The range ends at column
    [Math.max(0, hdr.length - 1)] and at row [js.length - 1 + offset],
    where the offset of the header row is 1. *)
Definition json_to_sheet (js : list JsObject.t) : WorkSheet :=
  let (hdr, cells) := forEachi add_record js ([], fun _ _ => None) in
  mkWorkSheet (write_headers hdr cells)
              (Nat.max 0 (length hdr - 1))
              (length js).

(** [format_cell] on a cell without a number format: the text itself,
    the decimal digits of an integer. *)
Definition format_cell (cell : CellObject) : string :=
  match cell_t cell, cell_v cell with
  | T_z, _ => ""
  | _, VString s => s
  | _, VNumber n => of_Z n
  | _, _ => ""
  end.

Definition needs_quotes (c : ascii) : bool :=
  Ascii.eqb c "," || Ascii.eqb c "010" || Ascii.eqb c JSON.dquote.

Fixpoint any_char (p : ascii -> bool) (s : string) : bool :=
  match s with
  | EmptyString => false
  | String c s' => p c || any_char p s'
  end.

(** [txt.replace(qreg, ...)]: every quote character is doubled. *)
Fixpoint double_quotes (s : string) : string :=
  match s with
  | EmptyString => EmptyString
  | String c s' =>
      if Ascii.eqb c JSON.dquote
      then String JSON.dquote (String JSON.dquote (double_quotes s'))
      else String c (double_quotes s')
  end.

Definition quoted (txt : string) : string :=
  String JSON.dquote (double_quotes txt ++ String JSON.dquote "").

(** The text of a field in [make_csv_row]: quoted when it holds the
    field separator, the record separator or a quote; the bare text
    [ID] is quoted as well. *)
Definition csv_field (txt : string) : string :=
  let txt' := if any_char needs_quotes txt then quoted txt else txt in
  if String.eqb txt' "ID" then quoted "ID" else txt'.

Definition csv_text (cell : option CellObject) : string :=
  match cell with
  | None => ""
  | Some val =>
      match cell_v val with
      | VUndefined | VNull => ""
      | _ => csv_field (format_cell val)
      end
  end.

(** [make_csv_row]: the fields of row [R] over the columns of the range,
    joined by commas. *)
Definition make_csv_row (sheet : WorkSheet) (R : nat) : string :=
  join "," (map (fun C => csv_text (cell_at sheet C R))
                (seq 0 (range_e_c sheet + 1))).

(** [XLSX.utils.sheet_to_csv(sheet)], with the default options: every
    row of the range, joined by line feeds. *)
Definition sheet_to_csv (sheet : WorkSheet) : string :=
  join (String JSON.LF "")
       (map (make_csv_row sheet) (seq 0 (range_e_r sheet + 1))).

End XLSX.

Definition downloadAsCsv (sheet : SheetRows) : Download :=
  let worksheet := XLSX.json_to_sheet (rows sheet) in
  let csv := XLSX.sheet_to_csv worksheet in
  mkDownload (name sheet ++ ".csv") "text/csv" csv.

(** The two header buttons: [currentSheet && downloadAsJson(currentSheet)]
    and [currentSheet && downloadAsCsv(currentSheet)]. *)
Definition onClickJson (st : UIState) : option Download :=
  option_map downloadAsJson (currentSheet st).

Definition onClickCsv (st : UIState) : option Download :=
  option_map downloadAsCsv (currentSheet st).

(* ===================================================================== *)
(** ** Specification predicates *)
(* ===================================================================== *)

(** The text with its letters A to Z in lower case. *)
Fixpoint ascii_lower (s : string) : string :=
  match s with
  | EmptyString => EmptyString
  | String c r => String (lower_char c) (ascii_lower r)
  end.

(** A text of ASCII characters. *)
Fixpoint ascii_text (s : string) : Prop :=
  match s with
  | EmptyString => True
  | String c r => (byte_value c < 0x80)%N /\ ascii_text r
  end.

(** Bytes that belong to characters beyond ASCII. *)
Fixpoint high (s : string) : Prop :=
  match s with
  | EmptyString => True
  | String c r => (0x80 <= byte_value c)%N /\ high r
  end.

(** The characters of an ASCII text, and the text of a list of
    characters. *)
Fixpoint singles (s : string) : list string :=
  match s with
  | EmptyString => []
  | String c r => String c EmptyString :: singles r
  end.

Fixpoint unchars (l : list string) : string :=
  match l with
  | [] => EmptyString
  | ch :: l' => ch ++ unchars l'
  end.

(** What [chars] yields: an ASCII character, or bytes beyond ASCII. *)
Definition char_shape (ch : string) : Prop :=
  (exists c, ch = String c EmptyString /\ (byte_value c < 0x80)%N) \/
  (ch <> EmptyString /\ high ch).

(** A lower-case form of one character, in some context. *)
Definition lowered_char (ch o : string) : Prop :=
  o = lower_one ch \/ (ch = Sigma /\ (o = final_sigma \/ o = small_sigma)).

(** A lower-case form of a list of characters, each in some context. *)
Inductive lowering : list string -> string -> Prop :=
| lowering_nil : lowering [] EmptyString
| lowering_cons ch rest o out :
    lowered_char ch o -> lowering rest out ->
    lowering (ch :: rest) (o ++ out).

(** ASCII bytes other than the letter k, the one ASCII letter that a
    character beyond ASCII (the Kelvin sign) has as its lower case. *)
Fixpoint unmistakable (s : string) : Prop :=
  match s with
  | EmptyString => True
  | String c r => ((byte_value c < 0x80)%N /\ c <> "k"%char) /\ unmistakable r
  end.

(** The run maps beyond ASCII, or is the Kelvin sign. *)
Definition run_ok (run : N * N * N * N) : bool :=
  let '(first, last, step, target) := run in
  ((0x80 <=? target) || ((first =? last) && (target =? 0x6B)))%N.

(** The bytes of one character of a well-formed text: a byte that
    continues no character, then continuation bytes. *)
Fixpoint continues (s : string) : bool :=
  match s with
  | EmptyString => true
  | String c r => is_continuation c && continues r
  end.

Definition one_char (w : string) : bool :=
  match w with
  | EmptyString => false
  | String h t => negb (is_continuation h) && continues t
  end.

(** A text made of white-space characters. *)
Inductive blank (spaces : list string) : string -> Prop :=
| blank_nil : blank spaces EmptyString
| blank_cons w s : In w spaces -> blank spaces s -> blank spaces (w ++ s).

(** [core] is [text] without the white space at its two ends. *)
Definition trimmed (text core : string) : Prop :=
  (exists pre post,
     text = pre ++ core ++ post /\
     blank white_space pre /\ blank white_space post) /\
  (forall w rest, In w white_space -> core <> w ++ rest) /\
  (forall w rest, In w white_space -> core <> rest ++ w).

(** Some field of the record has a text in which the term occurs up to
    the case of the letters A to Z. *)
Definition field_matches (term : string) (row : JsObject.t) : Prop :=
  exists key value text,
    In (key, value) row /\ toString_opt value = Some text /\
    ci_substring term text.

(** Some field of the record has a text whose lower-case form holds the
    lower-case form of the term. *)
Definition lowered_match (term : string) (row : JsObject.t) : Prop :=
  exists key value text,
    In (key, value) row /\ toString_opt value = Some text /\
    exists pre post, toLowerCase text = pre ++ toLowerCase term ++ post.

(** The texts of the record are ASCII texts. *)
Definition ascii_fields (row : JsObject.t) : Prop :=
  forall key value text,
    In (key, value) row -> toString_opt value = Some text -> ascii_text text.

(** The order in which an object lists two of its keys: array indices by
    value, array indices before other keys, and two other keys distinct. *)
Definition key_before (a b : string) : Prop :=
  match JsObject.array_index a, JsObject.array_index b with
  | Some m, Some n => (m < n)%N
  | Some _, None => True
  | None, Some _ => False
  | None, None => a <> b
  end.

(** The keys of the object are pairwise distinct and listed in own-property
    order. *)
Definition own_property_order (o : JsObject.t) : Prop :=
  ForallOrdPairs key_before (JsObject.keys o).

(** [JsObject.insert_index], [JsObject.define] and [JsObject.set] on the
    keys alone. *)
Fixpoint key_insert_index (n : N) (k : string) (ks : list string) : list string :=
  match ks with
  | [] => [k]
  | k' :: ks' =>
      match JsObject.array_index k' with
      | Some m => if (m <? n)%N then k' :: key_insert_index n k ks' else k :: ks
      | None => k :: ks
      end
  end.

Definition key_define (k : string) (ks : list string) : list string :=
  if existsb (fun k' => String.eqb k' k) ks then ks
  else match JsObject.array_index k with
       | Some n => key_insert_index n k ks
       | None => (ks ++ [k])%list
       end.

Definition key_set (k : string) (ks : list string) : list string :=
  if String.eqb k "__proto__" then ks else key_define k ks.

(** The keys of every record of a sheet with these headers. *)
Definition record_keys (headers : list string) : list string :=
  fold_left (fun ks header => key_set header ks) headers [].

(** A header that names a column of its own in every record, at its place
    in the header order. *)
Definition plain_header (header : string) : Prop :=
  JsObject.array_index header = None /\ header <> "__proto__".

(** A character after which a printed member is complete: the comma
    before the next member, or the line feed before the closing brace. *)
Definition JSON_member_end (c : ascii) : Prop := c = ","%char \/ c = JSON.LF.

(** No field of the record is [undefined]. *)
Definition defined_values (o : JsObject.t) : Prop :=
  Forall (fun e => snd e <> VUndefined) o.

(** A record as normalization makes them: keys in own-property order and
    no [undefined] field. *)
Definition well_formed_record (o : JsObject.t) : Prop :=
  own_property_order o /\ defined_values o.

(** One step of rebuilding an object from its entries. *)
Definition member_step (acc : JsObject.t) (e : string * value) : JsObject.t :=
  JsObject.define (fst e) (snd e) acc.

(** The text a record value has in a table of texts. *)
Definition field_text (v : value) : string :=
  match v with
  | VString s => s
  | VNumber n => of_Z n
  | VUndefined | VNull => ""
  end.

(** Standard CSV quoting.  The characters that end a field or a line or
    open a quoted field are the comma, the line feed and the quote; a
    text that holds one of them is written between quotes, with each of
    its quotes written twice.  The bare text [ID] is written between
    quotes as well. *)
Definition csv_special (c : ascii) : bool :=
  existsb (Ascii.eqb c) [","%char; JSON.LF; JSON.dquote].

Definition csv_escaped (text : string) : string :=
  unchars
    (map (fun c => if Ascii.eqb c JSON.dquote
                   then String JSON.dquote (String JSON.dquote "")
                   else String c "")
         (list_ascii_of_string text)).

Definition csv_quoted (text : string) : string :=
  String JSON.dquote "" ++ csv_escaped text ++ String JSON.dquote "".

Definition csv_encode (text : string) : string :=
  if existsb csv_special (list_ascii_of_string text) || String.eqb text "ID"
  then csv_quoted text else text.

(** Reading a field back: the body of a quoted field up to its closing
    quote, and a field as a whole; [None] is a field that is not well
    formed. *)
Fixpoint csv_unescape (body : string) : option string :=
  match body with
  | EmptyString => None
  | String c r =>
      if Ascii.eqb c JSON.dquote then
        match r with
        | EmptyString => Some EmptyString
        | String d r' =>
            if Ascii.eqb d JSON.dquote
            then option_map (String JSON.dquote) (csv_unescape r')
            else None
        end
      else option_map (String c) (csv_unescape r)
  end.

Definition csv_decode (field : string) : option string :=
  match field with
  | EmptyString => Some EmptyString
  | String c r =>
      if Ascii.eqb c JSON.dquote then csv_unescape r
      else if existsb csv_special (list_ascii_of_string field) then None
      else Some field
  end.

(** A table of texts as CSV: the fields of a line joined by commas, the
    lines joined by line feeds. *)
Definition csv_table (table : list (list string)) : string :=
  join (String JSON.LF "")
       (map (fun line => join "," (map csv_encode line)) table).

(** The table of a sheet with at least one record: the columns, then
    the texts of each record. *)
Definition record_table (columns : list string) (records : list JsObject.t)
  : list (list string) :=
  columns :: map (fun record => map field_text (JsObject.values record)) records.

(** The text of a record value in a CSV field. *)
Definition csv_value (v : value) : string :=
  XLSX.csv_text (Some (XLSX.cell_of_value v)).

(** The header line and the line of a record. *)
Definition csv_header_line (columns : list string) : string :=
  join "," (map XLSX.csv_field columns).

Definition csv_record_line (record : JsObject.t) : string :=
  join "," (map csv_value (JsObject.values record)).

(** The cell writes of [sheet_add_json] for one record whose keys sit in
    the columns from [C] on, and for the records from row [R] on. *)
Fixpoint write_keys (R : nat) (JS : JsObject.t) (C : nat) (ks : list string)
    (cells : nat -> nat -> option XLSX.CellObject)
  : nat -> nat -> option XLSX.CellObject :=
  match ks with
  | [] => cells
  | k :: ks' =>
      write_keys R JS (S C) ks'
        (XLSX.write_cell C (R + 1) (XLSX.cell_of_value (JsObject.get k JS)) cells)
  end.

Fixpoint write_rows (R : nat) (cols : list string) (rows : list JsObject.t)
    (cells : nat -> nat -> option XLSX.CellObject)
  : nat -> nat -> option XLSX.CellObject :=
  match rows with
  | [] => cells
  | JS :: rows' => write_rows (S R) cols rows' (write_keys R JS 0 cols cells)
  end.

(** The cell of the finished sheet at column [C] and row [R]: a header in
    row 0, the value of that column's key below. *)
Definition sheet_cell (cols : list string) (rows : list JsObject.t)
    (C R : nat) : option XLSX.CellObject :=
  match R with
  | O => option_map (fun h => XLSX.mkCell XLSX.T_s (VString h)) (nth_error cols C)
  | S R' =>
      match nth_error rows R' with
      | Some JS =>
          option_map (fun k => XLSX.cell_of_value (JsObject.get k JS))
                     (nth_error cols C)
      | None => None
      end
  end.

(* ===================================================================== *)
(** ** Sample inputs *)
(* ===================================================================== *)

(** Collaborators that answer every call the same way. *)
Definition const_env (read : option ArrayBuffer) (parsed : thrown + WorkBook)
  : Collaborators :=
  mkCollaborators (fun _ => read) (fun _ => parsed).

(** A workbook given by its sheets in order. *)
Definition workbook_of (sheets : list (string * RawRows)) : WorkBook :=
  mkWorkBook (map fst sheets)
    (fun name =>
       match find (fun e => String.eqb (fst e) name) sheets with
       | Some e => Some (snd e)
       | None => None
       end).

Definition cities_workbook : WorkBook :=
  workbook_of
    [("Cities", [[VString "Name"; VString ""; VString "Age"];
                 [VString "Asha"; VString "Delhi"; VNumber 31];
                 [VString "Ravi"; VString "Pune"]]);
     ("Empty", [])].

Definition cities_env : Collaborators :=
  const_env (Some []) (inr cities_workbook).

Definition report_pdf : File := mkFile "report.pdf" 2048.
Definition data_xlsx : File := mkFile "Data.XLSX" 4096.

(** The state after [Data.XLSX] has been loaded into the fresh page. *)
Definition loaded_state : UIState :=
  fst (handleFile cities_env (Some [data_xlsx]) initialState).

(** A sheet of four names and the page showing it with a search term. *)
Definition places_sheet : SheetRows :=
  buildSheet "Places"
    [[VString "Name"]; [VString "Delhi"]; [VString "Pune"];
     [VString "CAFÉ"]; [VString "ΑΣ"]].

Definition places_state (term : string) : UIState :=
  mkUIState [places_sheet] 0 None None term.

(** A workbook with one sheet of 500 data rows. *)
Definition big_workbook : WorkBook :=
  workbook_of
    [("Big", [VString "Id"; VString "City"]
               :: map (fun i => [VNumber (Z.of_nat i); VString "Delhi"])
                      (seq 1 500))].

Definition big_state : UIState :=
  fst (handleFile (const_env (Some []) (inr big_workbook))
                  (Some [data_xlsx]) initialState).

(* ===================================================================== *)
(** ** The page as a whole: event handlers and what is rendered *)
(* ===================================================================== *)

(** The events the page listens to.  An upload carries the answers its
    collaborators give to that upload. *)
Inductive Event : Type :=
| InputChange (env : Collaborators) (files : option (list File))
| Drop (env : Collaborators) (files : list File)
| DragOver
| ClickSheet (index : nat)
| SearchInput (term : string)
| ClickJson
| ClickCsv.

(** The state after a handler has run: [onInputChange] and [handleDrop]
    hand their files to [handleFile]; the buttons of the sheet list call
    [setActiveSheetIndex]; the filter box calls [setSearchTerm]; the
    download buttons and [handleDragOver] set no state. *)
Definition handle (ev : Event) (st : UIState) : UIState :=
  match ev with
  | InputChange env files => fst (handleFile env files st)
  | Drop env files => fst (handleFile env (Some files) st)
  | DragOver => st
  | ClickSheet index => setActiveSheetIndex index st
  | SearchInput term => setSearchTerm term st
  | ClickJson | ClickCsv => st
  end.

(** What a click on a download button hands to the browser. *)
Definition download (ev : Event) (st : UIState) : option Download :=
  match ev with
  | ClickJson => onClickJson st
  | ClickCsv => onClickCsv st
  | _ => None
  end.

(** [selectedSheets.length > 0 && ...]: the section with the sheet list,
    the filter box and the preview table. *)
Definition sheetSectionShown (st : UIState) : bool :=
  (0 <? length (selectedSheets st))%nat.

(** [disabled={!currentSheet}], on both download buttons. *)
Definition downloadDisabled (st : UIState) : bool :=
  match currentSheet st with
  | Some _ => false
  | None => true
  end.

(** The elements an event can come from: the upload box is always there;
    a sheet button exists for every index of [selectedSheets]; the filter
    box is part of the sheet section; a disabled button does not click. *)
Definition available (ev : Event) (st : UIState) : bool :=
  match ev with
  | InputChange _ _ | Drop _ _ | DragOver => true
  | ClickSheet index => (index <? length (selectedSheets st))%nat
  | SearchInput _ => sheetSectionShown st
  | ClickJson | ClickCsv => negb (downloadDisabled st)
  end.

(** The states the page can be in: the initial one, and those an available
    event leads to. *)
Inductive reachable : UIState -> Prop :=
| reachable_initial : reachable initialState
| reachable_handle (st : UIState) (ev : Event) :
    reachable st -> available ev st = true -> reachable (handle ev st).

(** [fileMeta && ...]: the badges with the file name and size. *)
Definition fileBadgeShown (st : UIState) : bool :=
  match fileMeta st with
  | Some _ => true
  | None => false
  end.

(** The badge with the number of sheets, inside the file badges. *)
Definition sheetCountBadge (st : UIState) : option nat :=
  match fileMeta st with
  | Some _ =>
      if (0 <? length (selectedSheets st))%nat
      then Some (length (selectedSheets st)) else None
  | None => None
  end.

(** [selectedSheets.length === 0 && !error && ...]: the quick tips. *)
Definition tipsShown (st : UIState) : bool :=
  (length (selectedSheets st) =? 0)%nat &&
  match error st with
  | Some _ => false
  | None => true
  end.

(** One button of the sheet list: the name, the two counts, and whether it
    is drawn as the active one ([index === activeSheetIndex]). *)
Record SheetButton : Type := mkSheetButton {
  button_name : string;
  button_rowCount : nat;
  button_columnCount : nat;
  button_active : bool
}.

Definition sheetButtons (st : UIState) : list SheetButton :=
  mapi (fun sheet index =>
          mkSheetButton (name sheet) (rowCount sheet) (columnCount sheet)
                        (index =? activeSheetIndex st)%nat)
       (selectedSheets st).


(** The names [Object.prototype] defines besides [__proto__]; a plain
    object answers a lookup of one of them with a built-in function. *)
Definition Object_prototype_methods : list string :=
  ["constructor"; "__defineGetter__"; "__defineSetter__"; "hasOwnProperty";
   "__lookupGetter__"; "__lookupSetter__"; "isPrototypeOf";
   "propertyIsEnumerable"; "toString"; "valueOf"; "toLocaleString"].

(** The content of a table cell: a text, or the source text of a built-in
    function, which the engine chooses. *)
Inductive CellView : Type :=
| CellText (text : string)
| CellBuiltin (method : string).

(** [v.toString()] on a value that is not nullish. *)
Definition toString (v : value) : string :=
  match toString_opt v with
  | Some s => s
  | None => ""
  end.

(** [(row[header] ?? "").toString()]: an own property first, then what
    the prototype of a plain object answers. *)
Definition renderCell (row : JsObject.t) (header : string) : CellView :=
  if JsObject.has header row then
    CellText (toString (nullish (JsObject.get header row) (VString "")))
  else if String.eqb header "__proto__" then CellText "[object Object]"
  else if existsb (String.eqb header) Object_prototype_methods
       then CellBuiltin header
  else CellText "".






(** A sheet that normalization made. *)
Definition normalized (sheet : SheetRows) : Prop :=
  exists name rawRows, sheet = buildSheet name rawRows.

(** The relation the page keeps between the pieces of its state. *)
Definition coherent (st : UIState) : Prop :=
  (fileMeta st <> None <-> selectedSheets st <> []) /\
  (selectedSheets st <> [] ->
   activeSheetIndex st < length (selectedSheets st)) /\
  Forall normalized (selectedSheets st) /\
  (error st <> None -> selectedSheets st <> [] ->
   error st = Some InvalidFileType).

(* ===================================================================== *)
(** * Properties *)
(* ===================================================================== *)

(** ** Sanity checks of the embedding on concrete inputs *)

Example toLowerCase_Delhi : toLowerCase "Delhi" = "delhi".
Proof. reflexivity. Qed.

Example toLowerCase_beyond_ascii :
  toLowerCase "CAFÉ ΑΣ Σ ΣΑΣ ΑΣ.Α İ K ǅ" = "café ας σ σας ασ.α i̇ k ǆ".
Proof. reflexivity. Qed.

Example chars_example : chars "aé€😀" = ["a"; "é"; "€"; "😀"].
Proof. reflexivity. Qed.

Example trim_example : trim "  a b
 " = "a b".
Proof. reflexivity. Qed.

Example trim_beyond_ascii :
  trim (utf8s [0xA0; 0xFEFF]%N ++ "a b" ++ utf8s [0x2028; 0x3000]%N) = "a b" /\
  trim (utf8s [0x200B]%N ++ "a") = utf8s [0x200B]%N ++ "a".
Proof. split; reflexivity. Qed.

Example of_nat_12 : of_nat 12 = "12" /\ of_Z (-305) = "-305".
Proof. split; reflexivity. Qed.

Example buildSheet_example :
  buildSheet "S" [[VString "Name"; VString ""; VString "2024"; VString "Name"];
                  [VString "a"; VNumber 7; VString "x"; VString "b"];
                  [VString "c"]]
  = mkSheetRows "S" ["Name"; "Column 2"; "2024"; "Name"]
      [[("2024", VString "x"); ("Name", VString "b"); ("Column 2", VNumber 7)];
       [("2024", VString ""); ("Name", VString ""); ("Column 2", VString "")]]
      2 4.
Proof. reflexivity. Qed.

Example stringify_example :
  JSON.parse (JSON.stringify
    [[("a", VString "x, y"); ("b", VNumber (-12)); ("c", VNull)]; []])
  = Some [[("a", VString "x, y"); ("b", VNumber (-12)); ("c", VNull)]; []]
  /\ JSON.stringify [[]; []] =
"[
  {},
  {}
]".
Proof. split; reflexivity. Qed.

Example csv_example :
  blob_text (downloadAsCsv (buildSheet "S"
    [[VString "Name"; VString "City"];
     [VString "Asha"; VString "Delhi, IN"];
     [VString "Ravi"]]))
  = "Name,City
Asha," ++ XLSX.quoted "Delhi, IN" ++ "
Ravi,".
Proof. reflexivity. Qed.

(* ===================================================================== *)
(** ** String methods *)
(* ===================================================================== *)

Section StringFacts.

Lemma append_nil_r (s : string) : s ++ "" = s.
Proof. induction s; simpl; congruence. Qed.

Lemma append_assoc (a b c : string) : (a ++ b) ++ c = a ++ (b ++ c).
Proof. induction a; simpl; congruence. Qed.

Lemma length_append (a b : string) :
  String.length (a ++ b) = String.length a + String.length b.
Proof. induction a; simpl; congruence. Qed.

(** Two ways of cutting one text: one of the cuts comes first. *)
Lemma append_eq_append (a b c d : string) :
  a ++ b = c ++ d ->
  exists k, (c = a ++ k /\ b = k ++ d) \/ (a = c ++ k /\ d = k ++ b).
Proof.
  revert c; induction a as [|x a IH]; intros c H; simpl in H.
  - exists c. now left.
  - destruct c as [|y c]; simpl in H.
    + exists (String x a). right. now split.
    + injection H as -> H. destruct (IH _ H) as [k [[-> ->] | [-> ->]]];
        exists k; [left | right]; now split.
Qed.

Lemma startsWith_iff (s p : string) :
  startsWith s p = true <-> exists q, s = p ++ q.
Proof.
  revert s; induction p as [|a p IH]; intros s; simpl.
  - split; [intros _; now exists s | reflexivity].
  - destruct s as [|b s].
    + split; [discriminate | intros [q H]; discriminate].
    + rewrite andb_true_iff, Ascii.eqb_eq, IH. split.
      * intros [-> [q ->]]. now exists q.
      * intros [q H]. injection H as -> ->. split; [reflexivity | now exists q].
Qed.

Lemma includes_iff (s t : string) :
  includes s t = true <-> exists p q, s = p ++ t ++ q.
Proof.
  induction s as [|c s IH]; cbn [includes].
  - rewrite orb_false_r, startsWith_iff. split.
    + intros [q H]. now exists "", q.
    + intros [p [q H]]. destruct p; [now exists q | discriminate].
  - rewrite orb_true_iff, IH, startsWith_iff. split.
    + intros [[q H] | [p [q H]]].
      * now exists "", q.
      * exists (String c p), q. simpl. now rewrite H.
    + intros [p [q H]]. destruct p as [|d p]; simpl in H.
      * left. now exists q.
      * right. injection H as -> ->. now exists p, q.
Qed.

Lemma endsWith_iff (s suffix : string) :
  endsWith s suffix = true <-> exists p, s = p ++ suffix.
Proof.
  induction s as [|c s IH]; cbn [endsWith].
  - rewrite orb_false_r, String.eqb_eq. split.
    + intros <-. now exists "".
    + intros [p H]. destruct p; [assumption | discriminate].
  - rewrite orb_true_iff, IH, String.eqb_eq. split.
    + intros [<- | [p ->]]; [now exists "" | now exists (String c p)].
    + intros [p H]. destruct p as [|d p]; simpl in H.
      * now left.
      * right. injection H as -> ->. now exists p.
Qed.

(** *** The letters A to Z *)

Lemma ascii_lower_append (a b : string) :
  ascii_lower (a ++ b) = ascii_lower a ++ ascii_lower b.
Proof. induction a; simpl; congruence. Qed.

Lemma ci_eq_iff (a b : string) :
  ci_eq a b <-> ascii_lower a = ascii_lower b.
Proof.
  split.
  - induction 1; simpl; congruence.
  - revert b; induction a as [|c a IH]; intros [|d b] H; simpl in H;
      try discriminate.
    + constructor.
    + injection H as Hc Hs. constructor; auto.
Qed.

(** A split of the lowered text comes from a split of the text. *)
Lemma ascii_lower_split (s x y : string) :
  ascii_lower s = x ++ y ->
  exists a b, s = a ++ b /\ ascii_lower a = x /\ ascii_lower b = y.
Proof.
  revert s; induction x as [|c x IH]; intros s H; simpl in H.
  - now exists "", s.
  - destruct s as [|d s]; simpl in H; [discriminate|].
    injection H as Hc Hs. destruct (IH _ Hs) as [a [b [-> [Ha Hb]]]].
    exists (String d a), b. simpl. now rewrite Hc, Ha.
Qed.

Lemma includes_ascii_lower_iff (s t : string) :
  includes (ascii_lower s) (ascii_lower t) = true <-> ci_substring t s.
Proof.
  rewrite includes_iff. unfold ci_substring. split.
  - intros [p [q H]].
    destruct (ascii_lower_split _ _ _ H) as [a [b [-> [Ha Hb]]]].
    destruct (ascii_lower_split _ _ _ Hb) as [m [c [-> [Hm Hc]]]].
    exists a, m, c. split; [reflexivity | now apply ci_eq_iff].
  - intros [pre [mid [post [-> H]]]]. apply ci_eq_iff in H.
    exists (ascii_lower pre), (ascii_lower post).
    now rewrite !ascii_lower_append, H.
Qed.

Lemma ascii_text_append (a b : string) :
  ascii_text (a ++ b) <-> ascii_text a /\ ascii_text b.
Proof. induction a; simpl; tauto. Qed.

Lemma unmistakable_append (a b : string) :
  unmistakable (a ++ b) <-> unmistakable a /\ unmistakable b.
Proof. induction a; simpl; tauto. Qed.

Lemma high_append (a b : string) : high (a ++ b) <-> high a /\ high b.
Proof. induction a; simpl; tauto. Qed.

(** A text that is not empty has a last byte_value. *)
Lemma string_last (s : string) :
  s <> "" -> exists body z, s = body ++ String z "".
Proof.
  induction s as [|c s IH]; intros H; [now destruct H|].
  destruct s as [|d s].
  - now exists "", c.
  - destruct IH as [body [z E]]; [discriminate|].
    exists (String c body), z. simpl. now rewrite E.
Qed.

Lemma append_last_inj (a b : string) (x y : ascii) :
  a ++ String x "" = b ++ String y "" -> a = b /\ x = y.
Proof.
  revert b; induction a as [|c a IH]; intros [|d b] H; simpl in H.
  - injection H as ->. now split.
  - injection H as -> H. destruct b; discriminate.
  - injection H as -> H. destruct a; discriminate.
  - injection H as -> H. destruct (IH _ H) as [-> ->]. now split.
Qed.

(** *** Characters *)

Lemma continuation_spec (k : nat) :
  forall s t r, continuation k s = Some (t, r) -> s = t ++ r /\ high t.
Proof.
  induction k as [|k IH]; intros s t r H; simpl in H.
  - injection H as <- <-. now split.
  - destruct s as [|b s]; [discriminate|].
    destruct (is_continuation b) eqn:Hb; [|discriminate].
    destruct (continuation k s) as [[t' r']|] eqn:E; [|discriminate].
    injection H as <- <-. destruct (IH _ _ _ E) as [-> Ht].
    split; [reflexivity|]. split; [|assumption].
    unfold is_continuation in Hb. apply andb_true_iff in Hb.
    destruct Hb as [Hb _]. now apply N.leb_le in Hb.
Qed.

Lemma trail_ascii (c : ascii) : (byte_value c < 0x80)%N -> trail c = 0.
Proof.
  intros H. unfold trail.
  destruct (N.ltb_spec (byte_value c) 0xC0); [reflexivity | lia].
Qed.

Lemma ascii_not_continuation (c : ascii) :
  (byte_value c < 0x80)%N -> is_continuation c = false.
Proof.
  intros H. unfold is_continuation.
  destruct (N.leb_spec 0x80 (byte_value c)); [lia | reflexivity].
Qed.

(** The fuel [chars] starts with is enough. *)
Lemma chars_from_fuel (n : nat) :
  forall m s, String.length s <= n -> String.length s <= m ->
              chars_from n s = chars_from m s.
Proof.
  induction n as [|n IH]; intros m s Hn Hm.
  - destruct s; [|simpl in Hn; lia]. now destruct m.
  - destruct s as [|a r]; [now destruct m|].
    destruct m as [|m]; [simpl in Hm; lia|].
    simpl in Hn, Hm. cbn [chars_from].
    destruct (continuation (trail a) r) as [[t r']|] eqn:E.
    + destruct (continuation_spec _ _ E) as [-> _].
      rewrite length_append in Hn, Hm. f_equal. apply IH; lia.
    + f_equal. apply IH; lia.
Qed.

Lemma chars_cons (a : ascii) (r : string) :
  chars (String a r)
  = match continuation (trail a) r with
    | Some (t, r') => String a t :: chars r'
    | None => String a "" :: chars r
    end.
Proof.
  unfold chars. cbn [String.length chars_from].
  destruct (continuation (trail a) r) as [[t r']|] eqn:E.
  - destruct (continuation_spec _ _ E) as [-> _]. f_equal.
    apply chars_from_fuel; rewrite ?length_append; lia.
  - reflexivity.
Qed.

Lemma chars_from_shape (n : nat) :
  forall s, Forall char_shape (chars_from n s).
Proof.
  induction n as [|n IH]; intros s; [constructor|].
  destruct s as [|a r]; [constructor|]. cbn [chars_from].
  assert (Ha : forall t, high t ->
                 (trail a = 0 -> t = "") -> char_shape (String a t)).
  { intros t Ht H0. destruct (N.ltb_spec (byte_value a) 0x80) as [Hlt|Hge].
    - left. exists a. rewrite (H0 (trail_ascii _ Hlt)). now split.
    - right. split; [discriminate|]. now split. }
  destruct (continuation (trail a) r) as [[t r']|] eqn:E.
  - constructor; [|apply IH].
    destruct (continuation_spec _ _ E) as [_ Ht]. apply Ha; [assumption|].
    intros H0. rewrite H0 in E. simpl in E. now injection E as <- _.
  - constructor; [|apply IH]. apply Ha; [exact I | reflexivity].
Qed.

Lemma chars_shape (s : string) : Forall char_shape (chars s).
Proof. apply chars_from_shape. Qed.

(** The characters of a text make up the text. *)
Lemma unchars_chars (s : string) : unchars (chars s) = s.
Proof.
  remember (String.length s) as n eqn:Hn.
  assert (Hle : String.length s <= n) by lia. clear Hn.
  revert s Hle; induction n as [|n IH]; intros s Hle.
  - destruct s; [reflexivity | simpl in Hle; lia].
  - destruct s as [|a r]; [reflexivity|]. rewrite chars_cons.
    simpl in Hle.
    destruct (continuation (trail a) r) as [[t r']|] eqn:E.
    + destruct (continuation_spec _ _ E) as [-> _].
      rewrite length_append in Hle. cbn [unchars].
      rewrite IH by lia. reflexivity.
    + cbn [unchars]. rewrite IH by lia. reflexivity.
Qed.

Lemma chars_ascii (a : string) : ascii_text a -> chars a = singles a.
Proof.
  induction a as [|c a IH]; intros H; [reflexivity|].
  destruct H as [Hc Ha]. rewrite chars_cons, (trail_ascii _ Hc).
  simpl. now rewrite IH.
Qed.

Lemma continuation_append (k : nat) :
  forall r a, ascii_text a ->
    continuation k (r ++ a)
    = match continuation k r with
      | Some (t, r') => Some (t, r' ++ a)
      | None => None
      end.
Proof.
  induction k as [|k IH]; intros r a Ha; [reflexivity|].
  destruct r as [|b r]; simpl.
  - destruct a as [|c a]; [reflexivity|]. destruct Ha as [Hc _].
    now rewrite (ascii_not_continuation _ Hc).
  - destruct (is_continuation b); [|reflexivity].
    rewrite (IH r a Ha).
    now destruct (continuation k r) as [[t r']|].
Qed.

(** ASCII text after a text adds its characters to those of the text. *)
Lemma chars_append_ascii (s a : string) :
  ascii_text a -> chars (s ++ a) = (chars s ++ singles a)%list.
Proof.
  intros Ha. remember (String.length s) as n eqn:Hn.
  assert (Hle : String.length s <= n) by lia. clear Hn.
  revert s Hle; induction n as [|n IH]; intros s Hle.
  - destruct s; [|simpl in Hle; lia]. now apply chars_ascii.
  - destruct s as [|x r]; [now apply chars_ascii|].
    simpl in Hle. cbn [append]. rewrite !chars_cons.
    rewrite (@continuation_append (trail x) r a Ha).
    destruct (continuation (trail x) r) as [[t r']|] eqn:E.
    + destruct (continuation_spec _ _ E) as [-> _].
      rewrite length_append in Hle.
      rewrite IH by lia. reflexivity.
    + rewrite IH by lia. reflexivity.
Qed.

(** *** Lower case *)

(** The bytes of a code point beyond ASCII end beyond ASCII. *)
Lemma utf8_last (m : N) :
  (0x80 <= m)%N ->
  exists body z, utf8 m = body ++ String z "" /\ (0x80 <= byte_value z)%N.
Proof.
  intros Hm. unfold utf8.
  assert (Hz : (0x80 <= byte_value (ascii_of_N (0x80 + m mod 0x40)))%N).
  { unfold byte_value.
    assert (Hlt : (m mod 0x40 < 0x40)%N) by (apply N.mod_lt; discriminate).
    revert Hlt. generalize (m mod 0x40)%N. intros x Hx.
    rewrite N_ascii_embedding; lia. }
  destruct (N.ltb_spec m 0x80); [lia|].
  destruct (m <? 0x800)%N; [|destruct (m <? 0x10000)%N].
  - eexists (String _ ""), _. split; [reflexivity | exact Hz].
  - eexists (String _ (String _ "")), _. split; [reflexivity | exact Hz].
  - eexists (String _ (String _ (String _ ""))), _.
    split; [reflexivity | exact Hz].
Qed.

Lemma lowercase_run_ok (runs : list (N * N * N * N)) (n m : N) :
  forallb run_ok runs = true ->
  lowercase_run runs n = Some m -> (0x80 <= m)%N \/ m = 0x6B%N.
Proof.
  induction runs as [|[[[first last] step] target] runs IH]; simpl;
    [discriminate|].
  rewrite andb_true_iff. intros [Hok Hrest].
  destruct ((first <=? n)%N && (n <=? last)%N
            && ((n - first) mod step =? 0)%N) eqn:E; [|now apply IH].
  intros H. injection H as <-.
  apply andb_true_iff in E. destruct E as [E _].
  apply andb_true_iff in E. destruct E as [E1 E2].
  apply N.leb_le in E1, E2.
  apply orb_true_iff in Hok. destruct Hok as [Hok | Hok].
  - apply N.leb_le in Hok. left. lia.
  - apply andb_true_iff in Hok. destruct Hok as [Hf Ht].
    apply N.eqb_eq in Hf, Ht. right. lia.
Qed.

Lemma lowercase_runs_ok : forallb run_ok lowercase_runs = true.
Proof. vm_compute. reflexivity. Qed.

(** A lower-case form of a character beyond ASCII ends beyond ASCII or
    in the letter k. *)
Lemma lowered_high (ch o : string) :
  ch <> "" -> high ch -> lowered_char ch o ->
  exists body z, o = body ++ String z "" /\
                 ((0x80 <= byte_value z)%N \/ z = "k"%char).
Proof.
  intros Hne Hh [-> | [_ [-> | ->]]].
  - assert (Hself : exists body z,
              ch = body ++ String z "" /\
              ((0x80 <= byte_value z)%N \/ z = "k"%char)).
    { destruct (string_last Hne) as [body [z E]]. exists body, z.
      split; [assumption|]. left. rewrite E in Hh.
      apply high_append in Hh. now destruct Hh as [_ [Hz _]]. }
    unfold lower_one.
    destruct ch as [|a [|b r]]; [now destruct Hne | |].
    + destruct Hh as [Ha _]. exists "", (lower_char a). split; [reflexivity|].
      left. unfold lower_char, is_upper.
      assert (Hn : (128 <= nat_of_ascii a)%nat).
      { unfold byte_value in Ha. unfold nat_of_ascii. lia. }
      destruct (Nat.leb_spec (nat_of_ascii a) 90).
      * lia.
      * rewrite andb_false_r. exact Ha.
    + destruct (code_point (String a (String b r))) as [n|]; [|exact Hself].
      unfold lowercase.
      destruct (find (fun e => (fst e =? n)%N) lowercase_special)
        as [e|] eqn:Ef.
      * cbn [find lowercase_special fst] in Ef.
        match type of Ef with
        | (if ?b then _ else _) = _ => destruct b; [|discriminate]
        end.
        injection Ef as <-. cbn [snd utf8s].
        eexists (String _ (String _ "")), _. split; [reflexivity|].
        left. vm_compute. discriminate.
      * destruct (lowercase_run lowercase_runs n) as [m|] eqn:Er;
          [|exact Hself].
        cbn [utf8s]. rewrite append_nil_r.
        destruct (lowercase_run_ok _ _ lowercase_runs_ok Er) as [Hm | ->].
        -- destruct (utf8_last Hm) as [body [z [E Hz]]].
           exists body, z. split; [assumption | now left].
        -- exists "", "k"%char. split; [reflexivity | now right].
  - eexists (String _ ""), _. split; [reflexivity|].
    left. vm_compute. discriminate.
  - eexists (String _ ""), _. split; [reflexivity|].
    left. vm_compute. discriminate.
Qed.

Lemma lowered_ascii (c : ascii) (o : string) :
  lowered_char (String c "") o -> o = String (lower_char c) "".
Proof. intros [-> | [H _]]; [reflexivity | discriminate]. Qed.

Lemma lower_chars_lowering (l : list string) :
  forall after_cased, lowering l (lower_chars after_cased l).
Proof.
  induction l as [|ch l IH]; intros p; cbn [lower_chars]; [constructor|].
  constructor; [|apply IH]. unfold lowered_char.
  destruct (String.eqb_spec ch Sigma) as [->|_]; [|now left].
  right. split; [reflexivity|].
  destruct (p && negb (before_cased l)); [left | right]; reflexivity.
Qed.

Lemma lower_chars_append (l1 l2 : list string) :
  forall after_cased, exists out after_cased',
    lower_chars after_cased (l1 ++ l2)
    = out ++ lower_chars after_cased' l2.
Proof.
  induction l1 as [|ch l1 IH]; intros p.
  - now exists "", p.
  - cbn [app lower_chars].
    destruct (IH (if Case_Ignorable ch then p else Cased ch))
      as [out [p' E]].
    rewrite E. eexists (_ ++ out), p'. now rewrite append_assoc.
Qed.

Lemma lower_chars_singles (a : string) :
  forall after_cased, lower_chars after_cased (singles a) = ascii_lower a.
Proof.
  induction a as [|c a IH]; intros p; [reflexivity|].
  cbn [singles lower_chars ascii_lower]. rewrite IH.
  replace (String.eqb (String c "") Sigma) with false; [reflexivity|].
  symmetry. apply String.eqb_neq. discriminate.
Qed.

(** On ASCII text [toLowerCase] lowers the letters A to Z. *)
Lemma toLowerCase_ascii (a : string) :
  ascii_text a -> toLowerCase a = ascii_lower a.
Proof.
  intros H. unfold toLowerCase. rewrite (@chars_ascii a H).
  apply lower_chars_singles.
Qed.

(** ASCII text at the end of a text is lowered letter by letter. *)
Lemma toLowerCase_append_ascii (s a : string) :
  ascii_text a -> exists out, toLowerCase (s ++ a) = out ++ ascii_lower a.
Proof.
  intros H. unfold toLowerCase. rewrite (@chars_append_ascii s a H).
  destruct (lower_chars_append (chars s) (singles a) false) as [out [p E]].
  exists out. now rewrite E, lower_chars_singles.
Qed.

Lemma unmistakable_last (body : string) (z : ascii) :
  unmistakable (body ++ String z "") ->
  ((0x80 <= byte_value z)%N \/ z = "k"%char) -> False.
Proof.
  intros H Hz. apply unmistakable_append in H.
  destruct H as [_ [[Hlt Hk] _]]. destruct Hz as [Hz | Hz]; [lia | auto].
Qed.

(** A lower-case form made of ASCII bytes other than k comes from an
    ASCII text, letter by letter. *)
Lemma lowering_unmistakable (l : list string) (e : string) :
  lowering l e -> Forall char_shape l -> unmistakable e ->
  exists mid, l = singles mid /\ ascii_lower mid = e.
Proof.
  induction 1 as [|ch rest o out Hch Hl IH]; intros Hs He.
  - now exists "".
  - inversion Hs as [|? ? Hc Hrest]; subst.
    apply unmistakable_append in He. destruct He as [Ho Hout].
    destruct Hc as [[c [-> Hc]] | [Hne Hh]].
    + rewrite (@lowered_ascii _ _ Hch).
      destruct (IH Hrest Hout) as [mid [-> <-]].
      now exists (String c mid).
    + destruct (@lowered_high _ _ Hne Hh Hch) as [body [z [-> Hz]]].
      now destruct (@unmistakable_last body z Ho Hz).
Qed.

Lemma singles_unchars (a : string) : unchars (singles a) = a.
Proof. induction a; simpl; congruence. Qed.

Lemma unchars_app (l1 l2 : list string) :
  unchars (l1 ++ l2) = unchars l1 ++ unchars l2.
Proof.
  induction l1; simpl; [reflexivity|]. now rewrite IHl1, append_assoc.
Qed.

(** A lower-case form that ends in such bytes comes from a text that
    ends in them up to case. *)
Lemma lowering_suffix (l : list string) (out : string) :
  lowering l out -> Forall char_shape l ->
  forall pre e, out = pre ++ e -> unmistakable e ->
  exists l1 mid, l = (l1 ++ singles mid)%list /\ ascii_lower mid = e.
Proof.
  induction 1 as [|ch rest o out Hch Hl IH]; intros Hs pre e E He.
  - destruct pre; [|discriminate]. simpl in E. subst e. now exists [], "".
  - inversion Hs as [|? ? Hc Hrest]; subst.
    destruct (append_eq_append _ _ _ _ E) as [k [[-> Hk] | [Ho ->]]].
    + destruct (IH Hrest _ _ Hk He) as [l1 [mid [-> Hm]]].
      now exists (ch :: l1), mid.
    + destruct k as [|x k].
      * rewrite append_nil_r in Ho. subst o. simpl in He.
        destruct (IH Hrest "" out eq_refl He) as [l1 [mid [-> Hm]]].
        now exists (ch :: l1), mid.
      * apply unmistakable_append in He. destruct He as [Hk Hout].
        destruct (@lowering_unmistakable _ _ Hl Hrest Hout) as [mid [-> <-]].
        destruct Hc as [[c [-> Hc]] | [Hne Hh]].
        -- rewrite (@lowered_ascii _ _ Hch) in Ho.
           destruct pre as [|y pre].
           ++ simpl in Ho. injection Ho as <- <-.
              now exists [], (String c mid).
           ++ simpl in Ho. injection Ho as _ Ho. destruct pre; discriminate.
        -- destruct (@lowered_high _ _ Hne Hh Hch) as [body [z [Eo Hz]]].
           rewrite Eo in Ho.
           destruct (@string_last (String x k)) as [kb [kz Ek]];
             [discriminate|].
           rewrite Ek, <- append_assoc in Ho.
           apply append_last_inj in Ho. destruct Ho as [_ ->].
           rewrite Ek in Hk. now destruct (@unmistakable_last kb kz Hk Hz).
Qed.

(** [name.toLowerCase().endsWith(extension)], for an extension written
    in lower-case ASCII letters other than k, is the suffix test up to
    case. *)
Lemma endsWith_lower_iff (s ext : string) :
  ascii_lower ext = ext -> unmistakable ext -> ascii_text ext ->
  (endsWith (toLowerCase s) ext = true <-> ci_suffix ext s).
Proof.
  intros Hext Hu Ha. rewrite endsWith_iff. unfold ci_suffix. split.
  - intros [p H].
    destruct (lowering_suffix (lower_chars_lowering (chars s) false)
                (chars_shape s) _ _ H Hu) as [l1 [mid [El Hm]]].
    exists (unchars l1), mid. split.
    + rewrite <- (unchars_chars s), El, unchars_app, singles_unchars.
      reflexivity.
    + apply ci_eq_iff. congruence.
  - intros [pre [mid [-> H]]]. apply ci_eq_iff in H.
    assert (Hmid : ascii_text mid).
    { clear -H Ha. revert ext H Ha.
      induction mid as [|c mid IH]; intros [|d ext] H Ha; simpl in H;
        try discriminate; [exact I|].
      injection H as Hc H. destruct Ha as [Hd Ha].
      split; [|now apply (IH ext)].
      unfold lower_char in Hc. unfold byte_value in *.
      destruct (is_upper c) eqn:Uc.
      - unfold is_upper in Uc. apply andb_true_iff in Uc.
        destruct Uc as [_ Uc]. apply Nat.leb_le in Uc.
        unfold nat_of_ascii in Uc. lia.
      - destruct (is_upper d) eqn:Ud; [|now subst].
        unfold is_upper in Ud. apply andb_true_iff in Ud.
        destruct Ud as [_ Ud]. apply Nat.leb_le in Ud. subst c.
        unfold ascii_of_nat, nat_of_ascii in *.
        rewrite N_ascii_embedding by lia. lia. }
    destruct (@toLowerCase_append_ascii pre mid Hmid) as [out E].
    exists out. rewrite E. congruence.
Qed.

Lemma lowering_nonempty (l : list string) (out : string) :
  lowering l out -> Forall char_shape l -> out = "" -> l = [].
Proof.
  destruct 1 as [|ch rest o out Hch Hl]; intros Hs E; [reflexivity|].
  inversion Hs as [|? ? Hc _]; subst.
  destruct Hc as [[c [-> Hc]] | [Hne Hh]].
  - rewrite (@lowered_ascii _ _ Hch) in E. discriminate.
  - destruct (@lowered_high _ _ Hne Hh Hch) as [body [z [-> _]]].
    destruct body; discriminate.
Qed.

(** Only the empty text has an empty lower-case form. *)
Lemma toLowerCase_empty (s : string) : toLowerCase s = "" <-> s = "".
Proof.
  split; [|now intros ->].
  intros H. rewrite <- (unchars_chars s).
  now rewrite (lowering_nonempty (lower_chars_lowering (chars s) false)
                 (chars_shape s) H).
Qed.

End StringFacts.

(* ===================================================================== *)
(** ** White space *)
(* ===================================================================== *)

Section TrimFacts.

Lemma reverse_append (a b : string) :
  reverse (a ++ b) = reverse b ++ reverse a.
Proof.
  induction a as [|c a IH]; simpl.
  - now rewrite append_nil_r.
  - now rewrite IH, append_assoc.
Qed.

Lemma reverse_involutive (s : string) : reverse (reverse s) = s.
Proof.
  induction s as [|c s IH]; [reflexivity|]. simpl.
  now rewrite reverse_append, IH.
Qed.

Lemma is_space_In (spaces : list string) (w : string) :
  is_space spaces w = true <-> In w spaces.
Proof.
  unfold is_space. rewrite existsb_exists. split.
  - intros [x [Hin E]]. apply String.eqb_eq in E. now subst.
  - intros H. exists w. split; [assumption | apply String.eqb_refl].
Qed.

Lemma blank_app (spaces : list string) (a b : string) :
  blank spaces a -> blank spaces b -> blank spaces (a ++ b).
Proof.
  induction 1 as [|w s Hw Hs IH]; intros Hb; [assumption|].
  rewrite append_assoc. constructor; auto.
Qed.

Lemma blank_one (spaces : list string) (w : string) :
  In w spaces -> blank spaces w.
Proof.
  intros H. rewrite <- (append_nil_r w). constructor; [assumption|constructor].
Qed.

Lemma blank_reverse (spaces : list string) (p : string) :
  blank (map reverse spaces) p -> blank spaces (reverse p).
Proof.
  induction 1 as [|w s Hw Hs IH]; [constructor|].
  rewrite reverse_append. apply blank_app; [assumption|].
  apply in_map_iff in Hw. destruct Hw as [x [<- Hx]].
  rewrite reverse_involutive. now apply blank_one.
Qed.

(** What [strip] removes is made of spaces. *)
Lemma strip_blank (spaces : list string) (s : string) :
  exists p, s = p ++ strip spaces s /\ blank spaces p.
Proof.
  remember (String.length s) as n eqn:Hn.
  assert (Hle : String.length s <= n) by lia. clear Hn.
  revert s Hle; induction n as [|n IH]; intros s Hle.
  - destruct s; [|simpl in Hle; lia]. exists "". split; constructor.
  - destruct s as [|a r]; [exists ""; split; constructor|].
    simpl in Hle. cbn [strip].
    destruct (is_space spaces (String a "")) eqn:E1.
    { destruct (IH r) as [p [Hp Hb]]; [lia|].
      exists (String a "" ++ p). split.
      - simpl. now rewrite <- Hp.
      - constructor; [now apply is_space_In | assumption]. }
    destruct r as [|b r1]; [exists ""; split; constructor|].
    simpl in Hle.
    destruct (is_space spaces (String a (String b ""))) eqn:E2.
    { destruct (IH r1) as [p [Hp Hb]]; [lia|].
      exists (String a (String b "") ++ p). split.
      - simpl. now rewrite <- Hp.
      - constructor; [now apply is_space_In | assumption]. }
    destruct r1 as [|c r2]; [exists ""; split; constructor|].
    simpl in Hle.
    destruct (is_space spaces (String a (String b (String c "")))) eqn:E3.
    { destruct (IH r2) as [p [Hp Hb]]; [lia|].
      exists (String a (String b (String c "")) ++ p). split.
      - simpl. now rewrite <- Hp.
      - constructor; [now apply is_space_In | assumption]. }
    exists "". split; constructor.
Qed.

(** A space of one, two or three bytes. *)
Lemma short_cases (w : string) :
  1 <= String.length w <= 3 ->
  (exists a, w = String a "") \/
  (exists a b, w = String a (String b "")) \/
  (exists a b c, w = String a (String b (String c ""))).
Proof.
  destruct w as [|a [|b [|c [|d w]]]]; simpl; intros H; try lia; eauto 6.
Qed.

(** What [strip] leaves does not start with a space. *)
Lemma strip_no_prefix (spaces : list string) (s w rest : string) :
  In w spaces -> 1 <= String.length w <= 3 ->
  strip spaces s <> w ++ rest.
Proof.
  intros Hin Hlen. apply is_space_In in Hin.
  remember (String.length s) as n eqn:Hn.
  assert (Hle : String.length s <= n) by lia. clear Hn.
  revert s Hle; induction n as [|n IH]; intros s Hle.
  - destruct s; [|simpl in Hle; lia].
    destruct w; [simpl in Hlen; lia | discriminate].
  - destruct s as [|a r];
      [destruct w; [simpl in Hlen; lia | discriminate]|].
    simpl in Hle. cbn [strip].
    destruct (is_space spaces (String a "")) eqn:E1; [apply IH; lia|].
    destruct r as [|b r1].
    { destruct (@short_cases w Hlen) as [[x ->] | [[x [y ->]] | [x [y [z ->]]]]];
        simpl; intros H; injection H; intros; subst; congruence. }
    simpl in Hle.
    destruct (is_space spaces (String a (String b ""))) eqn:E2;
      [apply IH; lia|].
    destruct r1 as [|c r2].
    { destruct (@short_cases w Hlen) as [[x ->] | [[x [y ->]] | [x [y [z ->]]]]];
        simpl; intros H; injection H; intros; subst; congruence. }
    simpl in Hle.
    destruct (is_space spaces (String a (String b (String c "")))) eqn:E3;
      [apply IH; lia|].
    destruct (@short_cases w Hlen) as [[x ->] | [[x [y ->]] | [x [y [z ->]]]]];
      simpl; intros H; injection H; intros; subst; congruence.
Qed.

(** A text that starts with no space is left as it is. *)
Lemma strip_id (spaces : list string) (s : string) :
  (forall w rest, In w spaces -> s <> w ++ rest) -> strip spaces s = s.
Proof.
  intros H.
  assert (Hs : forall w rest, s = w ++ rest -> is_space spaces w = false).
  { intros w rest E. destruct (is_space spaces w) eqn:Ew; [|reflexivity].
    apply is_space_In in Ew. now destruct (H w rest Ew). }
  destruct s as [|a [|b [|c r]]]; cbn [strip]; [reflexivity | | |].
  - now rewrite (Hs (String a "") "" eq_refl).
  - rewrite (Hs (String a "") (String b "") eq_refl).
    now rewrite (Hs (String a (String b "")) "" eq_refl).
  - rewrite (Hs (String a "") (String b (String c r)) eq_refl).
    rewrite (Hs (String a (String b "")) (String c r) eq_refl).
    now rewrite (Hs (String a (String b (String c ""))) r eq_refl).
Qed.

Lemma white_space_short (w : string) :
  In w white_space -> 1 <= String.length w <= 3.
Proof.
  assert (H : forallb (fun w => ((1 <=? String.length w)
                                 && (String.length w <=? 3))%nat)
                      white_space = true)
    by reflexivity.
  rewrite forallb_forall in H. intros Hin. specialize (H w Hin).
  apply andb_true_iff in H. destruct H as [H1 H2].
  apply Nat.leb_le in H1, H2. lia.
Qed.

Lemma reverse_length (s : string) :
  String.length (reverse s) = String.length s.
Proof.
  induction s as [|c s IH]; [reflexivity|]. simpl.
  rewrite length_append, IH. simpl. lia.
Qed.

(** [trim] takes white space away from the two ends, and all of it. *)
Lemma trim_trimmed (text : string) : trimmed text (trim text).
Proof.
  unfold trim, trimEnd, trimStart.
  destruct (strip_blank white_space text) as [pre [Hpre Bpre]].
  set (m := strip white_space text) in *.
  destruct (strip_blank (map reverse white_space) (reverse m))
    as [q [Hq Bq]].
  set (k := strip (map reverse white_space) (reverse m)) in *.
  assert (Hm : m = reverse k ++ reverse q).
  { rewrite <- reverse_append, <- Hq. now rewrite reverse_involutive. }
  split; [|split].
  - exists pre, (reverse q). split; [|split].
    + now rewrite <- Hm.
    + assumption.
    + now apply blank_reverse.
  - intros w rest Hw E.
    apply (@strip_no_prefix white_space text w (rest ++ reverse q) Hw
             (@white_space_short w Hw)).
    fold m. now rewrite Hm, E, append_assoc.
  - intros w rest Hw E.
    apply (@strip_no_prefix (map reverse white_space) (reverse m)
             (reverse w) (reverse rest)).
    + now apply in_map.
    + rewrite reverse_length. now apply white_space_short.
    + fold k. rewrite <- reverse_append, <- E. now rewrite reverse_involutive.
Qed.

(** A text without white space at its ends is its own trimmed text. *)
Lemma trim_id (s : string) :
  (forall w rest, In w white_space -> s <> w ++ rest) ->
  (forall w rest, In w white_space -> s <> rest ++ w) ->
  trim s = s.
Proof.
  intros Hp Hs. unfold trim, trimStart, trimEnd.
  rewrite (@strip_id white_space s Hp). rewrite strip_id; [apply reverse_involutive|].
  intros w rest Hw E. apply in_map_iff in Hw. destruct Hw as [x [<- Hx]].
  apply (Hs x (reverse rest) Hx).
  rewrite <- (reverse_involutive s), E, reverse_append.
  now rewrite reverse_involutive.
Qed.

Lemma unorm_nonnil (d : Decimal.uint) : Decimal.unorm d <> Decimal.Nil.
Proof. unfold Decimal.unorm. destruct (Decimal.nzhead d); discriminate. Qed.

Lemma nat_to_uint_nonnil (n : nat) : Nat.to_uint n <> Decimal.Nil.
Proof.
  rewrite <- (DecimalNat.Unsigned.of_to n), DecimalNat.Unsigned.to_of.
  apply unorm_nonnil.
Qed.

Lemma of_nat_digits (n : nat) :
  of_nat n = NilEmpty.string_of_uint (Nat.to_uint n) /\ of_nat n <> "".
Proof.
  unfold of_nat. pose proof (nat_to_uint_nonnil n) as H.
  destruct (Nat.to_uint n); [congruence | split; [reflexivity | discriminate] ..].
Qed.

Lemma of_nat_inj (m n : nat) : of_nat m = of_nat n -> m = n.
Proof.
  unfold of_nat. intros H. apply DecimalNat.Unsigned.to_uint_inj.
  assert (E : Some (Nat.to_uint m) = Some (Nat.to_uint n)).
  { rewrite <- (NilZero.usu _ (nat_to_uint_nonnil m)).
    rewrite <- (NilZero.usu _ (nat_to_uint_nonnil n)). now rewrite H. }
  now injection E.
Qed.

(** A number in decimal ends with a digit. *)
Lemma uint_last_digit (d : Decimal.uint) :
  d <> Decimal.Nil ->
  exists z rest,
    reverse (NilEmpty.string_of_uint d) = String z rest /\
    JSON.is_digit z = true.
Proof.
  induction d as [|d IH|d IH|d IH|d IH|d IH|d IH|d IH|d IH|d IH|d IH];
    intros Hne; [now destruct Hne| ..];
    cbn [NilEmpty.string_of_uint reverse];
    (destruct d;
     [eexists _, _; split; reflexivity
     | destruct IH as [z [rest [-> Hz]]]; [discriminate|];
       eexists z, _; split; [reflexivity | exact Hz] ..]).
Qed.

Lemma column_label_ends (index : nat) :
  exists z rest,
    reverse (column_label index) = String z rest /\ JSON.is_digit z = true.
Proof.
  unfold column_label. rewrite reverse_append.
  destruct (of_nat_digits (index + 1)) as [-> _].
  destruct (@uint_last_digit _ (nat_to_uint_nonnil (index + 1)))
    as [z [rest [-> Hz]]].
  now eexists z, _.
Qed.

(** White space neither starts with the letter C nor ends with a digit. *)
Lemma white_space_ends (w : string) :
  In w white_space ->
  (exists a r, w = String a r /\ a <> "C"%char) /\
  (exists z r, reverse w = String z r /\ JSON.is_digit z = false).
Proof.
  unfold white_space. intros H.
  repeat (destruct H as [<- | H];
          [split; eexists _, _; split; try reflexivity; discriminate|]).
  destruct H.
Qed.

Lemma column_label_trimmed (index : nat) :
  (forall w rest, In w white_space -> column_label index <> w ++ rest) /\
  (forall w rest, In w white_space -> column_label index <> rest ++ w).
Proof.
  split; intros w rest Hw E;
    destruct (@white_space_ends w Hw) as [[a [r [Ea Ha]]] [z [r' [Ez Hz]]]].
  - rewrite Ea in E. unfold column_label in E. simpl in E.
    injection E as E _. now destruct Ha.
  - destruct (column_label_ends index) as [d [rd [Ed Hd]]].
    rewrite E, reverse_append, Ez in Ed. simpl in Ed.
    injection Ed as -> _. congruence.
Qed.

Lemma trim_column_label (index : nat) :
  trim (column_label index) = column_label index.
Proof. apply trim_id; apply column_label_trimmed. Qed.

Lemma append_inj_l (a b c : string) : a ++ b = a ++ c -> b = c.
Proof. induction a; simpl; intros H; [assumption | injection H; auto]. Qed.

Lemma column_label_inj (i j : nat) : column_label i = column_label j -> i = j.
Proof.
  unfold column_label. intros H. apply append_inj_l, of_nat_inj in H. lia.
Qed.

(** *** The trimmed text is unique *)

Lemma white_space_char (w : string) :
  In w white_space ->
  exists h t, w = String h t /\ is_continuation h = false /\ continues t = true.
Proof.
  assert (H : forallb one_char white_space = true) by reflexivity.
  rewrite forallb_forall in H. intros Hin. specialize (H w Hin).
  destruct w as [|h t]; [discriminate|]. cbn [one_char] in H.
  apply andb_true_iff in H. destruct H as [Hh Ht].
  exists h, t. split; [reflexivity|]. split; [|assumption].
  now destruct (is_continuation h).
Qed.

Lemma white_space_prefix_free (w w' x : string) :
  In w white_space -> In w' white_space -> w' = w ++ x -> x = "".
Proof.
  assert (H : forallb (fun w =>
                forallb (fun w' => implb (startsWith w' w) (String.eqb w w'))
                        white_space) white_space = true) by reflexivity.
  rewrite forallb_forall in H. intros Hw Hw' E.
  specialize (H w Hw). rewrite forallb_forall in H. specialize (H w' Hw').
  assert (S : startsWith w' w = true) by (apply startsWith_iff; now exists x).
  rewrite S in H. cbn [implb] in H. apply String.eqb_eq in H. subst w'.
  rewrite <- (append_nil_r w) in E at 1. now apply append_inj_l in E.
Qed.

Lemma continues_append (a b : string) :
  continues (a ++ b) = true <-> continues a = true /\ continues b = true.
Proof.
  induction a as [|c a IH]; simpl; [tauto|].
  rewrite !andb_true_iff, IH. tauto.
Qed.

Lemma blank_inv (s : string) :
  blank white_space s ->
  s = "" \/
  exists w r, In w white_space /\ s = w ++ r /\ blank white_space r.
Proof. destruct 1 as [|w r Hw Hr]; [now left | right; eauto]. Qed.

(** White space starts with a byte that continues nothing. *)
Lemma blank_head (s : string) (c : ascii) (r : string) :
  blank white_space s -> s = String c r -> is_continuation c = false.
Proof.
  intros H E. destruct (@blank_inv s H) as [-> | [w [r' [Hw [-> _]]]]];
    [discriminate|].
  destruct (@white_space_char w Hw) as [h [t [-> [Hh _]]]].
  simpl in E. now injection E as <- _.
Qed.

(** A proper end of a white-space character starts with a continuation
    byte. *)
Lemma white_space_tail (w a k : string) :
  In w white_space -> w = a ++ k -> a <> "" -> k <> "" ->
  exists x k', k = String x k' /\ is_continuation x = true.
Proof.
  intros Hw E Ha Hk.
  destruct (@white_space_char w Hw) as [h [t [-> [_ Ht]]]].
  destruct a as [|h' a]; [now destruct Ha|]. simpl in E.
  injection E as _ ->. apply continues_append in Ht. destruct Ht as [_ Ht].
  destruct k as [|x k']; [now destruct Hk|].
  exists x, k'. split; [reflexivity|]. simpl in Ht.
  now apply andb_true_iff in Ht.
Qed.

(** White space before a text that starts with none of it: the text
    starts where the white space ends. *)
Lemma blank_cut (w r c q : string) :
  In w white_space -> w ++ r = c ++ q ->
  (forall w' rest, In w' white_space -> c <> w' ++ rest) ->
  blank white_space q -> c = "".
Proof.
  intros Hw E Hc Hq.
  destruct (append_eq_append _ _ _ _ E) as [k [[-> _] | [Ek ->]]].
  - now destruct (Hc w k Hw).
  - destruct c as [|h t]; [reflexivity|]. exfalso.
    destruct k as [|x k].
    + rewrite append_nil_r in Ek. apply (Hc w "" Hw).
      now rewrite append_nil_r.
    + destruct (@white_space_tail w (String h t) (String x k) Hw Ek)
        as [x' [k' [Ex Hx]]]; [discriminate | discriminate |].
      injection Ex as <- <-.
      pose proof (@blank_head _ x (k ++ r) Hq eq_refl) as Hx'. congruence.
Qed.

Lemma blank_prefix (p x : string) :
  blank white_space p -> blank white_space (p ++ x) -> blank white_space x.
Proof.
  induction 1 as [|w p Hw Hp IH]; intros H; [assumption|].
  rewrite append_assoc in H.
  destruct (@blank_inv _ H) as [E | [w' [r' [Hw' [E Hr']]]]].
  - destruct (@white_space_char w Hw) as [h [t [-> _]]]. discriminate.
  - destruct (append_eq_append _ _ _ _ E) as [k [[-> Ek] | [-> Ek]]].
    + pose proof (@white_space_prefix_free w (w ++ k) k Hw Hw' eq_refl).
      subst k. simpl in Ek. subst r'. auto.
    + pose proof (@white_space_prefix_free w' (w' ++ k) k Hw' Hw eq_refl).
      subst k. simpl in Ek. subst r'. auto.
Qed.

Lemma blank_suffix (k q : string) :
  blank white_space q ->
  forall s, blank white_space s -> s = k ++ q -> blank white_space k.
Proof.
  intros Hq s Hs. revert k.
  induction Hs as [|w s Hw Hs IH]; intros k E.
  - destruct k; [constructor | discriminate].
  - destruct (append_eq_append _ _ _ _ E) as [y [[-> Ey] | [Ew ->]]].
    + constructor; [assumption | now apply IH].
    + destruct k as [|h t]; [constructor|].
      destruct y as [|x y].
      * rewrite append_nil_r in Ew. subst w. now apply blank_one.
      * exfalso.
        destruct (@white_space_tail w (String h t) (String x y) Hw Ew)
          as [x' [y' [Ex Hx]]]; [discriminate | discriminate |].
        injection Ex as <- <-.
        pose proof (@blank_head _ x (y ++ s) Hq eq_refl). congruence.
Qed.

Lemma blank_last (s : string) :
  blank white_space s -> s <> "" ->
  exists k w, In w white_space /\ s = k ++ w.
Proof.
  induction 1 as [|w s Hw Hs IH]; intros Hne; [now destruct Hne|].
  destruct s as [|c s].
  - exists "", w. now rewrite append_nil_r.
  - destruct IH as [k [w' [Hw' E]]]; [discriminate|].
    exists (w ++ k), w'. split; [assumption|].
    now rewrite E, append_assoc.
Qed.

(** Two texts without white space at their ends, each followed by white
    space, that make up the same text are equal. *)
Lemma trimmed_end_unique (c1 q1 c2 q2 : string) :
  c1 ++ q1 = c2 ++ q2 ->
  blank white_space q1 -> blank white_space q2 ->
  (forall w rest, In w white_space -> c2 <> rest ++ w) ->
  (exists k, c2 = c1 ++ k) -> c1 = c2.
Proof.
  intros E H1 H2 Hs [k ->]. rewrite append_assoc in E.
  apply append_inj_l in E.
  pose proof (@blank_suffix k q2 H2 q1 H1 E) as Hk.
  destruct k as [|x k]; [now rewrite append_nil_r|]. exfalso.
  destruct (@blank_last _ Hk) as [k' [w [Hw Ek]]]; [discriminate|].
  apply (Hs w (c1 ++ k') Hw). now rewrite Ek, append_assoc.
Qed.

Lemma trimmed_start_unique (p1 : string) :
  blank white_space p1 ->
  forall p2 c1 q1 c2 q2,
    blank white_space p2 ->
    p1 ++ c1 ++ q1 = p2 ++ c2 ++ q2 ->
    blank white_space q1 -> blank white_space q2 ->
    (forall w rest, In w white_space -> c1 <> w ++ rest) ->
    (forall w rest, In w white_space -> c2 <> w ++ rest) ->
    (c1 = "" /\ c2 = "") \/ c1 ++ q1 = c2 ++ q2.
Proof.
  assert (M : forall p c q,
             blank white_space p -> blank white_space q ->
             blank white_space (p ++ c ++ q) ->
             (forall w rest, In w white_space -> c <> w ++ rest) -> c = "").
  { intros p c q Hp Hq H Hc. apply (@blank_prefix p (c ++ q) Hp) in H.
    destruct (@blank_inv _ H) as [E | [w [r [Hw [E _]]]]].
    - destruct c; [reflexivity | discriminate].
    - symmetry in E. exact (@blank_cut w r c q Hw E Hc Hq). }
  induction 1 as [|w p1 Hw Hp1 IH]; intros p2 c1 q1 c2 q2 Hp2 E H1 H2 Hc1 Hc2.
  - destruct (@blank_inv _ Hp2) as [-> | [w' [p2' [Hw' [-> Hp2']]]]];
      [now right|].
    left. simpl in E. rewrite append_assoc in E. symmetry in E.
    pose proof (@blank_cut _ _ _ _ Hw' E Hc1 H1) as ->. split; [reflexivity|].
    simpl in E. apply (M (w' ++ p2') c2 q2); try assumption.
    rewrite append_assoc, E. exact H1.
  - destruct (@blank_inv _ Hp2) as [-> | [w' [p2' [Hw' [-> Hp2']]]]].
    + left. simpl in E. rewrite append_assoc in E.
      pose proof (@blank_cut _ _ _ _ Hw E Hc2 H2) as ->. split; [|reflexivity].
      simpl in E. apply (M (w ++ p1) c1 q1); try assumption.
      -- now constructor.
      -- rewrite append_assoc, E. exact H2.
    + rewrite !append_assoc in E.
      destruct (append_eq_append _ _ _ _ E) as [k [[-> Ek] | [-> Ek]]].
      * pose proof (@white_space_prefix_free w (w ++ k) k Hw Hw' eq_refl).
        subst k. simpl in Ek. now apply (IH p2').
      * pose proof (@white_space_prefix_free w' (w' ++ k) k Hw' Hw eq_refl).
        subst k. simpl in Ek. now apply (IH p2').
Qed.

(** A text has one trimmed text. *)
Lemma trimmed_unique (text c1 c2 : string) :
  trimmed text c1 -> trimmed text c2 -> c1 = c2.
Proof.
  intros [[p1 [q1 [E1 [Hp1 Hq1]]]] [Hs1 He1]]
         [[p2 [q2 [E2 [Hp2 Hq2]]]] [Hs2 He2]].
  rewrite E1 in E2.
  destruct (@trimmed_start_unique p1 Hp1 p2 c1 q1 c2 q2 Hp2 E2 Hq1 Hq2 Hs1 Hs2)
    as [[-> ->] | E]; [reflexivity|].
  destruct (append_eq_append _ _ _ _ E) as [k [[Ek _] | [Ek _]]].
  - apply (@trimmed_end_unique c1 q1 c2 q2 E Hq1 Hq2 He2). now exists k.
  - symmetry. symmetry in E.
    apply (@trimmed_end_unique c2 q2 c1 q1 E Hq2 Hq1 He1). now exists k.
Qed.

(** A header is the trimmed text of its cell, or the label of its column
    when there is no such text or it is empty. *)
Lemma header_of_cases (cell : value) (index : nat) :
  match toString_opt cell with
  | Some text =>
      trimmed text (trim text) /\
      (trim text <> "" -> header_of cell index = trim text) /\
      (trim text = "" -> header_of cell index = column_label index)
  | None => header_of cell index = column_label index
  end.
Proof.
  unfold header_of. destruct (toString_opt cell) as [text|];
    cbn [option_map]; [|reflexivity].
  split; [apply trim_trimmed|].
  destruct (trim text); split; congruence.
Qed.

(** A header is not empty and has no white space at either end. *)
Lemma header_of_trimmed (cell : value) (index : nat) :
  header_of cell index <> "" /\
  (forall w rest, In w white_space -> header_of cell index <> w ++ rest) /\
  (forall w rest, In w white_space -> header_of cell index <> rest ++ w).
Proof.
  assert (L : column_label index <> "" /\
              (forall w rest, In w white_space ->
                              column_label index <> w ++ rest) /\
              (forall w rest, In w white_space ->
                              column_label index <> rest ++ w))
    by (split; [discriminate | apply column_label_trimmed]).
  pose proof (header_of_cases cell index) as H.
  destruct (toString_opt cell) as [text|]; [|now rewrite H].
  destruct H as [[_ [Hp Hs]] [Hne He]].
  destruct (string_dec (trim text) "") as [E | E].
  - now rewrite (He E).
  - rewrite (Hne E). now split.
Qed.

End TrimFacts.

(* ===================================================================== *)
(** ** Ingestion *)
(* ===================================================================== *)

(** The allowed extensions are written in ASCII, in lower case and
    without the letter k. *)
Lemma allowedExtensions_plain (extension : string) :
  In extension allowedExtensions ->
  ascii_lower extension = extension /\
  unmistakable extension /\ ascii_text extension.
Proof.
  simpl. intros [<- | [<- | [<- | [<- | []]]]];
    (split; [reflexivity|]); cbn; repeat split; discriminate.
Qed.

(** The file-type test is the case-insensitive suffix match against the
    allow-list. *)
Lemma isValidFileType_iff (file : File) :
  isValidFileType file = true <->
  exists extension,
    In extension allowedExtensions /\ ci_suffix extension (file_name file).
Proof.
  unfold isValidFileType. rewrite existsb_exists. split.
  - intros [e [Hin H]]. exists e. split; [assumption|].
    destruct (@allowedExtensions_plain e Hin) as [H1 [H2 H3]].
    now apply (proj1 (@endsWith_lower_iff (file_name file) e H1 H2 H3)).
  - intros [e [Hin H]]. exists e. split; [assumption|].
    destruct (@allowedExtensions_plain e Hin) as [H1 [H2 H3]].
    now apply (proj2 (@endsWith_lower_iff (file_name file) e H1 H2 H3)).
Qed.

Lemma isValidFileType_false (file : File) :
  (forall extension, In extension allowedExtensions ->
                     ~ ci_suffix extension (file_name file)) ->
  isValidFileType file = false.
Proof.
  intros H. destruct (isValidFileType file) eqn:E; [|reflexivity].
  apply isValidFileType_iff in E. destruct E as [e [Hin Hs]].
  now destruct (H e Hin).
Qed.

Lemma report_pdf_not_allowed (extension : string) :
  In extension allowedExtensions -> ~ ci_suffix extension (file_name report_pdf).
Proof.
  intros Hin Hs.
  assert (E : isValidFileType report_pdf = true)
    by (apply isValidFileType_iff; now exists extension).
  vm_compute in E. discriminate.
Qed.

(** C5: a file whose name does not end, up to case, with one of the allowed
    extensions is rejected with [InvalidFileType]; the handler makes no
    read and no parse call, and the sheets, the active index, the file
    shown and the search term are what they were. *)
Theorem invalid_extension_rejected
    (env : Collaborators) (file : File) (files : list File) (st : UIState) :
  (forall extension, In extension allowedExtensions ->
                     ~ ci_suffix extension (file_name file)) ->
  let (st', calls) := handleFile env (Some (file :: files)) st in
  error st' = Some InvalidFileType /\
  calls = [] /\
  selectedSheets st' = selectedSheets st /\
  activeSheetIndex st' = activeSheetIndex st /\
  fileMeta st' = fileMeta st /\
  searchTerm st' = searchTerm st.
Proof.
  intros H. unfold handleFile.
  rewrite (isValidFileType_false _ H). simpl. repeat split.
Qed.

Lemma invalid_extension_rejected_witness :
  (forall extension, In extension allowedExtensions ->
                     ~ ci_suffix extension (file_name report_pdf)) /\
  let (st', calls) := handleFile cities_env (Some [report_pdf]) loaded_state in
  error st' = Some InvalidFileType /\
  calls = [] /\
  selectedSheets st' = selectedSheets loaded_state /\
  activeSheetIndex st' = activeSheetIndex loaded_state /\
  fileMeta st' = fileMeta loaded_state /\
  searchTerm st' = searchTerm loaded_state.
Proof.
  split.
  - exact report_pdf_not_allowed.
  - exact (invalid_extension_rejected cities_env report_pdf [] loaded_state
             report_pdf_not_allowed).
Defined.

(** C4: a decoded workbook without sheets makes the upload fail with
    [EmptyDataError] and leaves no workbook loaded; a sheet without rows
    is normalized to the sheet with no headers, no records and zero
    counts, and a workbook made of one such sheet is loaded without
    error. *)
Theorem empty_workbook_vs_empty_sheet
    (env : Collaborators) (file : File) (files : list File) (st : UIState)
    (buffer : ArrayBuffer) (workbook : WorkBook) :
  isValidFileType file = true ->
  FileReader_read env file = Some buffer ->
  XLSX_read env buffer = inr workbook ->
  let st' := fst (handleFile env (Some (file :: files)) st) in
  (SheetNames workbook = [] ->
     error st' = Some EmptyDataError /\
     selectedSheets st' = [] /\ fileMeta st' = None) /\
  (forall name,
     SheetNames workbook = [name] -> Sheets workbook name = Some [] ->
     error st' = None /\
     selectedSheets st' = [mkSheetRows name [] [] 0 0] /\
     activeSheetIndex st' = 0 /\
     fileMeta st' = Some file) /\
  (forall name, buildSheet name [] = mkSheetRows name [] [] 0 0).
Proof.
  intros Hv Hr Hp. unfold handleFile, readFileAsArrayBuffer.
  rewrite Hv, Hr, Hp. cbn [negb]. unfold buildSheetData.
  split; [|split].
  - intros ->. simpl. repeat split.
  - intros name -> Hs. simpl. rewrite Hs. simpl. repeat split.
  - reflexivity.
Qed.

Lemma empty_workbook_vs_empty_sheet_witness :
  (let st' := fst (handleFile (const_env (Some []) (inr (workbook_of [])))
                              (Some [data_xlsx]) loaded_state) in
   error st' = Some EmptyDataError /\
   selectedSheets st' = [] /\ fileMeta st' = None) /\
  (let st' := fst (handleFile (const_env (Some []) (inr (workbook_of [("Empty", [])])))
                              (Some [data_xlsx]) loaded_state) in
   error st' = None /\
   selectedSheets st' = [mkSheetRows "Empty" [] [] 0 0] /\
   activeSheetIndex st' = 0 /\
   fileMeta st' = Some data_xlsx).
Proof.
  split.
  - apply (empty_workbook_vs_empty_sheet
             (const_env (Some []) (inr (workbook_of [])))
             data_xlsx [] loaded_state (buffer := []) (workbook := workbook_of []));
      reflexivity.
  - apply (empty_workbook_vs_empty_sheet
             (const_env (Some []) (inr (workbook_of [("Empty", [])])))
             data_xlsx [] loaded_state (buffer := [])
             (workbook := workbook_of [("Empty", [])]));
      reflexivity.
Defined.

(** The handler's success path, spelled out. *)
Lemma handleFile_loaded
    (env : Collaborators) (file : File) (files : list File) (st : UIState)
    (buffer : ArrayBuffer) (workbook : WorkBook)
    (sheet : SheetRows) (sheets : list SheetRows) :
  isValidFileType file = true ->
  FileReader_read env file = Some buffer ->
  XLSX_read env buffer = inr workbook ->
  buildSheetData workbook = sheet :: sheets ->
  fst (handleFile env (Some (file :: files)) st)
  = mkUIState (sheet :: sheets) 0 (Some file) None (searchTerm st).
Proof.
  intros Hv Hr Hp Hb. unfold handleFile, readFileAsArrayBuffer.
  rewrite Hv, Hr, Hp, Hb. reflexivity.
Qed.

(** C10: a successful upload sets the active sheet index to 0 and keeps the
    search term; selecting a sheet keeps the search term too; so the
    preview of the newly loaded workbook is its first sheet filtered by the
    term typed before the upload. *)
Theorem upload_keeps_search_term
    (env : Collaborators) (file : File) (files : list File) (st : UIState)
    (buffer : ArrayBuffer) (workbook : WorkBook)
    (sheet : SheetRows) (sheets : list SheetRows) :
  isValidFileType file = true ->
  FileReader_read env file = Some buffer ->
  XLSX_read env buffer = inr workbook ->
  buildSheetData workbook = sheet :: sheets ->
  let st' := fst (handleFile env (Some (file :: files)) st) in
  activeSheetIndex st' = 0 /\
  searchTerm st' = searchTerm st /\
  (forall index, searchTerm (setActiveSheetIndex index st') = searchTerm st) /\
  currentSheet st' = Some sheet /\
  filteredRows st' =
    if String.eqb (searchTerm st) "" then firstn 200 (rows sheet)
    else firstn 200
           (filter (row_matches (toLowerCase (searchTerm st))) (rows sheet)).
Proof.
  intros Hv Hr Hp Hb st'. subst st'.
  rewrite (handleFile_loaded env file files st Hv Hr Hp Hb).
  repeat split.
Qed.

Lemma upload_keeps_search_term_witness :
  let st := setSearchTerm "delhi" initialState in
  let st' := fst (handleFile cities_env (Some [data_xlsx]) st) in
  activeSheetIndex st' = 0 /\
  searchTerm st' = "delhi" /\
  filteredRows st' =
    [[("Name", VString "Asha"); ("Column 2", VString "Delhi");
      ("Age", VNumber 31)]].
Proof.
  intros st st'.
  destruct (upload_keeps_search_term cities_env data_xlsx [] st
              (buffer := []) (workbook := cities_workbook)
              (sheet := buildSheet "Cities"
                          [[VString "Name"; VString ""; VString "Age"];
                           [VString "Asha"; VString "Delhi"; VNumber 31];
                           [VString "Ravi"; VString "Pune"]])
              (sheets := [buildSheet "Empty" []])
              eq_refl eq_refl eq_refl eq_refl)
    as [H0 [H1 [_ [_ H2]]]].
  split; [exact H0 | split; [exact H1 | exact H2]].
Defined.

(** The outcomes of an upload that end in the [catch] clause or in the
    empty-data branch leave no workbook. *)
Lemma handleFile_valid_consistent
    (env : Collaborators) (file : File) (files : list File) (st : UIState) :
  isValidFileType file = true ->
  let st' := fst (handleFile env (Some (file :: files)) st) in
  error st' <> None -> selectedSheets st' = [] /\ fileMeta st' = None.
Proof.
  intros Hv. unfold handleFile, readFileAsArrayBuffer. rewrite Hv. cbn [negb].
  destruct (FileReader_read env file) as [buffer|]; [|simpl; auto].
  destruct (XLSX_read env buffer) as [err|workbook]; [simpl; auto|].
  destruct (buildSheetData workbook); simpl; [auto|congruence].
Qed.

(** C1, as the code has it: a failed read, a failed parse and a workbook
    without sheets each store an error, clear the loaded sheets and the
    file shown, and keep the active index and the search term; after any
    upload of a file with an allowed extension a stored error comes with
    no workbook.  The rejection of a file type, which happens before the
    [try] block, stores its error and keeps the loaded sheets. *)
Theorem upload_errors_clear_workbook
    (env : Collaborators) (file : File) (files : list File) (st : UIState) :
  let st' := fst (handleFile env (Some (file :: files)) st) in
  (isValidFileType file = true ->
     (FileReader_read env file = None ->
        error st' <> None /\ selectedSheets st' = [] /\ fileMeta st' = None) /\
     (forall buffer err,
        FileReader_read env file = Some buffer ->
        XLSX_read env buffer = inl err ->
        error st' = Some (ReadOrParseError err) /\
        selectedSheets st' = [] /\ fileMeta st' = None) /\
     (forall buffer workbook,
        FileReader_read env file = Some buffer ->
        XLSX_read env buffer = inr workbook ->
        SheetNames workbook = [] ->
        error st' = Some EmptyDataError /\
        selectedSheets st' = [] /\ fileMeta st' = None) /\
     (error st' <> None ->
        selectedSheets st' = [] /\ fileMeta st' = None /\
        activeSheetIndex st' = activeSheetIndex st)) /\
  (isValidFileType file = false ->
     error st' = Some InvalidFileType /\
     selectedSheets st' = selectedSheets st /\
     fileMeta st' = fileMeta st) /\
  searchTerm st' = searchTerm st.
Proof.
  intros st'. subst st'. unfold handleFile, readFileAsArrayBuffer.
  split; [|split].
  - intros Hv. rewrite Hv. cbn [negb].
    destruct (FileReader_read env file) as [buffer|] eqn:Hr.
    + destruct (XLSX_read env buffer) as [err|workbook] eqn:Hp.
      * simpl. split; [congruence|]. split; [|split].
        -- intros b e Hb. injection Hb as <-. rewrite Hp. intros He.
           injection He as <-. repeat split.
        -- intros b w Hb. injection Hb as <-. rewrite Hp. discriminate.
        -- repeat split.
      * unfold buildSheetData.
        destruct (SheetNames workbook) as [|n ns] eqn:Hn; simpl.
        -- split; [congruence|]. split; [|split].
           ++ intros b e Hb. injection Hb as <-. rewrite Hp. discriminate.
           ++ repeat split.
           ++ repeat split.
        -- split; [congruence|]. split; [|split].
           ++ intros b e Hb. injection Hb as <-. rewrite Hp. discriminate.
           ++ intros b w Hb. injection Hb as <-. rewrite Hp. intros Hw.
              injection Hw as <-. congruence.
           ++ congruence.
    + simpl. split; [|split; [|split]].
      * intros _. repeat split. discriminate.
      * discriminate.
      * discriminate.
      * repeat split.
  - intros Hv. rewrite Hv. simpl. repeat split.
  - destruct (isValidFileType file); cbn [negb]; [|reflexivity].
    destruct (FileReader_read env file) as [buffer|]; [|reflexivity].
    destruct (XLSX_read env buffer) as [err|workbook]; [reflexivity|].
    destruct (buildSheetData workbook); reflexivity.
Qed.

(** C1, as stated, fails on the rejection of a file type: with a workbook
    loaded, the upload of [report.pdf] stores [InvalidFileType] next to the
    sheets of the earlier upload. *)
Lemma invalid_type_keeps_loaded_workbook :
  let st' := fst (handleFile cities_env (Some [report_pdf]) loaded_state) in
  error st' = Some InvalidFileType /\
  ~ (error st' <> None -> selectedSheets st' = []).
Proof.
  split; [reflexivity|].
  intros H. assert (E : selectedSheets (fst (handleFile cities_env (Some [report_pdf]) loaded_state)) = [])
    by (apply H; discriminate).
  vm_compute in E. discriminate.
Qed.

Lemma upload_errors_clear_workbook_witness :
  let st' := fst (handleFile (const_env None (inr cities_workbook))
                             (Some [data_xlsx]) loaded_state) in
  error st' <> None /\ selectedSheets st' = [] /\ fileMeta st' = None.
Proof.
  intros st'.
  exact (proj1 (proj1 (upload_errors_clear_workbook
                         (const_env None (inr cities_workbook))
                         data_xlsx [] loaded_state) eq_refl) eq_refl).
Defined.

(* ===================================================================== *)
(** ** Normalization *)
(* ===================================================================== *)

Lemma mapi_from_length {A B} (f : A -> nat -> B) (i : nat) (l : list A) :
  length (mapi_from f i l) = length l.
Proof. revert i; induction l; intros i; simpl; auto. Qed.

Lemma mapi_from_nth_error {A B} (f : A -> nat -> B) (l : list A) :
  forall i n,
    nth_error (mapi_from f i l) n =
    option_map (fun x => f x (i + n)) (nth_error l n).
Proof.
  induction l as [|x l IH]; intros i [|n]; simpl; try reflexivity.
  - now rewrite Nat.add_0_r.
  - rewrite IH. now rewrite Nat.add_succ_r.
Qed.

(** C9: the headers of a non-empty sheet come from the first row, cell by
    cell.  The text of a cell is trimmed: the header is what is left of
    the text between the white space at its two ends (white space being
    the characters of WhiteSpace and LineTerminator, the no-break space
    and the byte order mark among them), it neither starts nor ends
    with white space, and it is the only such part of the text.  A cell that is absent, or whose text is empty or
    all white space, gets [Column <index + 1>].  [Name], empty, [Age]
    gives [Name], [Column 2], [Age]; every white-space character is
    taken away from both ends, white space inside a text stays, and the
    zero width space and the next-line character are not white space. *)
Theorem headers_from_first_row
    (name : string) (headerRow : list value) (dataRows : RawRows) :
  let sheet := buildSheet name (headerRow :: dataRows) in
  length (headers sheet) = length headerRow /\
  (forall index cell,
     nth_error headerRow index = Some cell ->
     exists header,
       nth_error (headers sheet) index = Some header /\
       match toString_opt cell with
       | Some text =>
           exists core,
             trimmed text core /\
             (forall other, trimmed text other -> other = core) /\
             (core <> "" -> header = core) /\
             (core = "" -> header = "Column " ++ of_nat (index + 1))
       | None => header = "Column " ++ of_nat (index + 1)
       end) /\
  headers (buildSheet name ([VString "Name"; VString ""; VString "Age"] :: dataRows))
  = ["Name"; "Column 2"; "Age"] /\
  (let spaces :=
     utf8s [0x9; 0xA; 0xB; 0xC; 0xD; 0x20; 0xA0; 0x1680; 0x2000; 0x2001;
            0x2002; 0x2003; 0x2004; 0x2005; 0x2006; 0x2007; 0x2008; 0x2009;
            0x200A; 0x2028; 0x2029; 0x202F; 0x205F; 0x3000; 0xFEFF]%N in
   headers (buildSheet name
              ([VString (spaces ++ "Full name" ++ spaces); VString spaces;
                VNull; VNumber 2024;
                VString (utf8s [0x200B]%N ++ "Id" ++ utf8s [0x85]%N)]
                 :: dataRows))
   = ["Full name"; "Column 2"; "Column 3"; "2024";
      utf8s [0x200B]%N ++ "Id" ++ utf8s [0x85]%N]).
Proof.
  cbn zeta. split; [apply mapi_from_length | split; [|split; reflexivity]].
  intros index cell Hc. cbn [buildSheet headers]. unfold mapi.
  rewrite mapi_from_nth_error, Hc. simpl.
  eexists; split; [reflexivity|].
  pose proof (header_of_cases cell index) as H. fold (column_label index).
  destruct (toString_opt cell) as [text|]; [|exact H].
  destruct H as [Ht H]. exists (trim text). split; [exact Ht|].
  split; [|exact H].
  intros other Ho. exact (@trimmed_unique text other (trim text) Ho Ht).
Qed.

(* ===================================================================== *)
(** ** Preview *)
(* ===================================================================== *)

Lemma row_matches_iff (term : string) (row : JsObject.t) :
  row_matches (toLowerCase term) row = true <-> lowered_match term row.
Proof.
  unfold row_matches, lowered_match, JsObject.values.
  rewrite existsb_exists. split.
  - intros [v [Hin Hv]]. apply in_map_iff in Hin.
    destruct Hin as [[k v'] [Heq Hin]]. simpl in Heq. subst v'.
    unfold value_includes in Hv.
    destruct (toString_opt v) as [text|] eqn:E; [|discriminate].
    exists k, v, text. repeat split; try assumption.
    now apply includes_iff.
  - intros [k [v [text [Hin [E Hs]]]]]. exists v. split.
    + apply in_map_iff. now exists (k, v).
    + unfold value_includes. rewrite E. now apply includes_iff.
Qed.

(** On ASCII texts the test of the filter is the search for the term up
    to case. *)
Lemma row_matches_ascii (term : string) (row : JsObject.t) :
  ascii_text term -> ascii_fields row ->
  (row_matches (toLowerCase term) row = true <-> field_matches term row).
Proof.
  intros Ht Hr. rewrite row_matches_iff.
  unfold lowered_match, field_matches.
  split; intros [k [v [text [Hin [E H]]]]]; exists k, v, text;
    (split; [assumption|]); (split; [assumption|]);
    pose proof (Hr k v text Hin E) as Hx.
  - apply includes_ascii_lower_iff, includes_iff.
    now rewrite <- (@toLowerCase_ascii text Hx), <- (@toLowerCase_ascii term Ht).
  - apply includes_ascii_lower_iff, includes_iff in H.
    now rewrite (@toLowerCase_ascii text Hx), (@toLowerCase_ascii term Ht).
Qed.




(* ===================================================================== *)
(** ** Plain objects *)
(* ===================================================================== *)

Section ObjectFacts.

Import JsObject.

Lemma has_keys (k : string) (o : t) :
  has k o = existsb (fun k' => String.eqb k' k) (keys o).
Proof. unfold has, keys. induction o as [|[k' v'] o IH]; simpl; congruence. Qed.

Lemma has_true_iff (k : string) (o : t) : has k o = true <-> In k (keys o).
Proof.
  rewrite has_keys, existsb_exists. split.
  - intros [x [Hin Hx]]. apply String.eqb_eq in Hx. now subst.
  - intros Hin. exists k. split; [assumption | apply String.eqb_refl].
Qed.

Lemma has_false_iff (k : string) (o : t) : has k o = false <-> ~ In k (keys o).
Proof.
  rewrite <- has_true_iff. destruct (has k o); split; congruence.
Qed.

Lemma keys_update (k : string) (v : value) (o : t) :
  keys (update k v o) = keys o.
Proof.
  induction o as [|[k' v'] o IH]; simpl; [reflexivity|].
  destruct (String.eqb_spec k' k); simpl; congruence.
Qed.

Lemma keys_insert_index (n : N) (k : string) (v : value) (o : t) :
  keys (insert_index n k v o) = key_insert_index n k (keys o).
Proof.
  induction o as [|[k' v'] o IH]; simpl; [reflexivity|].
  destruct (array_index k') as [m|]; [|reflexivity].
  destruct (m <? n)%N; simpl; congruence.
Qed.

Lemma keys_define (k : string) (v : value) (o : t) :
  keys (define k v o) = key_define k (keys o).
Proof.
  unfold define, key_define. rewrite <- has_keys.
  destruct (has k o); [apply keys_update|].
  destruct (array_index k); [apply keys_insert_index|].
  unfold keys. now rewrite map_app.
Qed.

Lemma keys_set (k : string) (v : value) (o : t) :
  keys (set k v o) = key_set k (keys o).
Proof.
  unfold set, key_set. destruct (String.eqb k "__proto__"); [reflexivity|].
  apply keys_define.
Qed.

Lemma key_insert_index_In (n : N) (k x : string) (ks : list string) :
  In x (key_insert_index n k ks) <-> x = k \/ In x ks.
Proof.
  induction ks as [|k' ks IH]; simpl.
  - intuition.
  - destruct (array_index k') as [m|]; [destruct (m <? n)%N|]; simpl;
      rewrite ?IH; intuition.
Qed.

Lemma key_define_In (k x : string) (ks : list string) :
  In x (key_define k ks) <-> x = k \/ In x ks.
Proof.
  unfold key_define.
  destruct (existsb (fun k' => String.eqb k' k) ks) eqn:E.
  - split; [now right|]. intros [-> | H]; [|assumption].
    apply existsb_exists in E. destruct E as [y [Hy Hk]].
    apply String.eqb_eq in Hk. now subst.
  - destruct (array_index k).
    + apply key_insert_index_In.
    + rewrite in_app_iff. simpl. intuition.
Qed.

Lemma key_set_In (k x : string) (ks : list string) :
  In x (key_set k ks) <-> (x = k /\ k <> "__proto__") \/ In x ks.
Proof.
  unfold key_set. destruct (String.eqb_spec k "__proto__") as [E|E].
  - intuition.
  - rewrite key_define_In. intuition.
Qed.

Lemma record_keys_In_gen (hs : list string) :
  forall acc x,
    In x (fold_left (fun ks header => key_set header ks) hs acc) <->
    (In x hs /\ x <> "__proto__") \/ In x acc.
Proof.
  induction hs as [|h hs IH]; intros acc x; simpl.
  - intuition.
  - rewrite IH, key_set_In. intuition; subst; intuition.
Qed.

(** The keys of a record are the headers other than [__proto__]. *)
Lemma record_keys_In (headers : list string) (x : string) :
  In x (record_keys headers) <-> In x headers /\ x <> "__proto__".
Proof.
  unfold record_keys. rewrite record_keys_In_gen. simpl. intuition.
Qed.

Lemma forEachi_from_set_keys (hs : list string) (row : list value) :
  forall i acc,
    keys (forEachi_from
            (fun record header index =>
               set header (nullish (array_get row index) (VString "")) record)
            i hs acc)
    = fold_left (fun ks header => key_set header ks) hs (keys acc).
Proof.
  induction hs as [|h hs IH]; intros i acc; simpl; [reflexivity|].
  now rewrite IH, keys_set.
Qed.

(** Every record of a sheet has the same keys, in the same order. *)
Lemma record_of_keys (headers : list string) (row : list value) :
  keys (record_of headers row) = record_keys headers.
Proof. apply forEachi_from_set_keys. Qed.

Lemma array_index_Some (k : string) (n : N) :
  array_index k = Some n -> k = NilZero.string_of_uint (N.to_uint n).
Proof.
  unfold array_index. destruct (NilZero.uint_of_string k) as [d|]; [|discriminate].
  destruct (_ && _) eqn:E; [|discriminate].
  intros H. injection H as <-. apply andb_true_iff in E.
  destruct E as [E _]. apply String.eqb_eq in E. now symmetry.
Qed.

Lemma key_before_neq (a b : string) : key_before a b -> a <> b.
Proof.
  unfold key_before. intros H E. subst b.
  destruct (array_index a); [lia | now apply H].
Qed.

Lemma FOP_app {A} (R : A -> A -> Prop) (l1 l2 : list A) :
  ForallOrdPairs R (l1 ++ l2) <->
  ForallOrdPairs R l1 /\ ForallOrdPairs R l2 /\
  (forall a b, In a l1 -> In b l2 -> R a b).
Proof.
  induction l1 as [|x l1 IH]; simpl.
  - split.
    + intros H. repeat split; [constructor | assumption | intros a b []].
    + intros [_ [H _]]. assumption.
  - split.
    + intros H. inversion H as [|? ? Hx Hl]; subst.
      apply IH in Hl. destruct Hl as [H1 [H2 H3]].
      rewrite Forall_app in Hx. destruct Hx as [Hx1 Hx2].
      repeat split; [now constructor | assumption |].
      intros a b [<- | Ha] Hb.
      * rewrite Forall_forall in Hx2. now apply Hx2.
      * now apply H3.
    + intros [H1 [H2 H3]]. inversion H1 as [|? ? Hx Hl]; subst.
      constructor.
      * rewrite Forall_app. split; [assumption|].
        apply Forall_forall. intros b Hb. apply H3; [now left | assumption].
      * apply IH. repeat split; try assumption.
        intros a b Ha Hb. apply H3; [now right | assumption].
Qed.

Lemma key_insert_index_order (n : N) (k : string) (ks : list string) :
  array_index k = Some n -> ~ In k ks ->
  ForallOrdPairs key_before ks ->
  ForallOrdPairs key_before (key_insert_index n k ks).
Proof.
  intros Hk. induction ks as [|k' ks IH]; intros Hnin H; simpl.
  - repeat constructor.
  - inversion H as [|? ? Hx Hl]; subst. rewrite Forall_forall in Hx.
    destruct (array_index k') as [m|] eqn:Hk'.
    + destruct (N.ltb_spec m n) as [Hlt|Hge].
      * constructor.
        -- apply Forall_forall. intros x Hin.
           apply key_insert_index_In in Hin. destruct Hin as [-> | Hin].
           ++ unfold key_before. now rewrite Hk', Hk.
           ++ now apply Hx.
        -- apply IH; [|assumption]. intros Hin. apply Hnin. now right.
      * assert (Hne : m <> n).
        { intros ->. apply Hnin. left.
          apply array_index_Some in Hk, Hk'. congruence. }
        constructor; [|assumption].
        apply Forall_forall. intros x [<- | Hin].
        -- unfold key_before. rewrite Hk, Hk'. lia.
        -- specialize (Hx x Hin). unfold key_before in *.
           rewrite Hk' in Hx. rewrite Hk.
           destruct (array_index x); [lia | exact I].
    + constructor; [|assumption].
      apply Forall_forall. intros x [<- | Hin].
      * unfold key_before. now rewrite Hk, Hk'.
      * specialize (Hx x Hin). unfold key_before in *.
        rewrite Hk' in Hx. rewrite Hk.
        destruct (array_index x); [contradiction | exact I].
Qed.

Lemma key_define_order (k : string) (ks : list string) :
  ForallOrdPairs key_before ks ->
  ForallOrdPairs key_before (key_define k ks).
Proof.
  intros H. unfold key_define.
  destruct (existsb (fun k' => String.eqb k' k) ks) eqn:E; [assumption|].
  assert (Hnin : ~ In k ks).
  { intros Hin. rewrite <- not_true_iff_false in E. apply E.
    apply existsb_exists. exists k. split; [assumption | apply String.eqb_refl]. }
  destruct (array_index k) as [n|] eqn:Hk.
  - now apply key_insert_index_order.
  - apply FOP_app. repeat split; [assumption | repeat constructor |].
    intros a b Ha [<- | []]. unfold key_before. rewrite Hk.
    destruct (array_index a); [exact I | congruence].
Qed.

Lemma set_order (k : string) (v : value) (o : t) :
  own_property_order o -> own_property_order (set k v o).
Proof.
  unfold own_property_order. rewrite keys_set. unfold key_set.
  destruct (String.eqb k "__proto__"); [auto | apply key_define_order].
Qed.

Lemma record_of_order (headers : list string) (row : list value) :
  own_property_order (record_of headers row).
Proof.
  unfold record_of, forEachi.
  assert (G : forall hs i acc,
             own_property_order acc ->
             own_property_order
               (forEachi_from
                  (fun record header index =>
                     set header (nullish (array_get row index) (VString "")) record)
                  i hs acc)).
  { induction hs as [|h hs IH]; intros i acc Hacc; simpl; [assumption|].
    apply IH. now apply set_order. }
  apply G. constructor.
Qed.

Lemma insert_index_last (n : N) (k : string) (v : value) (p : t) :
  (forall a, In a (keys p) -> key_before a k) ->
  array_index k = Some n ->
  insert_index n k v p = (p ++ [(k, v)])%list.
Proof.
  intros H Hk. induction p as [|[k' v'] p IH]; simpl; [reflexivity|].
  assert (Hb : key_before k' k) by (apply H; now left).
  unfold key_before in Hb. rewrite Hk in Hb.
  destruct (array_index k') as [m|]; [|contradiction].
  apply N.ltb_lt in Hb. rewrite Hb. f_equal. apply IH.
  intros a Ha. apply H. now right.
Qed.

(** Creating a property whose place is after all the present ones appends
    it. *)
Lemma define_next (k : string) (v : value) (p q : t) :
  own_property_order (p ++ (k, v) :: q)%list ->
  define k v p = (p ++ [(k, v)])%list.
Proof.
  unfold own_property_order, keys. rewrite map_app. simpl.
  intros H. apply FOP_app in H. destruct H as [_ [_ H]].
  assert (Hb : forall a, In a (keys p) -> key_before a k).
  { intros a Ha. apply H; [assumption | now left]. }
  unfold define.
  assert (Hh : has k p = false).
  { apply has_false_iff. intros Hin. now apply (key_before_neq (Hb k Hin)). }
  rewrite Hh. destruct (array_index k) as [n|] eqn:Hk; [|reflexivity].
  now apply insert_index_last.
Qed.

(** Creating the properties of an object one by one, in its own order,
    gives the object back. *)
Lemma define_fold_rebuild (q : t) :
  forall p,
    own_property_order (p ++ q)%list ->
    fold_left (fun acc e => define (fst e) (snd e) acc) q p = (p ++ q)%list.
Proof.
  induction q as [|[k v] q IH]; intros p H; simpl.
  - now rewrite app_nil_r.
  - rewrite (define_next _ _ _ _ H).
    replace (p ++ (k, v) :: q)%list with ((p ++ [(k, v)]) ++ q)%list in *
      by (now rewrite <- app_assoc).
    now apply IH.
Qed.

End ObjectFacts.

(* ===================================================================== *)
(** ** JSON: parsing what [JSON.stringify] prints *)
(* ===================================================================== *)

Section JsonFacts.

Import JSON.

Lemma escape_char_parse (c : ascii) (r : string) :
  parse_chars (escape_char c ++ r) = cons_char c (parse_chars r).
Proof.
  destruct c as [b0 b1 b2 b3 b4 b5 b6 b7].
  destruct b0, b1, b2, b3, b4, b5, b6, b7; reflexivity.
Qed.

Lemma parse_chars_escape (s rest : string) :
  parse_chars (escape s ++ String dquote rest) = Some (s, rest).
Proof.
  induction s as [|c s IH]; [reflexivity|].
  cbn [escape]. rewrite append_assoc, escape_char_parse, IH. reflexivity.
Qed.

Lemma quote_append (s rest : string) :
  quote s ++ rest = String dquote (escape s ++ String dquote rest).
Proof. unfold quote. simpl. now rewrite append_assoc. Qed.

Lemma parse_string_quote (s rest : string) :
  parse_string (quote s ++ rest) = Some (s, rest).
Proof. rewrite quote_append. simpl. apply parse_chars_escape. Qed.

Lemma span_digits_uint (d : Decimal.uint) (c : ascii) (r : string) :
  is_digit c = false ->
  span_digits (NilEmpty.string_of_uint d ++ String c r)
  = (NilEmpty.string_of_uint d, String c r).
Proof.
  intros Hc. induction d; simpl; rewrite ?IHd; try reflexivity.
  now rewrite Hc.
Qed.

Lemma to_uint_unorm (n : N) : Decimal.unorm (N.to_uint n) = N.to_uint n.
Proof.
  rewrite <- DecimalN.Unsigned.to_of. now rewrite DecimalN.Unsigned.of_to.
Qed.

Lemma to_uint_nonnil (n : N) : N.to_uint n <> Decimal.Nil.
Proof.
  destruct n; [discriminate | apply DecimalPos.Unsigned.to_uint_nonnil].
Qed.

Lemma NilZero_string_of_uint (d : Decimal.uint) :
  d <> Decimal.Nil -> NilZero.string_of_uint d = NilEmpty.string_of_uint d.
Proof. destruct d; [congruence | reflexivity ..]. Qed.

Lemma leading_zero_unorm (d : Decimal.uint) :
  Decimal.unorm d = d -> leading_zero (NilEmpty.string_of_uint d) = false.
Proof.
  intros H. destruct d as [|d| | | | | | | | |]; try reflexivity.
  rewrite DecimalFacts.unorm_D0 in H.
  destruct (Decimal.nzhead d) eqn:E.
  1: { unfold Decimal.unorm in H. rewrite E in H. injection H as <-.
       reflexivity. }
  all: exfalso; rewrite DecimalFacts.unorm_nzhead in H by (rewrite E; discriminate);
    exact (DecimalFacts.nzhead_nonzero _ _ H).
Qed.

Lemma JSON_member_end_facts (c : ascii) :
  JSON_member_end c ->
  is_digit c = false /\ (forall r, starts_fraction (String c r) = false).
Proof. intros [-> | ->]; split; reflexivity. Qed.

Lemma parse_nat_literal_ok (n : N) (c : ascii) (r : string) :
  JSON_member_end c ->
  parse_nat_literal (NilZero.string_of_uint (N.to_uint n) ++ String c r)
  = Some (n, String c r).
Proof.
  intros Hc. destruct (JSON_member_end_facts Hc) as [Hd Hf].
  unfold parse_nat_literal.
  rewrite (NilZero_string_of_uint (to_uint_nonnil n)).
  rewrite span_digits_uint by assumption.
  rewrite (leading_zero_unorm (to_uint_unorm n)), Hf. cbn [orb].
  rewrite <- (NilZero_string_of_uint (to_uint_nonnil n)).
  rewrite NilZero.usu by apply to_uint_nonnil.
  now rewrite DecimalN.Unsigned.of_to.
Qed.

Lemma uint_first_digit (d : Decimal.uint) :
  d <> Decimal.Nil ->
  exists c s, NilEmpty.string_of_uint d = String c s /\ is_digit c = true.
Proof. destruct d; [congruence | simpl; eauto ..]. Qed.

Lemma of_N_first_digit (n : N) :
  exists c s,
    NilZero.string_of_uint (N.to_uint n) = String c s /\ is_digit c = true.
Proof.
  rewrite (NilZero_string_of_uint (to_uint_nonnil n)).
  apply uint_first_digit, to_uint_nonnil.
Qed.

(** What the first character of a printed number is not. *)
Lemma number_start_facts (c : ascii) :
  is_digit c = true \/ c = "-"%char ->
  Ascii.eqb "n" c = false /\ Ascii.eqb dquote c = false /\ is_ws c = false.
Proof.
  intros H.
  destruct (Ascii.eqb_spec "n" c) as [<-|_];
    [destruct H; discriminate|].
  destruct (Ascii.eqb_spec dquote c) as [<-|_];
    [destruct H; discriminate|].
  repeat split. unfold is_ws.
  destruct (Ascii.eqb_spec c " ") as [->|_]; [destruct H; discriminate|].
  destruct (Ascii.eqb_spec c "009") as [->|_]; [destruct H; discriminate|].
  destruct (Ascii.eqb_spec c "010") as [->|_]; [destruct H; discriminate|].
  destruct (Ascii.eqb_spec c "013") as [->|_]; [destruct H; discriminate|].
  reflexivity.
Qed.

Lemma of_Z_first (z : Z) :
  exists c s, of_Z z = String c s /\ (is_digit c = true \/ c = "-"%char).
Proof.
  destruct z as [|p|p]; simpl.
  - exists "0"%char, "". split; [reflexivity | now left].
  - destruct (of_N_first_digit (Npos p)) as [c [s [E H]]].
    exists c, s. split; [exact E | now left].
  - eexists _, _. split; [reflexivity | now right].
Qed.

Lemma parse_number_ok (z : Z) (c : ascii) (r : string) :
  JSON_member_end c ->
  parse_number (of_Z z ++ String c r) = Some (VNumber z, String c r).
Proof.
  intros Hc. destruct z as [|p|p].
  - change (of_Z 0) with (NilZero.string_of_uint (N.to_uint 0)).
    unfold parse_number.
    change (NilZero.string_of_uint (N.to_uint 0) ++ String c r)
      with (String "0" (String c r)) at 1.
    cbn [Ascii.eqb Bool.eqb].
    change (String "0" (String c r))
      with (NilZero.string_of_uint (N.to_uint 0) ++ String c r).
    now rewrite parse_nat_literal_ok.
  - unfold of_Z.
    destruct (of_N_first_digit (Npos p)) as [c0 [s0 [E H]]].
    unfold parse_number.
    assert (Hm : Ascii.eqb c0 "-" = false).
    { destruct (Ascii.eqb_spec c0 "-") as [->|_]; [discriminate | reflexivity]. }
    pose proof (parse_nat_literal_ok (Npos p) r Hc) as P.
    rewrite E in *. cbn [append]. rewrite Hm.
    cbn [append] in P. now rewrite P.
  - unfold of_Z, parse_number. cbn [append].
    rewrite Ascii.eqb_refl.
    now rewrite (parse_nat_literal_ok (Npos p) r Hc).
Qed.

Lemma parse_value_ok (v : value) (text : string) (c : ascii) (r : string) :
  stringify_value v = Some text ->
  JSON_member_end c ->
  parse_value (text ++ String c r) = Some (v, String c r).
Proof.
  intros Hv Hc. destruct v as [| |s|z]; simpl in Hv; try discriminate;
    injection Hv as <-.
  - reflexivity.
  - unfold parse_value. rewrite parse_string_quote.
    rewrite quote_append. reflexivity.
  - unfold parse_value.
    destruct (of_Z_first z) as [c0 [s0 [E H]]].
    destruct (number_start_facts H) as [Hn [Hq _]].
    pose proof (parse_number_ok z r Hc) as P.
    rewrite E in *. cbn [append startsWith] in *.
    rewrite Hn, Hq. cbn [andb]. exact P.
Qed.

Lemma value_text_first (v : value) (text : string) :
  stringify_value v = Some text ->
  exists c s, text = String c s /\ is_ws c = false.
Proof.
  destruct v as [| |s|z]; simpl; intros H; try discriminate; injection H as <-.
  - now exists "n"%char, "ull".
  - eexists _, _. split; [reflexivity | reflexivity].
  - destruct (of_Z_first z) as [c0 [s0 [E H]]].
    exists c0, s0. split; [assumption | apply (number_start_facts H)].
Qed.

Lemma skip_ws_idem (s : string) : skip_ws (skip_ws s) = skip_ws s.
Proof.
  induction s as [|c s IH]; [reflexivity|].
  simpl. destruct (is_ws c) eqn:E; [assumption|]. simpl. now rewrite E.
Qed.

Lemma parse_member_skip (s : string) :
  parse_member (skip_ws s) = parse_member s.
Proof. unfold parse_member. now rewrite skip_ws_idem. Qed.

Lemma parse_member_text (k : string) (v : value) (vt : string)
    (c : ascii) (r : string) :
  stringify_value v = Some vt ->
  JSON_member_end c ->
  parse_member (quote k ++ ": " ++ vt ++ String c r)
  = Some ((k, v), skip_ws (String c r)).
Proof.
  intros Hv Hc. unfold parse_member.
  assert (E1 : skip_ws (quote k ++ ": " ++ vt ++ String c r)
               = quote k ++ ": " ++ vt ++ String c r)
    by (rewrite quote_append; reflexivity).
  rewrite E1, parse_string_quote.
  destruct (@value_text_first v vt Hv) as [c0 [s0 [E Hw]]].
  pose proof (@parse_value_ok v vt c r Hv Hc) as P.
  assert (E2 : skip_ws (" " ++ vt ++ String c r) = vt ++ String c r).
  { subst vt. cbn [append skip_ws is_ws Ascii.eqb Bool.eqb orb]. now rewrite Hw. }
  cbv beta iota.
  change (skip_ws (": " ++ vt ++ String c r))
    with (String ":" (" " ++ vt ++ String c r)).
  cbv beta iota.
  now rewrite E2, P.
Qed.

(** A printed member is read back as its key and value, up to the comma or
    the line feed after it. *)
Lemma parse_member_ok (e : string * value) (text : string) (c : ascii) (r : string) :
  stringify_member e = Some text ->
  JSON_member_end c ->
  parse_member (text ++ String c r) = Some (e, skip_ws (String c r)).
Proof.
  destruct e as [k v]. unfold stringify_member. cbn [fst snd].
  destruct (stringify_value v) as [vt|] eqn:Hv; [|discriminate].
  intros H Hc.
  assert (E : text = quote k ++ ": " ++ vt) by congruence.
  subst text.
  replace ((quote k ++ ": " ++ vt) ++ String c r)
    with (quote k ++ ": " ++ vt ++ String c r)
    by (now rewrite !append_assoc).
  now apply parse_member_text.
Qed.

Lemma parse_members_skip (fuel : nat) (s : string) (acc : JsObject.t) :
  parse_members fuel (skip_ws s) acc = parse_members fuel s acc.
Proof. destruct fuel; simpl; [reflexivity | now rewrite parse_member_skip]. Qed.

Lemma join_cons2 (sep t t' : string) (ts : list string) :
  join sep (t :: t' :: ts) = t ++ sep ++ join sep (t' :: ts).
Proof. reflexivity. Qed.

(** The members of a printed object are read back in order, each created
    on the object under construction. *)
Lemma parse_members_ok (ms : list (string * value)) (ts : list string) :
  Forall2 (fun e t => stringify_member e = Some t) ms ts ->
  ms <> [] ->
  forall fuel acc rest,
    length ms <= fuel ->
    parse_members fuel
      (join ("," ++ String LF "    ") ts ++ String LF ("  }" ++ rest)) acc
    = Some (fold_left member_step ms acc, rest).
Proof.
  induction 1 as [|e t ms ts He Hrest IH]; [congruence|].
  intros _ fuel acc rest Hf. destruct fuel as [|fuel]; [simpl in Hf; lia|].
  destruct Hrest as [|e' t' ms' ts' He' Hrest'].
  - cbn [join parse_members].
    rewrite (@parse_member_ok e t LF _ He) by (now right).
    destruct e as [k v]. reflexivity.
  - rewrite join_cons2, !append_assoc.
    cbn [parse_members].
    change ("," ++ String LF "    " ++ ?x)
      with (String "," (String LF ("    " ++ x))).
    rewrite (@parse_member_ok e t "," _ He) by (now left).
    destruct e as [k v].
    change (skip_ws (String "," ?x)) with (String "," x).
    cbv beta iota.
    match goal with
    | |- parse_members fuel (String LF ("    " ++ ?x)) ?a = _ =>
        rewrite <- (parse_members_skip fuel (String LF ("    " ++ x)) a);
        change (skip_ws (String LF ("    " ++ x))) with (skip_ws x);
        rewrite (parse_members_skip fuel x a)
    end.
    rewrite IH; [reflexivity | discriminate | simpl in *; lia].
Qed.

Lemma stringify_member_defined (e : string * value) :
  snd e <> VUndefined -> exists t, stringify_member e = Some t.
Proof.
  destruct e as [k v]. unfold stringify_member. simpl.
  destruct v; simpl; intros H; [congruence | eauto ..].
Qed.

Lemma filter_map_defined (o : JsObject.t) :
  defined_values o ->
  exists ts,
    Forall2 (fun e t => stringify_member e = Some t) o ts /\
    filter_map stringify_member o = ts.
Proof.
  induction 1 as [|e o He Ho [ts [H2 E]]].
  - exists []. split; [constructor | reflexivity].
  - destruct (stringify_member_defined e He) as [t Ht].
    exists (t :: ts). split; [now constructor|].
    simpl. now rewrite Ht, E.
Qed.

Lemma member_text_head (e : string * value) (t : string) :
  stringify_member e = Some t -> exists x, t = String dquote x.
Proof.
  unfold stringify_member. destruct (stringify_value (snd e)); [|discriminate].
  intros H. injection H as <-. unfold quote. simpl. eauto.
Qed.

Lemma join_head (sep t : string) (ts : list string) (c : ascii) (x tail : string) :
  t = String c x ->
  exists y, join sep (t :: ts) ++ tail = String c y.
Proof.
  intros ->. destruct ts; simpl; eauto.
Qed.

Lemma join_length (sep : string) (ts : list string) :
  Forall (fun t => 1 <= String.length t) ts ->
  length ts <= String.length (join sep ts).
Proof.
  induction 1 as [|t ts Ht Hts IH]; [simpl; lia|].
  destruct ts as [|t' ts]; [simpl in *; lia|].
  rewrite join_cons2, !length_append. simpl length in *. lia.
Qed.

Lemma members_fuel (ms : list (string * value)) (ts : list string)
    (sep tail : string) :
  Forall2 (fun e t => stringify_member e = Some t) ms ts ->
  length ms <= String.length (join sep ts ++ tail).
Proof.
  intros H. rewrite length_append.
  assert (L : length ms = length ts) by (induction H; simpl; congruence).
  assert (F : Forall (fun t => 1 <= String.length t) ts).
  { clear L. induction H as [|e t ms ts He _ IH]; constructor; [|assumption].
    destruct (member_text_head _ He) as [x ->]. simpl. lia. }
  pose proof (join_length sep F). lia.
Qed.

Lemma parse_object_members (s1 : string) (c : ascii) (x : string) :
  skip_ws s1 = String c x -> c <> "}"%char ->
  parse_object (String "{" s1)
  = parse_members (String.length (String c x)) (String c x) JsObject.empty.
Proof.
  intros E Hc. cbn [parse_object]. rewrite E.
  destruct c as [b0 b1 b2 b3 b4 b5 b6 b7].
  destruct b0, b1, b2, b3, b4, b5, b6, b7; try reflexivity.
  now destruct Hc.
Qed.

(** A printed record is read back as the record. *)
Lemma parse_object_ok (o : JsObject.t) (rest : string) :
  well_formed_record o ->
  parse_object (stringify_object "  " "  " o ++ rest) = Some (o, rest).
Proof.
  intros [Ho Hd]. unfold stringify_object.
  destruct (filter_map_defined Hd) as [ts [H2 ->]].
  destruct H2 as [|e t ms ts He Hrest]; [reflexivity|].
  unfold layout.
  change ("  " ++ "  ") with "    ".
  set (sep := "," ++ String LF "    ").
  rewrite !append_assoc.
  change ("{" ++ String LF "    " ++ ?x) with (String "{" (String LF ("    " ++ x))).
  change (String LF "  " ++ "}" ++ rest) with (String LF ("  }" ++ rest)).
  destruct (member_text_head _ He) as [x Ex].
  destruct (@join_head sep t ts dquote x (String LF ("  }" ++ rest)) Ex) as [y Ey].
  rewrite (@parse_object_members _ dquote y);
    [| change (skip_ws (String LF ("    " ++ ?x))) with (skip_ws x);
       rewrite Ey; reflexivity
     | discriminate].
  rewrite <- Ey. subst sep.
  rewrite (@parse_members_ok (e :: ms) (t :: ts)); try discriminate.
  - f_equal. f_equal.
    change (fold_left member_step (e :: ms) JsObject.empty)
      with (fold_left (fun acc e => JsObject.define (fst e) (snd e) acc)
                      (e :: ms) []).
    now rewrite define_fold_rebuild.
  - now constructor.
  - apply members_fuel. now constructor.
Qed.

Lemma stringify_object_head (stepback gap : string) (o : JsObject.t) :
  exists x, stringify_object stepback gap o = String "{" x.
Proof.
  unfold stringify_object, layout.
  destruct (filter_map stringify_member o); simpl; eauto.
Qed.

Lemma parse_elements_skip (fuel : nat) (s : string) :
  parse_elements fuel (skip_ws s) = parse_elements fuel s.
Proof. destruct fuel; simpl; [reflexivity | now rewrite skip_ws_idem]. Qed.

(** The elements of a printed array are read back in order. *)
Lemma parse_elements_ok (rows : list JsObject.t) :
  Forall well_formed_record rows ->
  rows <> [] ->
  forall fuel rest,
    length rows <= fuel ->
    parse_elements fuel
      (join ("," ++ String LF "  ") (map (stringify_object "  " "  ") rows)
         ++ String LF ("]" ++ rest))
    = Some (rows, rest).
Proof.
  induction 1 as [|o rows Ho Hrows IH]; [congruence|].
  intros _ fuel rest Hf. destruct fuel as [|fuel]; [simpl in Hf; lia|].
  destruct (stringify_object_head "  " "  " o) as [x Ex].
  destruct rows as [|o' rows].
  - cbn [map join parse_elements].
    assert (Es : skip_ws (stringify_object "  " "  " o ++ String LF ("]" ++ rest))
                 = stringify_object "  " "  " o ++ String LF ("]" ++ rest))
      by (rewrite Ex; reflexivity).
    rewrite Es, parse_object_ok by assumption. reflexivity.
  - cbn [map]. rewrite join_cons2, !append_assoc.
    change ("," ++ String LF "  " ++ ?y)
      with (String "," (String LF ("  " ++ y))).
    cbn [parse_elements].
    match goal with
    | |- context [skip_ws (stringify_object "  " "  " o ++ ?tail)] =>
        assert (Es : skip_ws (stringify_object "  " "  " o ++ tail)
                     = stringify_object "  " "  " o ++ tail)
          by (rewrite Ex; reflexivity);
        rewrite Es
    end.
    rewrite parse_object_ok by assumption.
    change (skip_ws (String "," ?y)) with (String "," y).
    cbv beta iota.
    match goal with
    | |- context [parse_elements fuel (String LF ("  " ++ ?y))] =>
        rewrite <- (parse_elements_skip fuel (String LF ("  " ++ y)));
        change (skip_ws (String LF ("  " ++ y))) with (skip_ws y);
        rewrite (parse_elements_skip fuel y)
    end.
    change (stringify_object "  " "  " o' :: map (stringify_object "  " "  ") rows)
      with (map (stringify_object "  " "  ") (o' :: rows)).
    rewrite IH; [reflexivity | discriminate | simpl in *; lia].
Qed.

Lemma elements_fuel (rows : list JsObject.t) (sep tail : string) :
  length rows
  <= String.length (join sep (map (stringify_object "  " "  ") rows) ++ tail).
Proof.
  rewrite length_append.
  assert (F : Forall (fun t => 1 <= String.length t)
                     (map (stringify_object "  " "  ") rows)).
  { apply Forall_forall. intros t Ht. apply in_map_iff in Ht.
    destruct Ht as [o [<- _]].
    destruct (stringify_object_head "  " "  " o) as [x ->]. simpl. lia. }
  pose proof (join_length sep F) as L. rewrite length_map in L. lia.
Qed.

Lemma parse_array_elements (s1 : string) (c : ascii) (x : string) :
  skip_ws s1 = String c x -> c <> "]"%char ->
  parse (String "[" s1)
  = match parse_elements (String.length (String c x)) (String c x) with
    | Some (os, rest) =>
        match skip_ws rest with
        | EmptyString => Some os
        | _ => None
        end
    | None => None
    end.
Proof.
  intros E Hc. unfold parse. cbn [skip_ws is_ws Ascii.eqb Bool.eqb orb].
  cbv beta iota. rewrite E.
  destruct c as [b0 b1 b2 b3 b4 b5 b6 b7].
  destruct b0, b1, b2, b3, b4, b5, b6, b7; try reflexivity.
  now destruct Hc.
Qed.

(** Parsing the text [JSON.stringify] prints for an array of records gives
    the records back. *)
Lemma JSON_roundtrip (rows : list JsObject.t) :
  Forall well_formed_record rows ->
  parse (stringify rows) = Some rows.
Proof.
  intros H. unfold stringify, layout.
  destruct rows as [|o rows]; [reflexivity|].
  cbn [map]. set (ts := stringify_object "  " "  " o :: _).
  change ("[" ++ String LF "  " ++ ?y ++ String LF "" ++ "]")
    with (String "[" (String LF ("  " ++ y ++ String LF ("]" ++ "")))).
  destruct (stringify_object_head "  " "  " o) as [x Ex].
  destruct (@join_head ("," ++ String LF "  ") (stringify_object "  " "  " o)
              (map (stringify_object "  " "  ") rows) "{" x
              (String LF ("]" ++ "")) Ex) as [y Ey].
  fold ts in Ey.
  rewrite (@parse_array_elements _ "{" y);
    [| change (skip_ws (String LF ("  " ++ ?z))) with (skip_ws z);
       rewrite Ey; reflexivity
     | discriminate].
  rewrite <- Ey. subst ts.
  change (stringify_object "  " "  " o :: map (stringify_object "  " "  ") rows)
    with (map (stringify_object "  " "  ") (o :: rows)).
  rewrite parse_elements_ok; [reflexivity | assumption | discriminate |].
  apply elements_fuel.
Qed.

End JsonFacts.

(* ===================================================================== *)
(** ** The records of a sheet *)
(* ===================================================================== *)

Lemma update_Forall (Q : string * value -> Prop) (k : string) (v : value)
    (o : JsObject.t) :
  Forall Q o -> Q (k, v) -> Forall Q (JsObject.update k v o).
Proof.
  intros H Hq. induction H as [|[k' v'] o Hx Ho IH]; simpl; [constructor|].
  destruct (String.eqb_spec k' k) as [->|_]; constructor; auto.
Qed.

Lemma insert_index_Forall (Q : string * value -> Prop) (n : N) (k : string)
    (v : value) (o : JsObject.t) :
  Forall Q o -> Q (k, v) -> Forall Q (JsObject.insert_index n k v o).
Proof.
  intros H Hq. induction H as [|[k' v'] o Hx Ho IH]; simpl.
  - now repeat constructor.
  - destruct (JsObject.array_index k') as [m|];
      [destruct (m <? n)%N|]; repeat constructor; auto.
Qed.

Lemma set_Forall (Q : string * value -> Prop) (k : string) (v : value)
    (o : JsObject.t) :
  Forall Q o -> Q (k, v) -> Forall Q (JsObject.set k v o).
Proof.
  intros H Hq. unfold JsObject.set, JsObject.define.
  destruct (String.eqb k "__proto__"); [assumption|].
  destruct (JsObject.has k o); [now apply update_Forall|].
  destruct (JsObject.array_index k); [now apply insert_index_Forall|].
  apply Forall_app. split; [assumption | now repeat constructor].
Qed.

Lemma nullish_defined (v : value) :
  nullish v (VString "") <> VUndefined /\ nullish v (VString "") <> VNull.
Proof. destruct v; simpl; split; discriminate. Qed.

(** The fields of a record are texts and numbers, never [undefined] or
    [null]. *)
Lemma record_of_values (headers : list string) (row : list value) :
  Forall (fun e => snd e <> VUndefined /\ snd e <> VNull) (record_of headers row).
Proof.
  unfold record_of, forEachi.
  assert (G : forall hs i acc,
             Forall (fun e => snd e <> VUndefined /\ snd e <> VNull) acc ->
             Forall (fun e => snd e <> VUndefined /\ snd e <> VNull)
               (forEachi_from
                  (fun record header index =>
                     JsObject.set header
                       (nullish (array_get row index) (VString "")) record)
                  i hs acc)).
  { induction hs as [|h hs IH]; intros i acc Hacc; simpl; [assumption|].
    apply IH. apply set_Forall; [assumption | apply nullish_defined]. }
  apply G. constructor.
Qed.

Lemma record_of_well_formed (headers : list string) (row : list value) :
  well_formed_record (record_of headers row).
Proof.
  split; [apply record_of_order|].
  unfold defined_values.
  eapply Forall_impl; [|apply record_of_values]. now intros e [H _].
Qed.

Lemma buildSheet_rows_well_formed (name : string) (rawRows : RawRows) :
  Forall well_formed_record (rows (buildSheet name rawRows)).
Proof.
  destruct rawRows as [|headerRow dataRows]; simpl; [constructor|].
  apply Forall_forall. intros r Hr. apply in_map_iff in Hr.
  destruct Hr as [row [<- _]]. apply record_of_well_formed.
Qed.

(** The shape of a normalized sheet: the counts are the lengths, and the
    keys of every record are the headers other than [__proto__]. *)
Lemma buildSheet_shape (name : string) (rawRows : RawRows) :
  let sheet := buildSheet name rawRows in
  length (headers sheet) = columnCount sheet /\
  length (rows sheet) = rowCount sheet /\
  (forall record,
     In record (rows sheet) ->
     forall key,
       In key (JsObject.keys record) <->
       In key (headers sheet) /\ key <> "__proto__").
Proof.
  destruct rawRows as [|headerRow dataRows]; simpl.
  - repeat split; intros; contradiction.
  - split; [reflexivity | split; [reflexivity|]].
    intros record Hr key. apply in_map_iff in Hr.
    destruct Hr as [row [<- _]].
    rewrite record_of_keys. apply record_keys_In.
Qed.

(** C3, on a sheet whose first header is [__proto__]: the header list has
    two entries and [columnCount] is 2, and the record of the data row has
    the single key [Name]; the assignment to [__proto__] created no
    property. *)
Theorem proto_header_missing_from_record :
  let sheet := buildSheet "Sheet1" [[VString "__proto__"; VString "Name"];
                                    [VString "x"; VString "Asha"]] in
  headers sheet = ["__proto__"; "Name"] /\
  columnCount sheet = 2 /\
  rows sheet = [[("Name", VString "Asha")]] /\
  ~ (forall record, In record (rows sheet) ->
       forall header, In header (headers sheet) ->
                      In header (JsObject.keys record)).
Proof.
  repeat split. intros H.
  specialize (H [("Name", VString "Asha")] (or_introl eq_refl)
                "__proto__" (or_introl eq_refl)).
  simpl in H. destruct H as [H | []]. discriminate.
Qed.

(** C8: the text of the JSON download is [JSON.stringify] of all the
    records of the sheet, and parsing it gives those records back, keys
    and values. *)
Theorem json_export_roundtrip (name : string) (rawRows : RawRows) :
  let sheet := buildSheet name rawRows in
  blob_text (downloadAsJson sheet) = JSON.stringify (rows sheet) /\
  JSON.parse (blob_text (downloadAsJson sheet)) = Some (rows sheet).
Proof.
  split; [reflexivity|].
  apply JSON_roundtrip, buildSheet_rows_well_formed.
Qed.

(* ===================================================================== *)
(** ** The CSV export *)
(* ===================================================================== *)

Section CsvFacts.

Import XLSX.

Lemma indexOf_None (l : list string) (k : string) :
  ~ In k l -> indexOf l k = None.
Proof.
  induction l as [|h l IH]; simpl; [reflexivity|]. intros H.
  destruct (String.eqb_spec h k) as [->|_]; [now destruct H; left|].
  rewrite IH; [reflexivity | intros Hin; apply H; now right].
Qed.

Lemma indexOf_app_fresh (pre q : list string) (k : string) :
  ~ In k pre -> indexOf (pre ++ k :: q) k = Some (length pre).
Proof.
  induction pre as [|h pre IH]; simpl; intros H.
  - now rewrite String.eqb_refl.
  - destruct (String.eqb_spec h k) as [->|_]; [now destruct H; left|].
    rewrite IH; [reflexivity | intros Hin; apply H; now right].
Qed.

Lemma NoDup_app_head (pre ks : list string) (k : string) :
  NoDup (pre ++ k :: ks) -> ~ In k pre /\ NoDup ((pre ++ [k]) ++ ks).
Proof.
  intros H. split.
  - apply NoDup_remove_2 in H. intros Hin. apply H, in_or_app. now left.
  - now rewrite <- app_assoc.
Qed.

(** A record whose keys are new to the header table appends them to it. *)
Lemma add_keys_fresh (R : nat) (JS : JsObject.t) (ks : list string) :
  forall pre cells,
    NoDup (pre ++ ks) ->
    fold_left (add_key R JS) ks (pre, cells)
    = ((pre ++ ks)%list, write_keys R JS (length pre) ks cells).
Proof.
  induction ks as [|k ks IH]; intros pre cells H; simpl.
  - now rewrite app_nil_r.
  - destruct (NoDup_app_head _ _ _ H) as [Hk H'].
    rewrite (indexOf_None _ _ Hk). rewrite IH by assumption.
    rewrite length_app, <- app_assoc. simpl.
    now rewrite Nat.add_1_r.
Qed.

(** A record whose keys are the header table leaves it as it is. *)
Lemma add_keys_present (R : nat) (JS : JsObject.t) (ks : list string) :
  forall pre cells,
    NoDup (pre ++ ks) ->
    fold_left (add_key R JS) ks ((pre ++ ks)%list, cells)
    = ((pre ++ ks)%list, write_keys R JS (length pre) ks cells).
Proof.
  induction ks as [|k ks IH]; intros pre cells H; simpl; [reflexivity|].
  destruct (NoDup_app_head _ _ _ H) as [Hk H'].
  rewrite (indexOf_app_fresh _ _ _ Hk).
  replace (pre ++ k :: ks)%list with ((pre ++ [k]) ++ ks)%list
    by (now rewrite <- app_assoc).
  rewrite IH by assumption.
  rewrite length_app. simpl. now rewrite Nat.add_1_r.
Qed.

Lemma forEachi_add_record (cols : list string) (rows : list JsObject.t) :
  NoDup cols ->
  Forall (fun JS => JsObject.keys JS = cols) rows ->
  forall R cells,
    forEachi_from add_record R rows (cols, cells)
    = (cols, write_rows R cols rows cells).
Proof.
  intros Hn H. induction H as [|JS rows HJ _ IH]; intros R cells; simpl.
  - reflexivity.
  - pose proof (add_keys_present R JS cols [] cells Hn) as E.
    cbn [app length] in E.
    unfold add_record at 2. rewrite HJ, E. apply IH.
Qed.

(** The header table and the cells after all records have been added. *)
Lemma forEachi_add_record_first (cols : list string) (JS : JsObject.t)
    (rows : list JsObject.t) :
  NoDup cols ->
  Forall (fun JS => JsObject.keys JS = cols) (JS :: rows) ->
  forEachi add_record (JS :: rows) ([], fun _ _ => None)
  = (cols, write_rows 0 cols (JS :: rows) (fun _ _ => None)).
Proof.
  intros Hn H. inversion H as [|? ? HJ Hrows]; subst.
  pose proof (add_keys_fresh 0 JS (JsObject.keys JS) []
                (fun _ _ => None) Hn) as E.
  cbn [app length] in E.
  unfold forEachi. cbn [forEachi_from write_rows]. unfold add_record at 2.
  rewrite E. now apply forEachi_add_record.
Qed.

Lemma write_cell_read (C0 R0 : nat) (cell : CellObject)
    (cells : nat -> nat -> option CellObject) (C R : nat) :
  write_cell C0 R0 cell cells C R
  = if ((C =? C0) && (R =? R0))%nat then Some cell else cells C R.
Proof. reflexivity. Qed.

Lemma write_keys_read (R : nat) (JS : JsObject.t) (ks : list string) :
  forall C0 cells C R',
    write_keys R JS C0 ks cells C R'
    = if ((R' =? R + 1) && (C0 <=? C))%nat then
        match nth_error ks (C - C0) with
        | Some k => Some (cell_of_value (JsObject.get k JS))
        | None => cells C R'
        end
      else cells C R'.
Proof.
  induction ks as [|k ks IH]; intros C0 cells C R'; cbn [write_keys].
  - destruct (_ && _); [destruct (C - C0)|]; reflexivity.
  - rewrite IH, write_cell_read.
    destruct (Nat.eqb_spec R' (R + 1)) as [HR|HR];
      destruct (Nat.leb_spec (S C0) C) as [H1|H1];
      destruct (Nat.leb_spec C0 C) as [H2|H2];
      destruct (Nat.eqb_spec C C0) as [HC|HC];
      try lia; cbn [andb]; try reflexivity.
    + replace (C - C0) with (S (C - S C0)) by lia. cbn [nth_error].
      reflexivity.
    + subst C. rewrite Nat.sub_diag. reflexivity.
Qed.

Lemma write_rows_read (cols : list string) (rows : list JsObject.t) :
  forall R0 cells C R',
    write_rows R0 cols rows cells C R'
    = if (R0 <? R')%nat then
        match nth_error rows (R' - R0 - 1) with
        | Some JS =>
            match nth_error cols C with
            | Some k => Some (cell_of_value (JsObject.get k JS))
            | None => cells C R'
            end
        | None => cells C R'
        end
      else cells C R'.
Proof.
  induction rows as [|JS rows IH]; intros R0 cells C R'; cbn [write_rows].
  - destruct (_ <? _)%nat; [destruct (R' - R0 - 1)|]; reflexivity.
  - rewrite IH, write_keys_read. rewrite Nat.sub_0_r.
    change (0 <=? C)%nat with true. rewrite andb_true_r.
    destruct (Nat.ltb_spec (S R0) R') as [H1|H1];
      destruct (Nat.ltb_spec R0 R') as [H2|H2];
      destruct (Nat.eqb_spec R' (R0 + 1)) as [HR|HR];
      try lia; try reflexivity.
    + replace (R' - R0 - 1) with (S (R' - S R0 - 1)) by lia. cbn [nth_error].
      reflexivity.
    + subst R'. replace (R0 + 1 - R0 - 1) with 0 by lia. reflexivity.
Qed.

Lemma write_headers_from_read (hdr : list string) :
  forall i cells C R,
    forEachi_from
      (fun cells h C => write_cell C 0 (mkCell T_s (VString h)) cells)
      i hdr cells C R
    = if ((R =? 0) && (i <=? C))%nat then
        match nth_error hdr (C - i) with
        | Some h => Some (mkCell T_s (VString h))
        | None => cells C R
        end
      else cells C R.
Proof.
  induction hdr as [|h hdr IH]; intros i cells C R; cbn [forEachi_from].
  - destruct (_ && _); [destruct (C - i)|]; reflexivity.
  - rewrite IH, write_cell_read.
    destruct (Nat.eqb_spec R 0) as [HR|HR];
      destruct (Nat.leb_spec (S i) C) as [H1|H1];
      destruct (Nat.leb_spec i C) as [H2|H2];
      destruct (Nat.eqb_spec C i) as [HC|HC];
      try lia; cbn [andb]; try reflexivity.
    + replace (C - i) with (S (C - S i)) by lia. cbn [nth_error].
      reflexivity.
    + subst C. rewrite Nat.sub_diag. reflexivity.
Qed.

(** Every cell of the sheet [json_to_sheet] builds from records that share
    their keys. *)
Lemma json_to_sheet_cells (cols : list string) (rows : list JsObject.t)
    (C R : nat) :
  write_headers cols (write_rows 0 cols rows (fun _ _ => None)) C R
  = sheet_cell cols rows C R.
Proof.
  unfold write_headers, forEachi.
  rewrite write_headers_from_read, write_rows_read. rewrite !Nat.sub_0_r.
  change (0 <=? C)%nat with true. rewrite andb_true_r.
  unfold sheet_cell. destruct R as [|R].
  - cbn. destruct (nth_error cols C); reflexivity.
  - change (S R =? 0)%nat with false. change (0 <? S R)%nat with true.
    cbv beta iota. replace (S R - 1) with R by lia.
    destruct (nth_error rows R); [|reflexivity].
    destruct (nth_error cols C); reflexivity.
Qed.

Lemma map_seq_nth_error {A B} (l : list A) (f : nat -> B) (g : A -> B) :
  forall a,
    (forall i x, nth_error l i = Some x -> f (a + i) = g x) ->
    map f (seq a (length l)) = map g l.
Proof.
  induction l as [|x l IH]; intros a H; simpl; [reflexivity|]. f_equal.
  - rewrite <- (Nat.add_0_r a). now apply H.
  - apply IH. intros i y Hy. rewrite Nat.add_succ_comm. now apply H.
Qed.

Lemma nth_map_nth_error {A} (g : A -> string) (l : list A) (C : nat) :
  nth C (map g l) "" = match nth_error l C with Some x => g x | None => "" end.
Proof.
  revert C; induction l as [|x l IH]; intros [|C]; simpl; auto.
Qed.

(** The fields of a row over the columns of the range are the texts of
    its cells; the range has one column even when there is no key. *)
Lemma row_fields (texts : list string) (f : nat -> string) :
  (forall C, f C = nth C texts "") ->
  join "," (map f (seq 0 (Nat.max 0 (length texts - 1) + 1))) = join "," texts.
Proof.
  intros H. destruct texts as [|t ts].
  - simpl. now rewrite H.
  - replace (Nat.max 0 (length (t :: ts) - 1) + 1) with (length (t :: ts))
      by (simpl; lia).
    rewrite (map_seq_nth_error (t :: ts) f (fun x => x) 0).
    + now rewrite map_id.
    + intros i x Hx. simpl plus. rewrite H.
      now apply nth_error_nth.
Qed.

Lemma make_csv_row_eq (cells : nat -> nat -> option CellObject)
    (e_c e_r R : nat) (texts : list string) :
  length texts - 1 = e_c - 0 ->
  (forall C, csv_text (cells C R) = nth C texts "") ->
  make_csv_row (mkWorkSheet cells (Nat.max 0 e_c) e_r) R = join "," texts.
Proof.
  intros Hl H. unfold make_csv_row. cbn [cell_at range_e_c].
  rewrite Nat.sub_0_r in Hl. rewrite <- Hl. now apply row_fields.
Qed.

Lemma get_keys_values (JS : JsObject.t) :
  NoDup (JsObject.keys JS) ->
  map (fun k => JsObject.get k JS) (JsObject.keys JS) = JsObject.values JS.
Proof.
  induction JS as [|[k v] JS IH]; simpl; intros H; [reflexivity|].
  inversion H as [|? ? Hk Hn]; subst. f_equal.
  - unfold JsObject.get. simpl. now rewrite String.eqb_refl.
  - rewrite <- IH by assumption. apply map_ext_in. intros k' Hk'.
    unfold JsObject.get. simpl.
    destruct (String.eqb_spec k k') as [->|_]; [contradiction | reflexivity].
Qed.

Lemma header_row_text (cols : list string) (rows : list JsObject.t) (C : nat) :
  csv_text (sheet_cell cols rows C 0) = nth C (map csv_field cols) "".
Proof.
  rewrite nth_map_nth_error. simpl.
  destruct (nth_error cols C); reflexivity.
Qed.

Lemma record_row_text (cols : list string) (rows : list JsObject.t)
    (R : nat) (JS : JsObject.t) (C : nat) :
  nth_error rows R = Some JS ->
  csv_text (sheet_cell cols rows C (S R))
  = nth C (map (fun k => csv_value (JsObject.get k JS)) cols) "".
Proof.
  intros H. rewrite nth_map_nth_error. simpl. rewrite H.
  destruct (nth_error cols C); reflexivity.
Qed.

(** The CSV text of records that share their keys: the line of the keys,
    then the line of each record. *)
Lemma csv_of_records (cols : list string) (JS : JsObject.t)
    (rows : list JsObject.t) :
  NoDup cols ->
  Forall (fun JS => JsObject.keys JS = cols) (JS :: rows) ->
  sheet_to_csv (json_to_sheet (JS :: rows))
  = join (String JSON.LF "")
         (csv_header_line cols :: map csv_record_line (JS :: rows)).
Proof.
  intros Hn H. unfold json_to_sheet.
  rewrite (forEachi_add_record_first Hn H).
  set (all := JS :: rows) in *.
  unfold sheet_to_csv. cbn [range_e_r].
  replace (length all + 1) with (S (length all)) by lia.
  cbn [seq map]. f_equal. f_equal.
  - rewrite (@make_csv_row_eq _ _ _ 0 (map csv_field cols)).
    + reflexivity.
    + rewrite length_map. lia.
    + intros C. rewrite json_to_sheet_cells. apply header_row_text.
  - apply map_seq_nth_error. intros i r Hr.
    rewrite Forall_forall in H.
    assert (Hk : JsObject.keys r = cols)
      by (apply H; eapply nth_error_In; eassumption).
    cbn [plus].
    rewrite (@make_csv_row_eq _ _ _ (S i)
               (map (fun k => csv_value (JsObject.get k r)) cols)).
    + unfold csv_record_line. rewrite <- (get_keys_values r) by (now rewrite Hk).
      rewrite Hk, map_map. reflexivity.
    + rewrite length_map. lia.
    + intros C. rewrite json_to_sheet_cells. now apply record_row_text.
Qed.

(** The quoting of the writer is standard CSV quoting. *)
Lemma needs_quotes_special (c : ascii) : needs_quotes c = csv_special c.
Proof.
  unfold needs_quotes, csv_special, JSON.LF. cbn [existsb].
  destruct (Ascii.eqb c ","), (Ascii.eqb c "010"), (Ascii.eqb c JSON.dquote);
    reflexivity.
Qed.

Lemma any_char_special (text : string) :
  any_char needs_quotes text = existsb csv_special (list_ascii_of_string text).
Proof.
  induction text as [|c text IH]; [reflexivity|].
  cbn [any_char list_ascii_of_string existsb].
  now rewrite IH, needs_quotes_special.
Qed.

Lemma csv_escaped_cons (c : ascii) (text : string) :
  csv_escaped (String c text)
  = (if Ascii.eqb c JSON.dquote
     then String JSON.dquote (String JSON.dquote "")
     else String c "") ++ csv_escaped text.
Proof. reflexivity. Qed.

Lemma double_quotes_escaped (text : string) :
  double_quotes text = csv_escaped text.
Proof.
  induction text as [|c text IH]; [reflexivity|].
  rewrite csv_escaped_cons. cbn [double_quotes]. rewrite IH.
  destruct (Ascii.eqb c JSON.dquote); reflexivity.
Qed.

Lemma quoted_csv_quoted (text : string) : quoted text = csv_quoted text.
Proof. unfold quoted, csv_quoted. now rewrite double_quotes_escaped. Qed.

Lemma csv_field_encode (text : string) : csv_field text = csv_encode text.
Proof.
  unfold csv_field, csv_encode.
  rewrite any_char_special, !quoted_csv_quoted.
  destruct (existsb csv_special (list_ascii_of_string text)) eqn:E;
    cbn [orb].
  - reflexivity.
  - destruct (String.eqb_spec text "ID") as [->|_]; reflexivity.
Qed.

Lemma csv_value_encode (v : value) : csv_value v = csv_encode (field_text v).
Proof.
  destruct v; unfold csv_value; cbn; try reflexivity; apply csv_field_encode.
Qed.

(** A quoted field reads back as the text. *)
Lemma csv_unescape_escaped (text : string) :
  csv_unescape (csv_escaped text ++ String JSON.dquote "") = Some text.
Proof.
  induction text as [|c text IH]; [reflexivity|].
  rewrite csv_escaped_cons.
  destruct (Ascii.eqb c JSON.dquote) eqn:E.
  - apply Ascii.eqb_eq in E. subst c.
    cbn [append csv_unescape]. rewrite !Ascii.eqb_refl, IH. reflexivity.
  - cbn [append csv_unescape]. rewrite E, IH. reflexivity.
Qed.

Lemma csv_decode_encode (text : string) :
  csv_decode (csv_encode text) = Some text.
Proof.
  unfold csv_encode.
  destruct (existsb csv_special (list_ascii_of_string text)
            || String.eqb text "ID") eqn:E.
  - unfold csv_quoted. cbn [append csv_decode].
    rewrite Ascii.eqb_refl. apply csv_unescape_escaped.
  - apply orb_false_iff in E. destruct E as [E _].
    destruct text as [|c text]; [reflexivity|]. cbn [csv_decode].
    rewrite E.
    cbn [list_ascii_of_string existsb] in E. apply orb_false_iff in E.
    destruct E as [E _]. unfold csv_special in E. cbn [existsb] in E.
    destruct (Ascii.eqb c JSON.dquote); [|reflexivity].
    now rewrite !orb_true_r in E.
Qed.

(** A text with a comma, a line feed or a quote is written quoted. *)
Lemma csv_encode_special (text : string) (c : ascii) :
  In c (list_ascii_of_string text) -> csv_special c = true ->
  csv_encode text = csv_quoted text.
Proof.
  intros Hin Hc. unfold csv_encode.
  replace (existsb csv_special (list_ascii_of_string text)) with true;
    [reflexivity|].
  symmetry. apply existsb_exists. now exists c.
Qed.

Lemma csv_lines_table (cols : list string) (rows : list JsObject.t) :
  join (String JSON.LF "")
       (csv_header_line cols :: map csv_record_line rows)
  = csv_table (record_table cols rows).
Proof.
  unfold csv_table, record_table. cbn [map]. f_equal. f_equal.
  - unfold csv_header_line. f_equal. apply map_ext. apply csv_field_encode.
  - rewrite map_map. apply map_ext. intros record.
    unfold csv_record_line. f_equal. rewrite map_map.
    apply map_ext. apply csv_value_encode.
Qed.

Lemma FOP_key_before_NoDup (l : list string) :
  ForallOrdPairs key_before l -> NoDup l.
Proof.
  induction 1 as [|a l Ha _ IH]; constructor; [|assumption].
  intros Hin. rewrite Forall_forall in Ha.
  exact (key_before_neq (Ha a Hin) eq_refl).
Qed.

Lemma record_keys_NoDup (headers : list string) : NoDup (record_keys headers).
Proof.
  rewrite <- (record_of_keys headers []).
  apply FOP_key_before_NoDup, record_of_order.
Qed.

Lemma record_keys_plain_gen (hs : list string) :
  forall acc,
    NoDup (acc ++ hs) -> Forall plain_header hs ->
    fold_left (fun ks header => key_set header ks) hs acc = (acc ++ hs)%list.
Proof.
  induction hs as [|h hs IH]; intros acc Hn Hp; simpl.
  - now rewrite app_nil_r.
  - inversion Hp as [|? ? [Hi Hproto] Hp']; subst.
    destruct (NoDup_app_head _ _ _ Hn) as [Hk Hn'].
    unfold key_set at 2. apply String.eqb_neq in Hproto. rewrite Hproto.
    unfold key_define. rewrite Hi.
    assert (E : existsb (fun k' => String.eqb k' h) acc = false).
    { apply not_true_iff_false. intros E. apply existsb_exists in E.
      destruct E as [x [Hx Ex]]. apply String.eqb_eq in Ex. now subst. }
    rewrite E, IH by assumption. now rewrite <- app_assoc.
Qed.

(** Distinct headers that are neither array indices nor [__proto__] are
    the keys of every record, in header order. *)
Lemma record_keys_plain (headers : list string) :
  NoDup headers -> Forall plain_header headers ->
  record_keys headers = headers.
Proof. intros Hn Hp. now apply (@record_keys_plain_gen headers []). Qed.

End CsvFacts.

Lemma buildSheetData_In (workbook : WorkBook) (sheet : SheetRows) :
  In sheet (buildSheetData workbook) ->
  exists name rawRows, sheet = buildSheet name rawRows.
Proof.
  unfold buildSheetData. intros H. apply in_map_iff in H.
  destruct H as [name [<- _]]. eauto.
Qed.

(** The CSV text of a normalized sheet: empty without records; otherwise
    the line of the record keys and a line per record. *)
Lemma buildSheet_csv (name : string) (rawRows : RawRows) :
  let sheet := buildSheet name rawRows in
  (rows sheet = [] -> blob_text (downloadAsCsv sheet) = "") /\
  (rows sheet <> [] ->
     blob_text (downloadAsCsv sheet)
     = join (String JSON.LF "")
            (csv_header_line (record_keys (headers sheet))
               :: map csv_record_line (rows sheet))).
Proof.
  intros sheet. split.
  - intros E. unfold downloadAsCsv. rewrite E. reflexivity.
  - intros Hne. subst sheet.
    destruct rawRows as [|headerRow dataRows]; [now destruct Hne|].
    cbn [buildSheet rows headers] in *.
    destruct dataRows as [|row dataRows]; [now destruct Hne|].
    unfold downloadAsCsv. cbn [rows blob_text map].
    apply csv_of_records; [apply record_keys_NoDup|].
    apply Forall_forall. intros r Hr.
    change (record_of (mapi header_of headerRow) row
              :: map (record_of (mapi header_of headerRow)) dataRows)
      with (map (record_of (mapi header_of headerRow)) (row :: dataRows)) in Hr.
    apply in_map_iff in Hr. destruct Hr as [x [<- _]]. apply record_of_keys.
Qed.

(** C2, as stated, fails: a sheet with headers and no data row exports the
    empty text, without a header line; a duplicated header gives a single
    column; a header that is an array index moves to the front. *)
Lemma csv_export_loses_header_row :
  let sheet := buildSheet "Sheet1" [[VString "Name"; VString "Age"]] in
  let dup := buildSheet "Sheet2" [[VString "A"; VString "A"];
                                  [VString "1"; VString "2"]] in
  let year := buildSheet "Sheet3" [[VString "Name"; VString "2024"];
                                   [VString "Asha"; VString "7"]] in
  (headers sheet = ["Name"; "Age"] /\
   blob_text (downloadAsCsv sheet) = "" /\
   blob_text (downloadAsCsv sheet) <> csv_header_line (headers sheet)) /\
  (headers dup = ["A"; "A"] /\
   blob_text (downloadAsCsv dup) = "A
2") /\
  (headers year = ["Name"; "2024"] /\
   blob_text (downloadAsCsv year) = "2024,Name
7,Asha").
Proof.
  repeat split. discriminate.
Qed.

(** C2, as the code has it: the CSV download of a sheet with at least one
    record is the table of the record keys and of the texts of each
    record (the text of a field, the digits of a number), fields joined
    by commas and lines by line feeds, in standard CSV quoting: a text
    that holds a comma, a line feed or a quote is written between quotes
    with its quotes doubled, every other text but [ID] as it is, and each
    field reads back as its text.  Every record has the same keys, each
    header other than [__proto__] once, and its fields are listed in
    that order; the keys are the headers in header order when the
    headers are distinct and none is an array index or [__proto__].
    Without data rows the download is the empty text. *)
Theorem csv_export (name : string) (headerRow : list value) (dataRows : RawRows) :
  let sheet := buildSheet name (headerRow :: dataRows) in
  let columns := record_keys (headers sheet) in
  let q := String JSON.dquote "" in
  (dataRows = [] -> blob_text (downloadAsCsv sheet) = "") /\
  (dataRows <> [] ->
     blob_text (downloadAsCsv sheet)
     = csv_table (record_table columns (rows sheet))) /\
  (forall record,
     In record (rows sheet) ->
     JsObject.keys record = columns /\
     JsObject.values record
     = map (fun key => JsObject.get key record) columns) /\
  NoDup columns /\
  (forall key,
     In key columns <-> In key (headers sheet) /\ key <> "__proto__") /\
  (NoDup (headers sheet) -> Forall plain_header (headers sheet) ->
     columns = headers sheet) /\
  (forall text, csv_decode (csv_encode text) = Some text) /\
  (forall text c,
     In c (list_ascii_of_string text) ->
     c = ","%char \/ c = JSON.LF \/ c = JSON.dquote ->
     csv_encode text = q ++ csv_escaped text ++ q) /\
  blob_text (downloadAsCsv
    (buildSheet name
       [[VString "Name"; VString "City"; VString "Note"];
        [VString "Asha"; VString "Delhi, IN"; VString ("said " ++ q ++ "hi" ++ q)];
        [VString "Ravi"; VNumber 7];
        [VString "ID"; VString "two
lines"; VString "Büro"]]))
  = "Name,City,Note
Asha," ++ q ++ "Delhi, IN" ++ q ++ "," ++ q ++ "said " ++ q ++ q ++ "hi"
      ++ q ++ q ++ q ++ "
Ravi,7,
" ++ q ++ "ID" ++ q ++ "," ++ q ++ "two
lines" ++ q ++ ",Büro".
Proof.
  intros sheet columns q.
  destruct (buildSheet_csv name (headerRow :: dataRows)) as [H0 H1].
  split; [|split; [|split; [|split; [|split; [|split; [|split; [|split]]]]]]];
    [| | | apply record_keys_NoDup | intros key; apply record_keys_In
     | apply record_keys_plain | apply csv_decode_encode | | reflexivity].
  - intros ->. apply H0. reflexivity.
  - intros Hne. rewrite <- csv_lines_table. apply H1.
    subst sheet. cbn [buildSheet rows].
    destruct dataRows; [now destruct Hne | discriminate].
  - intros record Hr. subst sheet columns. cbn [buildSheet rows headers] in *.
    apply in_map_iff in Hr. destruct Hr as [x [<- _]].
    split; [apply record_of_keys|].
    rewrite <- (record_of_keys (mapi header_of headerRow) x).
    symmetry. apply get_keys_values.
    rewrite record_of_keys. apply record_keys_NoDup.
  - intros text c Hin Hc. apply (@csv_encode_special text c Hin).
    destruct Hc as [-> | [-> | ->]]; reflexivity.
Qed.

Lemma csv_export_witness :
  blob_text (downloadAsCsv
    (buildSheet "Cities"
       [[VString "Name"; VString "City"];
        [VString "Asha"; VString "Delhi, IN"];
        [VString "Ravi"]]))
  = csv_table [["Name"; "City"]; ["Asha"; "Delhi, IN"]; ["Ravi"; ""]].
Proof.
  refine (proj1 (proj2 (csv_export "Cities" [VString "Name"; VString "City"]
                          [[VString "Asha"; VString "Delhi, IN"];
                           [VString "Ravi"]])) _).
  discriminate.
Defined.

(* ===================================================================== *)
(** ** Preview and export together *)
(* ===================================================================== *)

Lemma firstn_In {A} (n : nat) (l : list A) (x : A) :
  In x (firstn n l) -> In x l.
Proof.
  intros H. rewrite <- (firstn_skipn n l). apply in_or_app. now left.
Qed.

Lemma filteredRows_In (st : UIState) (sheet : SheetRows) (row : JsObject.t) :
  currentSheet st = Some sheet ->
  In row (filteredRows st) -> In row (rows sheet).
Proof.
  intros Hc. unfold filteredRows, slice0. rewrite Hc.
  destruct (String.eqb (searchTerm st) ""); intros H; apply firstn_In in H.
  - assumption.
  - now apply filter_In in H.
Qed.

Lemma filteredRows_length (st : UIState) :
  length (filteredRows st) <= 200.
Proof.
  unfold filteredRows, slice0. destruct (currentSheet st); [|simpl; lia].
  destruct (String.eqb (searchTerm st) ""); apply firstn_le_length.
Qed.

(** C7: the search term is the only state the filter box writes; the
    preview rows are rows of the active sheet, at most 200 of them; the
    downloads are computed from all the records of the active sheet and
    are the same whatever the search term: the JSON text parses back to
    every record and the CSV text has a line for every record.  With 500
    records and an empty term the preview has 200 rows. *)
Theorem export_ignores_preview
    (st : UIState) (workbook : WorkBook) (sheet : SheetRows) :
  selectedSheets st = buildSheetData workbook ->
  currentSheet st = Some sheet ->
  (forall term,
     selectedSheets (setSearchTerm term st) = selectedSheets st /\
     currentSheet (setSearchTerm term st) = Some sheet /\
     onClickJson (setSearchTerm term st) = onClickJson st /\
     onClickCsv (setSearchTerm term st) = onClickCsv st) /\
  (forall term row,
     In row (filteredRows (setSearchTerm term st)) -> In row (rows sheet)) /\
  (forall term, length (filteredRows (setSearchTerm term st)) <= 200) /\
  onClickJson st = Some (downloadAsJson sheet) /\
  onClickCsv st = Some (downloadAsCsv sheet) /\
  JSON.parse (blob_text (downloadAsJson sheet)) = Some (rows sheet) /\
  (rows sheet <> [] ->
   exists header_line,
     blob_text (downloadAsCsv sheet)
     = join (String JSON.LF "")
            (header_line :: map csv_record_line (rows sheet))) /\
  (length (rows sheet) = 500 ->
   length (filteredRows (setSearchTerm "" st)) = 200).
Proof.
  intros Hs Hc.
  assert (Hin : In sheet (buildSheetData workbook)).
  { rewrite <- Hs. unfold currentSheet in Hc. eapply nth_error_In; eassumption. }
  destruct (buildSheetData_In _ _ Hin) as [name [rawRows ->]].
  repeat split.
  - assumption.
  - intros term row. now apply filteredRows_In.
  - intros term. apply filteredRows_length.
  - unfold onClickJson. now rewrite Hc.
  - unfold onClickCsv. now rewrite Hc.
  - apply JSON_roundtrip, buildSheet_rows_well_formed.
  - intros Hne. eexists.
    exact (proj2 (buildSheet_csv name rawRows) Hne).
  - intros H500. unfold filteredRows.
    change (currentSheet (setSearchTerm "" st)) with (currentSheet st).
    rewrite Hc. cbn [searchTerm setSearchTerm String.eqb].
    unfold slice0, maxRowsPreview. rewrite length_firstn, H500. reflexivity.
Qed.

Lemma export_ignores_preview_witness :
  length (filteredRows (setSearchTerm "" big_state)) = 200 /\
  (exists sheet,
     currentSheet big_state = Some sheet /\
     length (rows sheet) = 500 /\
     JSON.parse (blob_text (downloadAsJson sheet)) = Some (rows sheet)).
Proof.
  pose (sheet := buildSheet "Big"
                   ([VString "Id"; VString "City"]
                      :: map (fun i => [VNumber (Z.of_nat i); VString "Delhi"])
                             (seq 1 500))).
  assert (Hs : selectedSheets big_state = buildSheetData big_workbook)
    by reflexivity.
  assert (Hc : currentSheet big_state = Some sheet) by reflexivity.
  assert (H500 : length (rows sheet) = 500) by (vm_compute; reflexivity).
  pose proof (export_ignores_preview big_state big_workbook Hs Hc) as H.
  split.
  - apply H. exact H500.
  - exists sheet. split; [exact Hc | split; [exact H500 | apply H]].
Defined.

(* ===================================================================== *)
(** * Further properties of the page *)
(* ===================================================================== *)

(** ** Normalization, sheet by sheet *)

(** X1: the sheet list follows the workbook: one sheet per sheet name, in
    order and under that name; every decoded row after the first is one
    record, and the first row gives the number of columns. *)
Theorem sheets_follow_workbook (workbook : WorkBook) :
  map name (buildSheetData workbook) = SheetNames workbook /\
  (forall index sheetName,
     nth_error (SheetNames workbook) index = Some sheetName ->
     exists sheet,
       nth_error (buildSheetData workbook) index = Some sheet /\
       name sheet = sheetName /\
       rowCount sheet = length (sheet_to_json (Sheets workbook sheetName)) - 1 /\
       columnCount sheet
       = length (hd [] (sheet_to_json (Sheets workbook sheetName))) /\
       length (rows sheet) = rowCount sheet /\
       length (headers sheet) = columnCount sheet).
Proof.
  unfold buildSheetData. split.
  - rewrite map_map. rewrite <- (map_id (SheetNames workbook)) at 2.
    apply map_ext. intros n.
    destruct (sheet_to_json (Sheets workbook n)); reflexivity.
  - intros index sheetName H. eexists. split.
    + rewrite nth_error_map, H. reflexivity.
    + destruct (sheet_to_json (Sheets workbook sheetName)) as [|headerRow dataRows];
        cbn [buildSheet name rowCount columnCount rows headers length hd].
      * repeat split.
      * unfold mapi. rewrite length_map, mapi_from_length.
        repeat split. lia.
Qed.

Section RecordFacts.

Import JsObject.

Lemma get_update_same (k : string) (v : value) (o : t) :
  has k o = true -> get k (update k v o) = v.
Proof.
  unfold get. induction o as [|[k' v'] o IH]; simpl; [discriminate|].
  destruct (String.eqb_spec k' k) as [->|Hne]; simpl.
  - now rewrite String.eqb_refl.
  - intros H. apply String.eqb_neq in Hne. rewrite Hne. now apply IH.
Qed.

Lemma get_update_other (k k' : string) (v : value) (o : t) :
  k' <> k -> get k' (update k v o) = get k' o.
Proof.
  intros Hne. unfold get. induction o as [|[k0 v0] o IH]; simpl; [reflexivity|].
  destruct (String.eqb_spec k0 k) as [->|H0]; simpl.
  - apply not_eq_sym in Hne. apply String.eqb_neq in Hne. now rewrite Hne.
  - destruct (String.eqb k0 k'); [reflexivity | assumption].
Qed.

Lemma get_insert_index_same (n : N) (k : string) (v : value) (o : t) :
  has k o = false -> get k (insert_index n k v o) = v.
Proof.
  unfold get. induction o as [|[k' v'] o IH]; simpl.
  - now rewrite String.eqb_refl.
  - intros H. apply orb_false_iff in H. destruct H as [Hk Ho].
    destruct (array_index k') as [m|]; [destruct (m <? n)%N|]; simpl;
      rewrite ?Hk, ?String.eqb_refl; auto.
Qed.

Lemma get_insert_index_other (n : N) (k k' : string) (v : value) (o : t) :
  k' <> k -> get k' (insert_index n k v o) = get k' o.
Proof.
  intros Hne. apply not_eq_sym in Hne. apply String.eqb_neq in Hne.
  unfold get. induction o as [|[k0 v0] o IH]; simpl.
  - now rewrite Hne.
  - destruct (array_index k0) as [m|]; [destruct (m <? n)%N|]; simpl;
      rewrite ?Hne; try reflexivity.
    destruct (String.eqb k0 k'); [reflexivity | assumption].
Qed.

Lemma get_app_last (k k' : string) (v : value) (o : t) :
  has k o = false ->
  get k' (o ++ [(k, v)])%list = if String.eqb k k' then v else get k' o.
Proof.
  unfold get. induction o as [|[k0 v0] o IH]; simpl.
  - destruct (String.eqb k k'); reflexivity.
  - intros H. apply orb_false_iff in H. destruct H as [Hk Ho].
    destruct (String.eqb_spec k0 k') as [->|Hne].
    + rewrite String.eqb_sym, Hk. reflexivity.
    + now apply IH.
Qed.

(** Reading a property after an assignment: the assigned value under the
    assigned key, the old value under any other. *)
Lemma get_set (k k' : string) (v : value) (o : t) :
  k <> "__proto__" ->
  get k' (set k v o) = if String.eqb k k' then v else get k' o.
Proof.
  intros Hp. unfold set. apply String.eqb_neq in Hp. rewrite Hp.
  unfold define. destruct (String.eqb_spec k k') as [<-|Hne].
  - destruct (has k o) eqn:Hh; [now apply get_update_same|].
    destruct (array_index k); [now apply get_insert_index_same|].
    rewrite get_app_last by assumption. now rewrite String.eqb_refl.
  - apply not_eq_sym in Hne.
    destruct (has k o) eqn:Hh; [now apply get_update_other|].
    destruct (array_index k); [now apply get_insert_index_other|].
    rewrite get_app_last by assumption.
    apply not_eq_sym in Hne. apply String.eqb_neq in Hne. now rewrite Hne.
Qed.

Lemma get_set_proto (k' : string) (v : value) (o : t) :
  get k' (set "__proto__" v o) = get k' o.
Proof. reflexivity. Qed.

Lemma get_forEachi_absent (row : list value) (h : string) (hs : list string) :
  ~ In h hs ->
  forall off acc,
    get h (forEachi_from
             (fun record header index =>
                set header (nullish (array_get row index) (VString "")) record)
             off hs acc)
    = get h acc.
Proof.
  induction hs as [|x hs IH]; intros Hn off acc; cbn [forEachi_from];
    [reflexivity|].
  rewrite IH by (intros Hin; apply Hn; now right).
  destruct (String.eqb_spec x "__proto__") as [->|Hp]; [reflexivity|].
  rewrite get_set by assumption.
  destruct (String.eqb_spec x h) as [->|_]; [|reflexivity].
  destruct Hn. now left.
Qed.

Lemma get_forEachi_last (row : list value) (h : string) :
  h <> "__proto__" ->
  forall hs off acc i,
    nth_error hs i = Some h ->
    (forall j, i < j -> nth_error hs j <> Some h) ->
    get h (forEachi_from
             (fun record header index =>
                set header (nullish (array_get row index) (VString "")) record)
             off hs acc)
    = nullish (array_get row (off + i)) (VString "").
Proof.
  intros Hp. induction hs as [|x hs IH]; intros off acc i Hi Hlast.
  - destruct i; discriminate.
  - cbn [forEachi_from]. destruct i as [|i].
    + injection Hi as ->.
      rewrite get_forEachi_absent.
      * rewrite get_set by assumption. rewrite String.eqb_refl.
        now rewrite Nat.add_0_r.
      * intros Hin. apply In_nth_error in Hin. destruct Hin as [j Hj].
        apply (Hlast (S j)); [lia | exact Hj].
    + rewrite (IH (S off) _ i); [f_equal; f_equal; lia | exact Hi |].
      intros j Hj. apply (Hlast (S j)). lia.
Qed.

End RecordFacts.

(** X2: the field a record holds under a header is the cell of the last
    column with that header, an absent or null cell read as the empty
    text; this covers rows shorter than the header row and repeated
    headers. *)
Theorem record_field_is_last_column
    (headers : list string) (row : list value) (header : string) (index : nat) :
  header <> "__proto__" ->
  nth_error headers index = Some header ->
  (forall later, index < later -> nth_error headers later <> Some header) ->
  JsObject.get header (record_of headers row)
  = nullish (array_get row index) (VString "") /\
  (length row <= index ->
   JsObject.get header (record_of headers row) = VString "").
Proof.
  intros Hp Hi Hlast.
  assert (E : JsObject.get header (record_of headers row)
              = nullish (array_get row index) (VString "")).
  { unfold record_of, forEachi.
    now rewrite (@get_forEachi_last row header Hp headers 0 JsObject.empty index). }
  split; [exact E|].
  intros Hshort. rewrite E. unfold array_get.
  apply nth_error_None in Hshort. now rewrite Hshort.
Qed.

Lemma record_field_is_last_column_witness :
  JsObject.get "A" (record_of ["A"; "B"; "A"] [VString "1"; VString "2"; VString "3"])
  = VString "3" /\
  JsObject.get "B" (record_of ["A"; "B"] [VString "1"]) = VString "".
Proof.
  split.
  - refine (proj1 (@record_field_is_last_column ["A"; "B"; "A"]
                     [VString "1"; VString "2"; VString "3"] "A" 2 _ _ _)).
    + discriminate.
    + reflexivity.
    + intros [|[|[|later]]] H; try lia; destruct later; discriminate.
  - refine (proj2 (@record_field_is_last_column ["A"; "B"]
                     [VString "1"] "B" 1 _ _ _) _).
    + discriminate.
    + reflexivity.
    + intros [|[|later]] H; try lia; destruct later; discriminate.
    + simpl. lia.
Defined.

Lemma forEachi_from_ext {A St} (f g : St -> A -> nat -> St) (l : list A) :
  forall off acc,
    (forall a x i, off <= i < off + length l -> f a x i = g a x i) ->
    forEachi_from f off l acc = forEachi_from g off l acc.
Proof.
  induction l as [|x l IH]; intros off acc H; cbn [forEachi_from];
    [reflexivity|].
  rewrite H by (simpl; lia). apply IH.
  intros a y i Hi. apply H. simpl. lia.
Qed.

(** A record depends on its row through the cells under the headers only,
    each read with [?? ""]. *)
Lemma record_of_ext (headers : list string) (row row' : list value) :
  (forall index, index < length headers ->
     nullish (array_get row index) (VString "")
     = nullish (array_get row' index) (VString "")) ->
  record_of headers row = record_of headers row'.
Proof.
  intros H. unfold record_of, forEachi. apply forEachi_from_ext.
  intros a x i Hi. rewrite H by lia. reflexivity.
Qed.

(** X3: cells beyond the width of the header row never reach a record,
    and a row that stops early gives the record of the row filled up with
    empty texts. *)
Theorem record_of_truncates_and_pads
    (headers : list string) (row : list value) (padding : nat) :
  record_of headers row = record_of headers (firstn (length headers) row) /\
  record_of headers row
  = record_of headers (row ++ repeat (VString "") padding).
Proof.
  split; apply record_of_ext; intros index Hi; unfold array_get.
  - rewrite nth_error_firstn.
    destruct (Nat.ltb_spec index (length headers)); [reflexivity | lia].
  - destruct (Nat.lt_ge_cases index (length row)) as [Hlt|Hge].
    + now rewrite nth_error_app1.
    + rewrite nth_error_app2 by assumption.
      pose proof (proj2 (nth_error_None row index) Hge) as E. rewrite E.
      destruct (nth_error (repeat (VString "") padding) (index - length row))
        as [v|] eqn:Ev; [|reflexivity].
      apply nth_error_In, repeat_spec in Ev. now subst.
Qed.

Lemma mapi_from_In {A B} (f : A -> nat -> B) (l : list A) (y : B) :
  forall off, In y (mapi_from f off l) -> exists x i, y = f x i.
Proof.
  induction l as [|x l IH]; intros off; simpl; [contradiction|].
  intros [<- | H]; [eauto | eapply IH; eassumption].
Qed.

(** X4: every header of a normalized sheet is a non-empty text that
    neither starts nor ends with a white-space character, the no-break
    space and the other spaces beyond ASCII included; trimming it again
    changes nothing. *)
Theorem headers_are_trimmed_and_nonempty
    (name : string) (rawRows : RawRows) (header : string) :
  In header (headers (buildSheet name rawRows)) ->
  header <> "" /\
  (forall w rest, In w white_space -> header <> w ++ rest) /\
  (forall w rest, In w white_space -> header <> rest ++ w) /\
  trim header = header.
Proof.
  destruct rawRows as [|headerRow dataRows]; cbn [buildSheet headers];
    [contradiction|].
  intros H. apply mapi_from_In in H. destruct H as [cell [index ->]].
  destruct (header_of_trimmed cell index) as [H1 [H2 H3]].
  repeat split; try assumption. now apply trim_id.
Qed.

Lemma headers_are_trimmed_and_nonempty_witness :
  "Full name" <> "" /\
  (forall w rest, In w white_space -> "Full name" <> w ++ rest) /\
  (forall w rest, In w white_space -> "Full name" <> rest ++ w) /\
  trim "Full name" = "Full name".
Proof.
  apply (@headers_are_trimmed_and_nonempty "S"
           [[VString (utf8s [0xA0; 0x20]%N ++ "Full name"
                        ++ utf8s [0x3000; 0xFEFF; 0x9]%N);
             VNull]] "Full name").
  simpl. now left.
Defined.

(** X5: the labels made for empty header cells differ from column to
    column; they are not set apart from the texts of the sheet, so a
    header cell that reads [Column n] takes the label of an empty cell in
    column n. *)
Theorem column_labels
    (i j : nat) :
  (column_label i = column_label j -> i = j) /\
  (header_of (VString "") i = column_label i) /\
  (header_of (VString (column_label i)) j = header_of (VString "") i).
Proof.
  split; [apply column_label_inj | split; [reflexivity|]].
  unfold header_of at 1. cbn [toString_opt option_map].
  rewrite trim_column_label. unfold column_label at 1. reflexivity.
Qed.

(* ===================================================================== *)
(** ** Uploads *)
(* ===================================================================== *)

Lemma ci_eq_refl (s : string) : ci_eq s s.
Proof. induction s; constructor; auto. Qed.

(** X6: a file passes the type check exactly when its name ends, letter
    case aside, with one of the four extensions; so any spelling of an
    allowed extension after any stem passes, the bare extension
    included. *)
Theorem file_type_accepted (file : File) :
  (isValidFileType file = true <->
   exists extension,
     In extension allowedExtensions /\ ci_suffix extension (file_name file)) /\
  (forall stem extension written size,
     In extension allowedExtensions -> ci_eq written extension ->
     isValidFileType (mkFile (stem ++ written) size) = true).
Proof.
  split; [apply isValidFileType_iff|].
  intros stem extension written size Hin Hci.
  apply isValidFileType_iff. exists extension. split; [assumption|].
  exists stem, written. split; [reflexivity | assumption].
Qed.

Lemma buildSheetData_nil (workbook : WorkBook) :
  buildSheetData workbook = [] <-> SheetNames workbook = [].
Proof.
  unfold buildSheetData. destruct (SheetNames workbook); simpl; split;
    congruence.
Qed.

(** X7: once the file is read and decoded, the upload succeeds exactly
    when the workbook names at least one sheet, whatever the sheets hold;
    a successful upload replaces the workbook wholesale: of the state
    before it only the search term is left. *)
Theorem successful_upload_replaces_workbook
    (env : Collaborators) (file : File) (files : list File)
    (st other : UIState) (buffer : ArrayBuffer) (workbook : WorkBook) :
  isValidFileType file = true ->
  FileReader_read env file = Some buffer ->
  XLSX_read env buffer = inr workbook ->
  let st' := fst (handleFile env (Some (file :: files)) st) in
  (error st' = None <-> SheetNames workbook <> []) /\
  (SheetNames workbook <> [] ->
   st' = mkUIState (buildSheetData workbook) 0 (Some file) None (searchTerm st) /\
   (searchTerm other = searchTerm st ->
    fst (handleFile env (Some (file :: files)) other) = st')).
Proof.
  intros Hv Hr Hp st'. subst st'.
  unfold handleFile, readFileAsArrayBuffer. rewrite Hv, Hr, Hp. cbn [negb].
  destruct (buildSheetData workbook) as [|sheet sheets] eqn:E.
  - apply buildSheetData_nil in E. cbn. split; [|congruence].
    split; [discriminate | congruence].
  - assert (Hne : SheetNames workbook <> []).
    { intros H. apply buildSheetData_nil in H. congruence. }
    cbn. split; [tauto|]. intros _. split; [reflexivity|].
    destruct other, st. cbn. intros ->. reflexivity.
Qed.

Lemma successful_upload_replaces_workbook_witness :
  fst (handleFile cities_env (Some [data_xlsx]) big_state)
  = mkUIState (buildSheetData cities_workbook) 0 (Some data_xlsx) None "".
Proof.
  exact (proj1 (proj2 (@successful_upload_replaces_workbook
                         cities_env data_xlsx [] big_state initialState
                         [] cities_workbook eq_refl eq_refl eq_refl)
                 ltac:(discriminate))).
Defined.

(* ===================================================================== *)
(** ** The states of the page *)
(* ===================================================================== *)

Lemma buildSheetData_normalized (workbook : WorkBook) :
  Forall normalized (buildSheetData workbook).
Proof.
  apply Forall_forall. intros sheet H. now apply buildSheetData_In in H.
Qed.

Lemma handleFile_coherent
    (env : Collaborators) (files : option (list File)) (st : UIState) :
  coherent st -> coherent (fst (handleFile env files st)).
Proof.
  intros [H1 [H2 [H3 H4]]]. unfold handleFile, readFileAsArrayBuffer.
  destruct files as [[|file files]|]; cbn [fst];
    [repeat split; tauto | | repeat split; tauto].
  destruct (isValidFileType file); cbn [negb fst].
  - assert (Cleared : forall e,
              coherent (setFileMeta None (setSelectedSheets [] (setError e st)))).
    { intros e. unfold coherent. cbn. repeat split; try congruence.
      constructor. }
    destruct (FileReader_read env file) as [buffer|]; [|apply Cleared].
    destruct (XLSX_read env buffer) as [err|workbook]; [apply Cleared|].
    destruct (buildSheetData workbook) as [|sheet sheets] eqn:E;
      [apply Cleared|].
    unfold coherent. cbn. repeat split; try congruence; try lia.
    rewrite <- E. apply buildSheetData_normalized.
  - unfold coherent. cbn. repeat split; try tauto.
Qed.

Lemma handle_coherent (ev : Event) (st : UIState) :
  coherent st -> available ev st = true -> coherent (handle ev st).
Proof.
  intros Hc Ha. destruct ev; cbn [handle]; try assumption.
  - now apply handleFile_coherent.
  - now apply handleFile_coherent.
  - destruct Hc as [H1 [H2 [H3 H4]]]. cbn in Ha. apply Nat.ltb_lt in Ha.
    unfold coherent. cbn. repeat split; tauto.
Qed.

Lemma reachable_coherent (st : UIState) : reachable st -> coherent st.
Proof.
  induction 1 as [|st ev _ IH Ha].
  - unfold coherent. cbn. repeat split; try congruence. constructor.
  - now apply handle_coherent.
Qed.

(** The three facts about a reachable state that the rendering rests on. *)
Lemma reachable_facts (st : UIState) :
  reachable st ->
  (fileMeta st <> None -> selectedSheets st <> []) /\
  (selectedSheets st <> [] ->
   activeSheetIndex st < length (selectedSheets st) /\
   exists sheet, currentSheet st = Some sheet) /\
  (selectedSheets st = [] -> fileMeta st = None /\ currentSheet st = None).
Proof.
  intros H. destruct (reachable_coherent H) as [H1 [H2 [H3 H4]]].
  split; [apply H1|]. split.
  - intros Hne. specialize (H2 Hne). split; [exact H2|]. unfold currentSheet.
    destruct (nth_error (selectedSheets st) (activeSheetIndex st)) eqn:E;
      [eauto|].
    apply nth_error_None in E. lia.
  - intros E. split.
    + destruct (fileMeta st); [|reflexivity].
      exfalso. apply (proj1 H1); [discriminate | exact E].
    + unfold currentSheet. rewrite E. now destruct (activeSheetIndex st).
Qed.

(** X8: whatever uploads, drops, sheet clicks and filter input the page
    has seen, a file is shown exactly when a workbook is loaded; the
    active index then points at one of its sheets; every sheet has its
    counts equal to its numbers of records and headers; and an error shown
    next to a loaded workbook is the file-type error. *)
Theorem page_state_invariant (st : UIState) :
  reachable st ->
  (fileMeta st <> None <-> selectedSheets st <> []) /\
  (selectedSheets st <> [] -> exists sheet, currentSheet st = Some sheet) /\
  (selectedSheets st = [] -> currentSheet st = None) /\
  (forall sheet, In sheet (selectedSheets st) ->
     rowCount sheet = length (rows sheet) /\
     columnCount sheet = length (headers sheet)) /\
  (error st <> None -> selectedSheets st <> [] ->
   error st = Some InvalidFileType).
Proof.
  intros H. destruct (reachable_coherent H) as [H1 [H2 [H3 H4]]].
  split; [exact H1|]. split; [|split; [|split; [|exact H4]]].
  - intros Hne. specialize (H2 Hne). unfold currentSheet.
    destruct (nth_error (selectedSheets st) (activeSheetIndex st)) eqn:E;
      [eauto|].
    apply nth_error_None in E. lia.
  - intros E. unfold currentSheet. rewrite E. now destruct (activeSheetIndex st).
  - intros sheet Hin. rewrite Forall_forall in H3.
    destruct (H3 _ Hin) as [n [raw ->]].
    destruct (buildSheet_shape n raw) as [Hc [Hr _]]. now split.
Qed.

Lemma page_state_invariant_witness :
  exists sheet,
    currentSheet (handle (ClickSheet 1) loaded_state) = Some sheet.
Proof.
  refine (proj1 (proj2 (@page_state_invariant
                          (handle (ClickSheet 1) loaded_state) _)) _).
  - apply (@reachable_handle loaded_state (ClickSheet 1)); [|reflexivity].
    exact (@reachable_handle initialState
             (InputChange cities_env (Some [data_xlsx]))
             reachable_initial eq_refl).
  - discriminate.
Defined.

(* ===================================================================== *)
(** ** What is rendered *)
(* ===================================================================== *)

Lemma active_count (a : nat) (sheets : list SheetRows) :
  forall off,
    length (filter button_active
              (mapi_from
                 (fun sheet index =>
                    mkSheetButton (name sheet) (rowCount sheet)
                                  (columnCount sheet) (index =? a)%nat)
                 off sheets))
    = if ((off <=? a) && (a <? off + length sheets))%nat then 1 else 0.
Proof.
  induction sheets as [|sheet sheets IH]; intros off; cbn [mapi_from filter length].
  - destruct (Nat.leb_spec off a); destruct (Nat.ltb_spec a (off + 0));
      try reflexivity; lia.
  - cbn [button_active]. specialize (IH (S off)).
    destruct (Nat.eqb_spec off a) as [E|E]; cbn [length]; rewrite IH;
      destruct (Nat.leb_spec (S off) a);
      destruct (Nat.ltb_spec a (S off + length sheets));
      destruct (Nat.leb_spec off a);
      destruct (Nat.ltb_spec a (off + S (length sheets)));
      cbn [andb]; try reflexivity; lia.
Qed.

Lemma mapi_from_map {A B C} (f : A -> nat -> B) (g : B -> C) (h : A -> C)
    (l : list A) :
  (forall x i, g (f x i) = h x) ->
  forall off, map g (mapi_from f off l) = map h l.
Proof.
  intros H. induction l as [|x l IH]; intros off; simpl; [reflexivity|].
  now rewrite H, IH.
Qed.

(** X9: in every state the page can be in, the file badges, the sheet
    section and the enabled download buttons come and go together; the
    sheet-count badge shows the number of sheets; the sheet list names the
    sheets in order and draws exactly one button as active; a download
    happens exactly when the section is shown; the quick tips are shown
    only with no workbook and no error. *)
Theorem rendered_parts_agree (st : UIState) :
  reachable st ->
  fileBadgeShown st = sheetSectionShown st /\
  downloadDisabled st = negb (sheetSectionShown st) /\
  sheetCountBadge st
  = (if sheetSectionShown st then Some (length (selectedSheets st)) else None) /\
  map button_name (sheetButtons st) = map name (selectedSheets st) /\
  length (filter button_active (sheetButtons st))
  = (if sheetSectionShown st then 1 else 0) /\
  (download ClickJson st <> None <-> sheetSectionShown st = true) /\
  (download ClickCsv st <> None <-> sheetSectionShown st = true) /\
  (tipsShown st = true -> sheetSectionShown st = false /\ error st = None).
Proof.
  intros H. pose proof (reachable_facts H) as [H1 [H2 H3]].
  unfold fileBadgeShown, sheetSectionShown, downloadDisabled, sheetCountBadge,
    tipsShown, download, onClickJson, onClickCsv, sheetButtons, mapi.
  rewrite active_count.
  rewrite (mapi_from_map _ button_name name) by reflexivity.
  destruct (selectedSheets st) as [|sheet sheets] eqn:E.
  - destruct (H3 eq_refl) as [F Hcur]. rewrite F, Hcur. cbn.
    repeat split; try congruence; try discriminate.
    destruct (error st); [discriminate | reflexivity].
  - destruct (H2 ltac:(discriminate)) as [Hlt [cur Hcur]]. rewrite Hcur.
    assert (F : fileMeta st <> None).
    { apply (proj2 (proj1 (reachable_coherent H))). rewrite E. discriminate. }
    destruct (fileMeta st) as [f|]; [|now destruct F].
    destruct (Nat.leb_spec 0 (activeSheetIndex st)); [|lia].
    destruct (Nat.ltb_spec (activeSheetIndex st) (0 + length (sheet :: sheets)));
      [|simpl in *; lia].
    cbn. repeat split; try discriminate; try reflexivity.
Qed.

Lemma loaded_state_reachable : reachable loaded_state.
Proof.
  exact (@reachable_handle initialState
           (InputChange cities_env (Some [data_xlsx]))
           reachable_initial eq_refl).
Qed.

Lemma rendered_parts_agree_witness :
  fileBadgeShown loaded_state = true /\
  downloadDisabled loaded_state = false /\
  sheetCountBadge loaded_state = Some 2 /\
  map button_name (sheetButtons loaded_state) = ["Cities"; "Empty"] /\
  length (filter button_active (sheetButtons loaded_state)) = 1.
Proof.
  destruct (@rendered_parts_agree loaded_state loaded_state_reachable)
    as [H1 [H2 [H3 [H4 [H5 _]]]]].
  repeat split; assumption.
Defined.

Lemma record_of_has (headers : list string) (row : list value) (header : string) :
  JsObject.has header (record_of headers row) = true <->
  In header headers /\ header <> "__proto__".
Proof.
  rewrite has_true_iff, record_of_keys. apply record_keys_In.
Qed.

Lemma record_of_get_defined (headers : list string) (row : list value)
    (header : string) :
  JsObject.has header (record_of headers row) = true ->
  nullish (JsObject.get header (record_of headers row)) (VString "")
  = JsObject.get header (record_of headers row).
Proof.
  intros H. pose proof (record_of_values headers row) as V.
  rewrite Forall_forall in V. unfold JsObject.has in H.
  apply existsb_exists in H. destruct H as [[k v] [Hin Hk]].
  unfold JsObject.get.
  destruct (find (fun e => String.eqb (fst e) header) (record_of headers row))
    as [e|] eqn:F;
    [|exfalso; pose proof (find_none _ _ F _ Hin) as C; cbn beta in C;
      congruence].
  apply find_some in F. destruct (V e (proj1 F)) as [Hu Hn].
  destruct (snd e); simpl; congruence.
Qed.

(** The cell of a record under one of the sheet's headers: the text of the
    record's field, or the text of a plain object under [__proto__]. *)
Lemma renderCell_record (headers : list string) (row : list value)
    (header : string) :
  In header headers ->
  renderCell (record_of headers row) header
  = if String.eqb header "__proto__" then CellText "[object Object]"
    else CellText (toString (JsObject.get header (record_of headers row))).
Proof.
  intros Hin. unfold renderCell.
  destruct (String.eqb_spec header "__proto__") as [->|Hp].
  - destruct (JsObject.has "__proto__" (record_of headers row)) eqn:Hh;
      [|reflexivity].
    apply record_of_has in Hh. now destruct Hh.
  - assert (Hh : JsObject.has header (record_of headers row) = true)
      by (now apply record_of_has).
    rewrite Hh. now rewrite record_of_get_defined.
Qed.

(** X10: a cell of the preview table shows, under a header, the text of
    the last column that carries that header, an absent or null cell as
    the empty text, so columns with the same header show the same text;
    under a header [__proto__] it shows [[object Object]] whatever the
    row holds. *)
Theorem preview_cell_shows_last_column
    (headers : list string) (row : list value) (header : string) (index : nat) :
  nth_error headers index = Some header ->
  (forall later, index < later -> nth_error headers later <> Some header) ->
  (header <> "__proto__" ->
   renderCell (record_of headers row) header
   = CellText (toString (nullish (array_get row index) (VString "")))) /\
  (header = "__proto__" ->
   renderCell (record_of headers row) header = CellText "[object Object]").
Proof.
  intros Hi Hlast.
  assert (Hin : In header headers) by (eapply nth_error_In; eassumption).
  rewrite (@renderCell_record _ row _ Hin). split.
  - intros Hp. pose proof Hp as Hp'. apply String.eqb_neq in Hp'. rewrite Hp'.
    unfold record_of, forEachi.
    now rewrite (@get_forEachi_last row header Hp headers 0 JsObject.empty index).
  - intros ->. reflexivity.
Qed.

Lemma preview_cell_shows_last_column_witness :
  renderCell (record_of ["A"; "__proto__"; "A"]
                        [VString "1"; VString "2"; VNumber 3]) "A"
  = CellText "3" /\
  renderCell (record_of ["A"; "__proto__"; "A"]
                        [VString "1"; VString "2"; VNumber 3]) "__proto__"
  = CellText "[object Object]".
Proof.
  split.
  - refine (proj1 (@preview_cell_shows_last_column ["A"; "__proto__"; "A"]
                     [VString "1"; VString "2"; VNumber 3] "A" 2 eq_refl _) _).
    + intros [|[|[|later]]] H; try lia; destruct later; discriminate.
    + discriminate.
  - refine (proj2 (@preview_cell_shows_last_column ["A"; "__proto__"; "A"]
                     [VString "1"; VString "2"; VNumber 3] "__proto__" 1 eq_refl _)
              eq_refl).
    intros [|[|[|later]]] H; try lia; try discriminate; destruct later; discriminate.
Defined.










(* ===================================================================== *)
(** ** Searching *)
(* ===================================================================== *)

Lemma ci_substring_trans (a b c : string) :
  ci_substring a b -> ci_substring b c -> ci_substring a c.
Proof.
  intros Hab Hbc. apply includes_ascii_lower_iff in Hab, Hbc.
  apply includes_ascii_lower_iff. apply includes_iff in Hab, Hbc.
  destruct Hab as [p [q Hab]]. destruct Hbc as [p' [q' Hbc]].
  apply includes_iff. exists (p' ++ p), (q ++ q').
  rewrite Hbc, Hab. now rewrite !append_assoc.
Qed.

Lemma ci_substring_empty (t : string) : ci_substring t "" -> t = "".
Proof.
  intros [pre [mid [post [E H]]]].
  destruct pre; [|discriminate]. destruct mid; [|discriminate].
  now inversion H.
Qed.

Lemma field_matches_narrow (short long : string) (row : JsObject.t) :
  ci_substring short long -> field_matches long row -> field_matches short row.
Proof.
  intros Hs [k [v [text [Hin [Ht Hl]]]]]. exists k, v, text.
  repeat split; try assumption. eapply ci_substring_trans; eassumption.
Qed.

(** Letters that are equal up to case are ASCII together. *)
Lemma lower_char_ascii (c d : ascii) :
  lower_char c = lower_char d ->
  (byte_value d < 0x80)%N -> (byte_value c < 0x80)%N.
Proof.
  intros H Hd. unfold lower_char, is_upper, byte_value in *.
  destruct (Nat.leb_spec 65 (nat_of_ascii c));
    destruct (Nat.leb_spec (nat_of_ascii c) 90); cbn [andb] in H;
    try (unfold nat_of_ascii in *; lia);
    destruct (Nat.leb_spec 65 (nat_of_ascii d));
    destruct (Nat.leb_spec (nat_of_ascii d) 90); cbn [andb] in H;
    try (now subst);
    subst c; unfold ascii_of_nat, nat_of_ascii in *;
    rewrite N_ascii_embedding by lia; lia.
Qed.

Lemma ci_eq_ascii (a b : string) : ci_eq a b -> ascii_text b -> ascii_text a.
Proof.
  induction 1 as [|c d s t Hc _ IH]; [trivial|].
  intros [Hd Ht]. split; [exact (@lower_char_ascii c d Hc Hd) | auto].
Qed.

Lemma ci_eq_sym (a b : string) : ci_eq a b -> ci_eq b a.
Proof. induction 1; constructor; auto. Qed.

Lemma ci_substring_ascii (short long : string) :
  ci_substring short long -> ascii_text long -> ascii_text short.
Proof.
  intros [pre [mid [post [-> H]]]] Ha.
  apply ascii_text_append in Ha. destruct Ha as [_ Ha].
  apply ascii_text_append in Ha. destruct Ha as [Ha _].
  exact (@ci_eq_ascii _ _ (@ci_eq_sym _ _ H) Ha).
Qed.

(** X12: on ASCII texts a longer search term narrows the preview: when
    the old term occurs in the new one, letter case aside, every row
    shown for the new term matches the old term too, and, on a sheet of
    at most 200 records, was among the rows shown for the old term.
    Beyond ASCII this fails: the record [ΑΣ] is shown for the term [ΑΣ]
    and not for the term [Σ]. *)
Theorem longer_term_narrows_preview
    (st : UIState) (sheet : SheetRows) (old new : string) :
  currentSheet st = Some sheet ->
  ci_substring old new ->
  ascii_text new ->
  Forall ascii_fields (rows sheet) ->
  (forall row,
     In row (filteredRows (setSearchTerm new st)) ->
     new <> "" -> field_matches old row) /\
  (length (rows sheet) <= 200 ->
   forall row,
     In row (filteredRows (setSearchTerm new st)) ->
     In row (filteredRows (setSearchTerm old st))) /\
  (ci_substring "Σ" "ΑΣ" /\
   In [("Name", VString "ΑΣ")] (filteredRows (places_state "ΑΣ")) /\
   ~ In [("Name", VString "ΑΣ")] (filteredRows (places_state "Σ"))).
Proof.
  intros Hc Hs Hnew Hrows. rewrite Forall_forall in Hrows.
  pose proof (@ci_substring_ascii old new Hs Hnew) as Hold.
  assert (Hm : forall row,
            In row (filteredRows (setSearchTerm new st)) -> new <> "" ->
            In row (rows sheet) /\ field_matches new row).
  { intros row Hin Hne.
    pose proof (@filteredRows_In (setSearchTerm new st) sheet row Hc Hin) as Hr.
    split; [assumption|].
    unfold filteredRows, slice0 in Hin.
    change (currentSheet (setSearchTerm new st)) with (currentSheet st) in Hin.
    rewrite Hc in Hin. cbn [searchTerm setSearchTerm] in Hin.
    apply String.eqb_neq in Hne. rewrite Hne in Hin.
    apply firstn_In, filter_In in Hin. destruct Hin as [_ Hin].
    now apply (@row_matches_ascii new row Hnew (Hrows row Hr)). }
  split; [|split].
  - intros row Hin Hne. apply (field_matches_narrow Hs).
    now apply Hm.
  - intros Hlen row Hin.
    assert (Hrow : In row (rows sheet))
      by (now apply (@filteredRows_In (setSearchTerm new st) sheet row)).
    destruct (String.eqb_spec new "") as [->|Hn].
    + apply ci_substring_empty in Hs. now subst old.
    + destruct (Hm row Hin Hn) as [_ Hf].
      unfold filteredRows, slice0.
      change (currentSheet (setSearchTerm old st)) with (currentSheet st).
      rewrite Hc. cbn [searchTerm setSearchTerm].
      destruct (String.eqb_spec old "") as [->|Ho].
      * unfold maxRowsPreview. now rewrite firstn_all2.
      * rewrite firstn_all2.
        -- apply filter_In. split; [assumption|].
           apply (@row_matches_ascii old row Hold (Hrows row Hrow)).
           now apply (field_matches_narrow Hs).
        -- pose proof (filter_length_le (row_matches (toLowerCase old))
                                        (rows sheet)).
           unfold maxRowsPreview. lia.
  - split; [|split].
    + exists "Α", "Σ", "". split; [reflexivity | repeat constructor].
    + vm_compute. tauto.
    + intros H. vm_compute in H. exact H.
Qed.

Lemma longer_term_narrows_preview_witness :
  In [("Name", VString "Asha"); ("Column 2", VString "Delhi");
      ("Age", VNumber 31)]
     (filteredRows (setSearchTerm "EL" loaded_state)).
Proof.
  refine (proj1 (proj2 (@longer_term_narrows_preview loaded_state _ "EL" "Delhi"
                   eq_refl _ _ _)) _ _ _).
  - exists "D", "el", "hi". split; [reflexivity|].
    repeat constructor.
  - cbn. repeat split.
  - repeat constructor; intros key value text Hin E;
      cbn in Hin; repeat (destruct Hin as [Hin | Hin];
        [injection Hin as <- <-; injection E as <-; cbn; repeat split|]);
      destruct Hin.
  - simpl. lia.
  - simpl. now left.
Defined.

(** X13: the letter case of the search term does not matter: two terms
    with the same lower-case form give the same preview, as do two ASCII
    terms that differ in the case of their letters only, and the terms
    [É] and [é]. *)
Theorem search_term_case_is_ignored (st : UIState) (term term' : string) :
  (toLowerCase term = toLowerCase term' ->
   filteredRows (setSearchTerm term st)
   = filteredRows (setSearchTerm term' st)) /\
  (ascii_text term -> ci_eq term term' ->
   filteredRows (setSearchTerm term st)
   = filteredRows (setSearchTerm term' st)) /\
  (filteredRows (places_state "É") = [[("Name", VString "CAFÉ")]] /\
   filteredRows (places_state "é") = [[("Name", VString "CAFÉ")]]).
Proof.
  assert (G : toLowerCase term = toLowerCase term' ->
              filteredRows (setSearchTerm term st)
              = filteredRows (setSearchTerm term' st)).
  { intros H. unfold filteredRows.
    change (currentSheet (setSearchTerm term st)) with (currentSheet st).
    change (currentSheet (setSearchTerm term' st)) with (currentSheet st).
    destruct (currentSheet st) as [sheet|]; [|reflexivity].
    cbn [searchTerm setSearchTerm].
    pose proof (toLowerCase_empty term) as E1.
    pose proof (toLowerCase_empty term') as E2.
    destruct (String.eqb_spec term "") as [E|E];
      destruct (String.eqb_spec term' "") as [E'|E'].
    - reflexivity.
    - exfalso. apply E', E2. rewrite <- H. now apply E1.
    - exfalso. apply E, E1. rewrite H. now apply E2.
    - now rewrite H. }
  split; [exact G|]. split; [|split; reflexivity].
  intros Ha Hci. apply G.
  rewrite (@toLowerCase_ascii term Ha).
  rewrite (@toLowerCase_ascii term' (@ci_eq_ascii _ _ (@ci_eq_sym _ _ Hci) Ha)).
  now apply ci_eq_iff.
Qed.

Lemma search_term_case_is_ignored_witness :
  filteredRows (setSearchTerm "DELHI" loaded_state)
  = filteredRows (setSearchTerm "delhi" loaded_state).
Proof.
  apply (proj1 (proj2 (@search_term_case_is_ignored loaded_state
                         "DELHI" "delhi"))).
  - cbn. repeat split.
  - repeat constructor.
Defined.

(* ===================================================================== *)
(** ** Downloads and uploads together *)
(* ===================================================================== *)

Lemma ci_eq_last (e0 : string) (x : ascii) :
  forall mid, ci_eq mid (e0 ++ String x "") ->
  exists m0 y, mid = m0 ++ String y "" /\ lower_char y = lower_char x.
Proof.
  induction e0 as [|d e0 IH]; intros mid H; inversion H as [|c ? s ? Hc Hs];
    subst.
  - inversion Hs; subst. now exists "", c.
  - destruct (IH _ Hs) as [m0 [y [-> Hy]]]. now exists (String c m0), y.
Qed.

(** A name that ends in [.json] has none of the allowed extensions. *)
Lemma json_name_rejected (stem : string) (size : N) :
  isValidFileType (mkFile (stem ++ ".json") size) = false.
Proof.
  apply isValidFileType_false. cbn [file_name].
  assert (R : forall e0 x mid pre,
             lower_char x <> "n"%char ->
             ci_eq mid (e0 ++ String x "") ->
             stem ++ ".json" <> pre ++ mid).
  { intros e0 x mid pre Hx H E.
    destruct (@ci_eq_last e0 x mid H) as [m0 [y [-> Hy]]].
    change (stem ++ ".json") with (stem ++ ".jso" ++ String "n" "") in E.
    rewrite <- !append_assoc in E. apply append_last_inj in E.
    destruct E as [_ <-]. apply Hx. rewrite <- Hy. reflexivity. }
  intros extension Hin [pre [mid [E H]]]. revert E.
  simpl in Hin. destruct Hin as [<- | [<- | [<- | [<- | []]]]].
  - apply (R ".xls" "x"%char); [discriminate | exact H].
  - apply (R ".xl" "s"%char); [discriminate | exact H].
  - apply (R ".cs" "v"%char); [discriminate | exact H].
  - apply (R ".od" "s"%char); [discriminate | exact H].
Qed.

(** X14: the CSV download carries a name the upload accepts, whatever the
    sheet is called; the JSON download carries a name the upload rejects
    with the file-type error. *)
Theorem download_names_and_upload
    (sheet : SheetRows) (size : N) (env : Collaborators) (st : UIState) :
  download_name (downloadAsCsv sheet) = name sheet ++ ".csv" /\
  download_name (downloadAsJson sheet) = name sheet ++ ".json" /\
  isValidFileType (mkFile (download_name (downloadAsCsv sheet)) size) = true /\
  isValidFileType (mkFile (download_name (downloadAsJson sheet)) size) = false /\
  error (fst (handleFile env
                (Some [mkFile (download_name (downloadAsJson sheet)) size]) st))
  = Some InvalidFileType.
Proof.
  split; [reflexivity | split; [reflexivity|]].
  cbn [downloadAsCsv downloadAsJson download_name].
  assert (J := json_name_rejected (name sheet) size).
  split; [|split; [exact J|]].
  - apply isValidFileType_iff. exists ".csv". split; [simpl; tauto|].
    exists (name sheet), ".csv". split; [reflexivity | apply ci_eq_refl].
  - unfold handleFile. rewrite J. reflexivity.
Qed.

Lemma handleFile_success
    (env : Collaborators) (file : File) (files : list File) (st : UIState)
    (buffer : ArrayBuffer) (workbook : WorkBook) :
  isValidFileType file = true ->
  FileReader_read env file = Some buffer ->
  XLSX_read env buffer = inr workbook ->
  SheetNames workbook <> [] ->
  fst (handleFile env (Some (file :: files)) st)
  = mkUIState (buildSheetData workbook) 0 (Some file) None (searchTerm st).
Proof.
  intros Hv Hr Hp Hn. unfold handleFile, readFileAsArrayBuffer.
  rewrite Hv, Hr, Hp. cbn [negb].
  destruct (buildSheetData workbook) eqn:E; [|reflexivity].
  apply buildSheetData_nil in E. contradiction.
Qed.

(** X15: from upload to download: after a file is loaded, a click on the
    button of any of its sheets and any input to the filter box, the two
    download buttons hand over the JSON and the CSV of the sheet clicked,
    under its name; the JSON text parses back to all its records,
    whatever the filter box holds. *)
Theorem upload_then_download
    (env : Collaborators) (file : File) (files : list File) (st : UIState)
    (buffer : ArrayBuffer) (workbook : WorkBook)
    (index : nat) (sheetName term : string) :
  isValidFileType file = true ->
  FileReader_read env file = Some buffer ->
  XLSX_read env buffer = inr workbook ->
  nth_error (SheetNames workbook) index = Some sheetName ->
  let loaded := handle (InputChange env (Some (file :: files))) st in
  let st' := handle (SearchInput term) (handle (ClickSheet index) loaded) in
  let sheet := buildSheet sheetName (sheet_to_json (Sheets workbook sheetName)) in
  available (ClickSheet index) loaded = true /\
  available (SearchInput term) (handle (ClickSheet index) loaded) = true /\
  available ClickJson st' = true /\
  available ClickCsv st' = true /\
  download ClickJson st' = Some (downloadAsJson sheet) /\
  download ClickCsv st' = Some (downloadAsCsv sheet) /\
  download_name (downloadAsJson sheet) = sheetName ++ ".json" /\
  download_name (downloadAsCsv sheet) = sheetName ++ ".csv" /\
  JSON.parse (blob_text (downloadAsJson sheet)) = Some (rows sheet).
Proof.
  intros Hv Hr Hp Hn loaded st' sheet.
  assert (Hne : SheetNames workbook <> [])
    by (intros E; rewrite E in Hn; destruct index; discriminate).
  assert (Hl : loaded = mkUIState (buildSheetData workbook) 0 (Some file) None
                                  (searchTerm st))
    by (now apply (@handleFile_success env file files st buffer workbook)).
  assert (Hs : nth_error (buildSheetData workbook) index = Some sheet)
    by (unfold buildSheetData; rewrite nth_error_map, Hn; reflexivity).
  assert (Hlt : index < length (buildSheetData workbook))
    by (apply nth_error_Some; congruence).
  assert (Hc : currentSheet st' = Some sheet)
    by (subst st'; rewrite Hl; exact Hs).
  assert (Hname : name sheet = sheetName).
  { subst sheet. destruct (sheet_to_json (Sheets workbook sheetName)); reflexivity. }
  repeat split.
  - rewrite Hl. cbn. now apply Nat.ltb_lt.
  - rewrite Hl. cbn.
    destruct (length (buildSheetData workbook)); [lia | reflexivity].
  - cbn [available]. unfold downloadDisabled. now rewrite Hc.
  - cbn [available]. unfold downloadDisabled. now rewrite Hc.
  - cbn [download]. unfold onClickJson. now rewrite Hc.
  - cbn [download]. unfold onClickCsv. now rewrite Hc.
  - cbn [downloadAsJson download_name]. now rewrite Hname.
  - cbn [downloadAsCsv download_name]. now rewrite Hname.
  - apply JSON_roundtrip, buildSheet_rows_well_formed.
Qed.

Lemma upload_then_download_witness :
  download ClickJson
    (handle (SearchInput "pune")
       (handle (ClickSheet 1)
          (handle (InputChange cities_env (Some [data_xlsx])) initialState)))
  = Some (downloadAsJson (buildSheet "Empty" [])) /\
  JSON.parse (blob_text (downloadAsJson (buildSheet "Empty" []))) = Some [].
Proof.
  destruct (@upload_then_download cities_env data_xlsx [] initialState []
              cities_workbook 1 "Empty" "pune" eq_refl eq_refl eq_refl eq_refl)
    as [_ [_ [_ [_ [H5 [_ [_ [_ H9]]]]]]]].
  split; [exact H5 | exact H9].
Defined.
